(** * canvas-record: the recording orchestrator

    A shallow embedding of the [Recorder] class (status enum, accessors,
    extension resolution, encoder selection, [init], [start], [getFrame],
    [step], [stop], [dispose]) and the properties of its lifecycle, timing
    and frame acquisition.

    Conventions of the embedding.
    - A JavaScript number is a [number]: the exact value of an IEEE 754
      double as a rational, one of the two infinities, or NaN.  A product, a
      sum or a quotient of two finite numbers is the exact result rounded to
      the nearest double, ties to the even significand ([double]).  The sign
      of zero is not represented.
    - [frame] is a whole number, kept as an integer: [this.frame++] is exact
      as long as the counter is below 2^53, and the statements about counted
      frames are made for that range.
    - An [async] method is a function from the recorder object to the mutated
      object paired with a completion: a returned value or a thrown error
      (a rejected promise).  What was mutated before a throw stays mutated.
      Calls are made one after the other, each when the promise of the
      previous one has settled.
    - Everything observable from outside the object (the [onStatusChange]
      callback, the console, every call into the encoder, the download) is
      appended to the object's [trace] in the order in which it happens.
      The callback and the encoder do not call back into the recorder.
    - The encoder classes, the helpers of [utils.js] and the browser functions
      are not part of the class; they are the fields of a [Platform]. *)

From Stdlib Require Import ZArith QArith Qround Qabs Qpower.
From Stdlib Require Import List String Ascii Bool Lia Lqa.
From Stdlib Require Import Strings.Byte.
Import ListNotations.

Local Open Scope Z_scope.

(** ** JavaScript numbers *)

Inductive number : Type :=
| Fin (q : Q)
| PosInf
| NegInf
| NaN.

Definition Qlt_bool (a b : Q) : bool := negb (Qle_bool b a).

(** *** Rounding to a double

    A finite double other than zero is [m * 2^e] with a significand [m] of
    at most 53 bits and [-1074 <= e <= 971]. *)

Definition pow2 (e : Z) : Q :=
  if 0 <=? e then inject_Z (2 ^ e) else / inject_Z (2 ^ (- e)).

(** The [e] with [2^e <= a < 2^(e+1)], for a positive [a]. *)
Definition binade (a : Q) : Z :=
  let e0 := Z.log2 (Qnum a) - Z.log2 (Zpos (Qden a)) in
  if Qle_bool (pow2 e0) a then e0 else e0 - 1.

(** The nearest whole number, the even one of two that are equally near. *)
Definition round_half_even (x : Q) : Z :=
  let f := Qfloor x in
  match Qcompare (x - inject_Z f)%Q (1 # 2) with
  | Lt => f
  | Gt => f + 1
  | Eq => if Z.even f then f else f + 1
  end.

(** The double nearest to [q], ties to even: the unit in the last place is
    [2^e], which keeps 53 bits above the subnormal range; what rounds to
    [2^1024] or more overflows to an infinity. *)
Definition double (q : Q) : number :=
  if Qeq_bool q 0 then Fin 0
  else
    let a := Qabs q in
    let e := Z.max (binade a - 52) (-1074) in
    let v := (inject_Z (round_half_even (a / pow2 e)) * pow2 e)%Q in
    if Qle_bool (pow2 1024) v
    then (if Qlt_bool q 0 then NegInf else PosInf)
    else Fin (Qred (if Qlt_bool q 0 then (- v)%Q else v)).

(** A whole number; exact up to 2^53 in magnitude. *)
Definition num_of_Z (z : Z) : number := Fin (inject_Z z).

(** The number a decimal literal of value [q] denotes. *)
Definition literal (q : Q) : number := double q.

(** The numbers a program can hold: a finite one is a double, written in
    lowest terms, so rounding leaves it as it is. *)
Definition is_double (x : number) : Prop :=
  match x with
  | Fin q => double q = Fin q
  | _ => True
  end.

(** [a < b]: false as soon as one side is NaN. *)
Definition num_lt (a b : number) : bool :=
  match a, b with
  | NaN, _ | _, NaN => false
  | Fin x, Fin y => Qlt_bool x y
  | Fin _, PosInf => true
  | Fin _, NegInf => false
  | PosInf, _ => false
  | NegInf, NegInf => false
  | NegInf, _ => true
  end.

Definition num_neg (a : number) : number :=
  match a with
  | Fin x => Fin (- x)
  | PosInf => NegInf
  | NegInf => PosInf
  | NaN => NaN
  end.

(** An infinity scaled by a finite factor. *)
Definition scale_inf (inf : number) (x : Q) : number :=
  if Qeq_bool x 0 then NaN
  else if Qlt_bool 0 x then inf else num_neg inf.

Definition num_mul (a b : number) : number :=
  match a, b with
  | NaN, _ | _, NaN => NaN
  | Fin x, Fin y => double (x * y)
  | Fin x, PosInf => scale_inf PosInf x
  | Fin x, NegInf => scale_inf NegInf x
  | PosInf, Fin y => scale_inf PosInf y
  | NegInf, Fin y => scale_inf NegInf y
  | PosInf, PosInf | NegInf, NegInf => PosInf
  | PosInf, NegInf | NegInf, PosInf => NegInf
  end.

Definition num_add (a b : number) : number :=
  match a, b with
  | NaN, _ | _, NaN => NaN
  | Fin x, Fin y => double (x + y)
  | Fin _, PosInf | PosInf, Fin _ | PosInf, PosInf => PosInf
  | Fin _, NegInf | NegInf, Fin _ | NegInf, NegInf => NegInf
  | PosInf, NegInf | NegInf, PosInf => NaN
  end.

Definition num_div (a b : number) : number :=
  match a, b with
  | NaN, _ | _, NaN => NaN
  | Fin x, Fin y =>
      if Qeq_bool y 0 then
        (if Qeq_bool x 0 then NaN
         else if Qlt_bool 0 x then PosInf else NegInf)
      else double (x / y)
  | Fin _, PosInf | Fin _, NegInf => Fin 0
  | PosInf, Fin y => if Qlt_bool y 0 then NegInf else PosInf
  | NegInf, Fin y => if Qlt_bool y 0 then PosInf else NegInf
  | PosInf, PosInf | PosInf, NegInf | NegInf, PosInf | NegInf, NegInf => NaN
  end.

(** [a <= b]: false as soon as one side is NaN. *)
Definition num_le (a b : number) : bool :=
  match a, b with
  | NaN, _ | _, NaN => false
  | Fin x, Fin y => Qle_bool x y
  | Fin _, PosInf => true
  | Fin _, NegInf => false
  | PosInf, PosInf => true
  | PosInf, _ => false
  | NegInf, _ => true
  end.

(** Two numbers have the same value. *)
Definition num_eqv (a b : number) : Prop :=
  match a, b with
  | Fin x, Fin y => (x == y)%Q
  | PosInf, PosInf | NegInf, NegInf => True
  | _, _ => False
  end.

(** A duration is a number of seconds from 0 to Infinity; a frame rate is a
    positive finite number of frames per second. *)
Definition valid_duration (x : number) : Prop :=
  match x with
  | Fin d => (0 <= d)%Q
  | PosInf => True
  | _ => False
  end.

Definition valid_frameRate (x : number) : Prop :=
  match x with
  | Fin fr => (0 < fr)%Q
  | _ => False
  end.

(** A whole number of frames, or no bound at all. *)
Definition whole (x : number) : Prop :=
  x = PosInf \/ exists n : Z, num_eqv x (num_of_Z n).

(** ** The status enum

    [RecorderStatus] is a frozen object with five members.  A status value is
    what a member access evaluates to: the member's number, or [undefined]
    ([None]) for a name the object does not have. *)

Definition RecorderStatus : list (string * Z) :=
  [ ("Ready"%string, 0);
    ("Initializing"%string, 1);
    ("Recording"%string, 2);
    ("Stopping"%string, 3);
    ("Stopped"%string, 4) ].

Definition Status : Type := option Z.

Fixpoint member (o : list (string * Z)) (key : string) : option Z :=
  match o with
  | [] => None
  | (k, v) :: rest => if String.eqb k key then Some v else member rest key
  end.

Definition Ready : Status := member RecorderStatus "Ready".
Definition Initializing : Status := member RecorderStatus "Initializing".
Definition Initialized : Status := member RecorderStatus "Initialized".
Definition Recording : Status := member RecorderStatus "Recording".
Definition Stopping : Status := member RecorderStatus "Stopping".
Definition Stopped : Status := member RecorderStatus "Stopped".

(** The lifecycle as the class names it. *)
Definition lifecycle : list Status :=
  [Ready; Initializing; Initialized; Recording; Stopping; Stopped].

(** Strict equality [===] on status values. *)
Definition status_eqb (a b : Status) : bool :=
  match a, b with
  | Some x, Some y => Z.eqb x y
  | None, None => true
  | _, _ => false
  end.

(** ** Completions *)

Inductive Completion (A : Type) : Type :=
| Normal (a : A)
| Throw (err : string).
Arguments Normal {A} a.
Arguments Throw {A} err.

(** ** The drawing surface *)

Record Canvas : Type := {
  canvas_width : Z;
  canvas_height : Z
}.

(** A WebGL context exposes [drawingBufferWidth] and [drawingBufferHeight];
    a 2D context has neither. *)
Record Context : Type := {
  canvas : Canvas;
  drawingBuffer : option (Z * Z)
}.

Definition drawingBufferWidth (c : Context) : option Z :=
  option_map fst (drawingBuffer c).
Definition drawingBufferHeight (c : Context) : option Z :=
  option_map snd (drawingBuffer c).

(** [a || b] for an optional number [a]: [undefined] and [0] are falsy. *)
Definition or_else (a : option Z) (b : Z) : Z :=
  match a with
  | Some v => if v =? 0 then b else v
  | None => b
  end.

(** ** Frames and artifacts *)

Inductive Frame : Type :=
| ImageBitmap (handle : Z)
| VideoFrame (handle : Z) (timestamp : number)
| NoFrame
| Pixels (data : list byte)
| Screenshot (handle : Z).

Inductive Artifact : Type :=
| Buffer (b : list byte)
| Buffers (bs : list (list byte)).

(** [Array.isArray(buffer) ? buffer : [buffer]] *)
Definition blobParts (a : Artifact) : list (list byte) :=
  match a with
  | Buffer b => [b]
  | Buffers bs => bs
  end.

(** ** Typed arrays *)

Definition zeros (len : Z) : list byte := repeat x00 (Z.to_nat len).

Definition len (a : list byte) : Z := Z.of_nat (List.length a).

(** A relative index of [subarray], clamped to the array. *)
Definition clamp_index (a : list byte) (i : Z) : Z :=
  if i <? 0 then Z.max (len a + i) 0 else Z.min i (len a).

Definition subarray (a : list byte) (b e : Z) : list byte :=
  let b' := clamp_index a b in
  let e' := clamp_index a e in
  firstn (Z.to_nat (e' - b')) (skipn (Z.to_nat b') a).

(** [dst.set(src, offset)]: a RangeError ([None]) when the source does not
    fit. *)
Definition typed_set (dst src : list byte) (offset : Z) : option (list byte) :=
  if (offset <? 0) || (len dst <? offset + len src) then None
  else Some (firstn (Z.to_nat offset) dst ++ src
             ++ skipn (Z.to_nat (offset + len src)) dst).

(** What a call that writes [data] into a typed array leaves in it: the
    array keeps its length. *)
Definition written (a data : list byte) : list byte :=
  firstn (List.length a) (data ++ skipn (List.length data) a).

(** ** String helpers *)

Definition quote : string := String "034"%char EmptyString.

Definition includes (l : list string) (s : string) : bool :=
  existsb (String.eqb s) l.

(** A template literal prints [undefined] for a missing value. *)
Definition show_opt (s : option string) : string :=
  match s with
  | Some x => x
  | None => "undefined"%string
  end.

(** [parts.filter(Boolean).join(sep)] on strings: the empty string is
    falsy. *)
Definition truthy_string (s : string) : bool :=
  negb (String.eqb s EmptyString).

Fixpoint join (sep : string) (parts : list string) : string :=
  match parts with
  | [] => EmptyString
  | [p] => p
  | p :: rest => (p ++ sep ++ join sep rest)%string
  end.

Section Model.

(** What an encoder keeps for itself, and the encoder-specific options the
    recorder only passes on. *)
Context {EncoderData EncoderOptions : Type}.

(** ** The encoder object, as far as the recorder reads or writes it *)

Record Encoder : Type := {
  enc_name : string;                     (* constructor.name *)
  supportedExtensions : list string;     (* constructor.supportedExtensions *)
  frameMethod : option string;
  enc_extension : option string;
  enc_mimeType : option string;
  enc_width : option Z;
  enc_height : option Z;
  enc_data : EncoderData
}.

Definition with_enc_width (e : Encoder) (v : option Z) : Encoder :=
  {| enc_name := enc_name e; supportedExtensions := supportedExtensions e;
     frameMethod := frameMethod e; enc_extension := enc_extension e;
     enc_mimeType := enc_mimeType e; enc_width := v;
     enc_height := enc_height e; enc_data := enc_data e |}.

Definition with_enc_height (e : Encoder) (v : option Z) : Encoder :=
  {| enc_name := enc_name e; supportedExtensions := supportedExtensions e;
     frameMethod := frameMethod e; enc_extension := enc_extension e;
     enc_mimeType := enc_mimeType e; enc_width := enc_width e;
     enc_height := v; enc_data := enc_data e |}.

(** ** Options *)

(** The options object a caller passes: every member is optional. *)
Record RecorderOptions : Type := {
  opt_name : option string;
  opt_filename : option string;
  opt_duration : option number;
  opt_frameRate : option number;
  opt_download : option bool;
  opt_extension : option string;
  opt_encoder : option Encoder;
  opt_encoderOptions : option EncoderOptions;
  opt_debug : option bool
}.

(** [{ ...Recorder.defaultOptions, ...options }] *)
Record Options : Type := {
  o_name : string;
  o_filename : option string;
  o_duration : number;
  o_frameRate : number;
  o_download : bool;
  o_extension : string;
  o_encoder : option Encoder;
  o_encoderOptions : option EncoderOptions;
  o_debug : option bool
}.

Definition defaultOptions : Options :=
  {| o_name := EmptyString; o_filename := None;
     o_duration := num_of_Z 3; o_frameRate := num_of_Z 30;
     o_download := true; o_extension := "mp4";
     o_encoder := None; o_encoderOptions := None; o_debug := None |}.

Definition or_default {A} (given : option A) (default : A) : A :=
  match given with
  | Some v => v
  | None => default
  end.

Definition or_given {A} (given default : option A) : option A :=
  match given with
  | Some v => Some v
  | None => default
  end.

Definition spread (defaults : Options) (options : RecorderOptions) : Options :=
  {| o_name := or_default (opt_name options) (o_name defaults);
     o_filename := or_given (opt_filename options) (o_filename defaults);
     o_duration := or_default (opt_duration options) (o_duration defaults);
     o_frameRate := or_default (opt_frameRate options) (o_frameRate defaults);
     o_download := or_default (opt_download options) (o_download defaults);
     o_extension := or_default (opt_extension options) (o_extension defaults);
     o_encoder := or_given (opt_encoder options) (o_encoder defaults);
     o_encoderOptions :=
       or_given (opt_encoderOptions options) (o_encoderOptions defaults);
     o_debug := or_given (opt_debug options) (o_debug defaults) |}.

Definition mimeTypes : list (string * string) :=
  [ ("mkv", "video/x-matroska;codecs=avc1");
    ("webm", "video/webm");
    ("mp4", "video/mp4");
    ("gif", "image/gif") ]%string.

(** An own property of an object literal. *)
Fixpoint lookup (o : list (string * string)) (key : string) : option string :=
  match o with
  | [] => None
  | (k, v) :: rest => if String.eqb k key then Some v else lookup rest key
  end.

(** The members an object literal inherits from [Object.prototype]. *)
Definition object_prototype : list string :=
  [ "constructor"; "__defineGetter__"; "__defineSetter__"; "hasOwnProperty";
    "__lookupGetter__"; "__lookupSetter__"; "isPrototypeOf";
    "propertyIsEnumerable"; "toString"; "valueOf"; "__proto__";
    "toLocaleString" ]%string.

(** What [o[key]] evaluates to: the own property, else the inherited member
    of that name (a function or an object, not a string), else [undefined]. *)
Inductive Property : Type :=
| Own (value : string)
| Inherited (key : string)
| Undefined.

Definition get_property (o : list (string * string)) (key : string)
  : Property :=
  match lookup o key with
  | Some v => Own v
  | None => if includes object_prototype key then Inherited key else Undefined
  end.

(** ** What the recorder hands to [encoder.init] *)

Record EncoderConfig : Type := {
  cfg_encoderOptions : option EncoderOptions;
  cfg_canvas : Canvas;
  cfg_width : Z;
  cfg_height : Z;
  cfg_frameRate : number;
  cfg_extension : option string;
  cfg_mimeType : Property;
  cfg_paramString : string;
  cfg_debug : option bool
}.

(** ** Observable events *)

Inductive Event : Type :=
| StatusChange (s : Status)
| ConsoleWarn (msg : string)
| ConsoleDebug (msg : string)
| EncoderInit (cfg : EncoderConfig)
| EncoderEncode (f : Frame) (index : Z)
| EncoderStop
| EncoderDispose
| DownloadBlob (filename : option string) (parts : list (list byte))
    (mimeType : option string).

(** ** The recorder object *)

(** The four members [init] assigns together. *)
Record Timing : Type := {
  deltaTime : number;
  time : number;
  frame : Z;
  frameTotal : number
}.

Record Recorder : Type := {
  context : Context;
  name : string;
  filename : option string;
  duration : number;
  frameRate : number;
  download : bool;
  extension : string;
  encoder : Encoder;
  encoderOptions : option EncoderOptions;
  debug : option bool;
  status : Status;
  timing : option Timing;          (* undefined until init() has run *)
  startTime : option Z;
  trace : list Event
}.

Definition with_encoder (r : Recorder) (e : Encoder) : Recorder :=
  {| context := context r; name := name r; filename := filename r;
     duration := duration r; frameRate := frameRate r;
     download := download r; extension := extension r; encoder := e;
     encoderOptions := encoderOptions r; debug := debug r;
     status := status r; timing := timing r; startTime := startTime r;
     trace := trace r |}.

Definition with_status (r : Recorder) (s : Status) : Recorder :=
  {| context := context r; name := name r; filename := filename r;
     duration := duration r; frameRate := frameRate r;
     download := download r; extension := extension r;
     encoder := encoder r;
     encoderOptions := encoderOptions r; debug := debug r;
     status := s; timing := timing r; startTime := startTime r;
     trace := trace r |}.

Definition with_timing (r : Recorder) (t : option Timing) : Recorder :=
  {| context := context r; name := name r; filename := filename r;
     duration := duration r; frameRate := frameRate r;
     download := download r; extension := extension r;
     encoder := encoder r;
     encoderOptions := encoderOptions r; debug := debug r;
     status := status r; timing := t; startTime := startTime r;
     trace := trace r |}.

Definition with_filename (r : Recorder) (f : option string) : Recorder :=
  {| context := context r; name := name r; filename := f;
     duration := duration r; frameRate := frameRate r;
     download := download r; extension := extension r;
     encoder := encoder r;
     encoderOptions := encoderOptions r; debug := debug r;
     status := status r; timing := timing r; startTime := startTime r;
     trace := trace r |}.

Definition with_startTime (r : Recorder) (d : option Z) : Recorder :=
  {| context := context r; name := name r; filename := filename r;
     duration := duration r; frameRate := frameRate r;
     download := download r; extension := extension r;
     encoder := encoder r;
     encoderOptions := encoderOptions r; debug := debug r;
     status := status r; timing := timing r; startTime := d;
     trace := trace r |}.

Definition emit (r : Recorder) (e : Event) : Recorder :=
  {| context := context r; name := name r; filename := filename r;
     duration := duration r; frameRate := frameRate r;
     download := download r; extension := extension r;
     encoder := encoder r;
     encoderOptions := encoderOptions r; debug := debug r;
     status := status r; timing := timing r; startTime := startTime r;
     trace := trace r ++ [e] |}.

(** ** The platform: everything the class imports or finds in the browser *)

Record Platform : Type := {
  isWebCodecsSupported : bool;
  nextMultiple : Z -> Z -> Z;
  formatDate : Z -> string;
  formatDate_undefined : Completion string;   (* formatDate(undefined) *)
  number_toString : number -> string;
  now : Z;
  (* the four encoder classes *)
  new_GIFEncoder : Options -> Encoder;
  new_FrameEncoder : Options -> Encoder;
  new_WebCodecsEncoder : Options -> Encoder;
  new_H264MP4Encoder : Options -> Encoder;
  (* the encoder contract *)
  encoder_init : EncoderConfig -> Encoder -> Encoder * Completion unit;
  encoder_encode : Frame -> Z -> Encoder -> Encoder * Completion unit;
  encoder_stop : Encoder -> Encoder * Completion (option Artifact);
  encoder_dispose : Encoder -> Encoder * Completion unit;
  (* the surface *)
  createImageBitmap : Canvas -> Completion Z;
  new_VideoFrame : Canvas -> number -> Completion Z;
  readPixels : Context -> Z -> Z -> Z -> Z -> Completion (list byte);
  getImageData : Context -> Z -> Z -> Z -> Z -> Completion (list byte);
  canvasScreenshot : Canvas -> string -> Completion Z
}.

End Model.

Arguments Encoder : clear implicits.
Arguments RecorderOptions : clear implicits.
Arguments Options : clear implicits.
Arguments EncoderConfig : clear implicits.
Arguments Event : clear implicits.
Arguments Recorder : clear implicits.
Arguments Platform : clear implicits.

(** ** The class *)

Declare Scope js_scope.
Delimit Scope js_scope with js.

Section Methods.

Context {EncoderData EncoderOptions : Type}.
Variable P : Platform EncoderData EncoderOptions.

Local Abbreviation Enc := (Encoder EncoderData).
Local Abbreviation Rec := (Recorder EncoderData EncoderOptions).
Local Abbreviation Ev := (Event EncoderOptions).

(** A method body: the object goes in, the mutated object and a completion
    come out. *)
Definition M (A : Type) : Type := Rec -> Rec * Completion A.

Definition ret {A} (a : A) : M A := fun r => (r, Normal a).

Definition bind {A B} (m : M A) (k : A -> M B) : M B :=
  fun r =>
    match m r with
    | (r', Normal a) => k a r'
    | (r', Throw e) => (r', Throw e)
    end.

Notation "x <- m ;; k" := (bind m (fun x => k))
  (at level 61, m at next level, right associativity) : js_scope.
Notation "m ;; k" := (bind m (fun _ => k))
  (at level 61, right associativity) : js_scope.

Local Open Scope js_scope.

Definition this : M Rec := fun r => (r, Normal r).

Definition assign (f : Rec -> Rec) : M unit := fun r => (f r, Normal tt).

(** A browser call that does not touch the object. *)
Definition lift {A} (c : Completion A) : M A := fun r => (r, c).

(** A call of an encoder method: it is recorded, then the encoder does
    what it does, to itself only. *)
Definition call_encoder {A} (ev : Ev) (method : Enc -> Enc * Completion A)
  : M A :=
  fun r =>
    let r1 := emit r ev in
    let (e', c) := method (encoder r1) in
    (with_encoder r1 e', c).

(** [set width(value)] and [set height(value)] *)
Definition set_width (value : Z) (r : Rec) : Rec :=
  with_encoder r (with_enc_width (encoder r) (Some value)).

Definition set_height (value : Z) (r : Rec) : Rec :=
  with_encoder r (with_enc_height (encoder r) (Some value)).

(** [get width()] and [get height()] *)
Definition get_width (r : Rec) : Z :=
  or_else (drawingBufferWidth (context r)) (canvas_width (canvas (context r))).

Definition get_height (r : Rec) : Z :=
  or_else (drawingBufferHeight (context r))
    (canvas_height (canvas (context r))).

Definition map_completion {A B} (f : A -> B) (c : Completion A)
  : Completion B :=
  match c with
  | Normal a => Normal (f a)
  | Throw e => Throw e
  end.

(** [#updateStatus(status)] *)
Definition updateStatus (s : Status) : M unit :=
  assign (fun r => let r1 := with_status r s in
                   emit r1 (StatusChange (status r1))).

Definition getParamString (r : Rec) : string :=
  (number_toString P (num_of_Z (get_width r)) ++ "x"
   ++ number_toString P (num_of_Z (get_height r)) ++ "@"
   ++ number_toString P (frameRate r) ++ "fps")%string.

Definition getDefaultFileName (r : Rec) (ext : option string)
  : Completion string :=
  map_completion
    (fun date =>
       (join "-" (filter truthy_string [name r; date; getParamString r])
        ++ "." ++ show_opt ext)%string)
    match startTime r with
    | Some d => Normal (formatDate P d)
    | None => formatDate_undefined P
    end.

Definition getSupportedExtension : M (option string) :=
  r <- this ;;
  let CurrentEncoder := encoder r in
  let isExtensionSupported :=
    includes (supportedExtensions CurrentEncoder) (extension r) in
  let ext :=
    if isExtensionSupported then Some (extension r)
    else nth_error (supportedExtensions CurrentEncoder) 0 in
  (if negb isExtensionSupported then
     assign (fun r =>
       emit r (ConsoleWarn
         ("canvas-record: unsupported extension for encoder " ++ quote
          ++ enc_name CurrentEncoder ++ quote ++ ". Defaulting to " ++ quote
          ++ show_opt ext ++ quote ++ ".")%string))
   else ret tt) ;;
  ret ext.

(** The constructor. *)
Definition select_encoder (opts : Options EncoderData EncoderOptions) : Enc :=
  match o_encoder opts with
  | Some e => e
  | None =>
      if String.eqb (o_extension opts) "gif" then new_GIFEncoder P opts
      else if includes ["png"; "jpg"]%string (o_extension opts)
      then new_FrameEncoder P opts
      else if isWebCodecsSupported P then new_WebCodecsEncoder P opts
      else new_H264MP4Encoder P opts
  end.

Definition new_Recorder (ctx : Context)
  (options : RecorderOptions EncoderData EncoderOptions) : Rec :=
  let opts := spread defaultOptions options in
  let r :=
    {| context := ctx; name := o_name opts; filename := o_filename opts;
       duration := o_duration opts; frameRate := o_frameRate opts;
       download := o_download opts; extension := o_extension opts;
       encoder := select_encoder opts;
       encoderOptions := o_encoderOptions opts; debug := o_debug opts;
       status := None; timing := None; startTime := None; trace := [] |} in
  fst (updateStatus Ready r).

(** [this.deltaTime = 1 / this.frameRate; this.time = 0; this.frame = 0;
     this.frameTotal = this.duration * this.frameRate;] *)
Definition initial_timing (r : Rec) : Timing :=
  {| deltaTime := num_div (num_of_Z 1) (frameRate r);
     time := num_of_Z 0;
     frame := 0;
     frameTotal := num_mul (duration r) (frameRate r) |}.

(** [this.time += this.deltaTime; this.frame++;] *)
Definition advance (t : Timing) : Timing :=
  {| deltaTime := deltaTime t;
     time := num_add (time t) (deltaTime t);
     frame := frame t + 1;
     frameTotal := frameTotal t |}.

(** [count] times [this.time += this.deltaTime], from 0. *)
Fixpoint accumulate (delta : number) (count : nat) : number :=
  match count with
  | O => num_of_Z 0
  | S k => num_add (accumulate delta k) delta
  end.

Definition init : M unit :=
  updateStatus Initializing ;;
  assign (fun r => with_timing r (Some (initial_timing r))) ;;
  ext <- getSupportedExtension ;;
  r <- this ;;
  call_encoder
    (EncoderInit
       {| cfg_encoderOptions := encoderOptions r;
          cfg_canvas := canvas (context r);
          cfg_width := get_width r;
          cfg_height := get_height r;
          cfg_frameRate := frameRate r;
          cfg_extension := ext;
          cfg_mimeType := get_property mimeTypes (show_opt ext);
          cfg_paramString := getParamString r;
          cfg_debug := debug r |})
    (encoder_init P
       {| cfg_encoderOptions := encoderOptions r;
          cfg_canvas := canvas (context r);
          cfg_width := get_width r;
          cfg_height := get_height r;
          cfg_frameRate := frameRate r;
          cfg_extension := ext;
          cfg_mimeType := get_property mimeTypes (show_opt ext);
          cfg_paramString := getParamString r;
          cfg_debug := debug r |}) ;;
  updateStatus Initialized.

(** The loop of the pixel path:
    [for (let i = 0; i < length; i += row)
       pixelsFlipped.set(pixels.subarray(i, i + row), end - i);]
    [None] when [fuel] iterations were not enough. *)
Fixpoint flip_loop (fuel : nat) (pixels pixelsFlipped : list byte)
  (row end_ length i : Z) : option (Completion (list byte)) :=
  match fuel with
  | O => None
  | S fuel' =>
      if i <? length then
        match typed_set pixelsFlipped (subarray pixels i (i + row))
                (end_ - i) with
        | Some flipped' =>
            flip_loop fuel' pixels flipped' row end_ length (i + row)
        | None => Some (Throw "RangeError: offset is out of bounds")
        end
      else Some (Normal pixelsFlipped)
  end.

Definition is_method (frameMethod : option string) (s : string) : bool :=
  match frameMethod with
  | Some m => String.eqb m s
  | None => false
  end.

(** The [imageData] case on a context that has a drawing buffer.  The loop
    is given [length + 1] rounds, more than it takes whenever [row] is
    positive; where it would not end (a [row] that is not positive) the
    completion is a throw. *)
Definition flipped_pixels (ctx : Context) (width height : Z)
  : Completion (list byte) :=
  let length := width * height * 4 in
  if length <? 0 then Throw "RangeError: Invalid typed array length"
  else
    let pixels := zeros length in
    let pixelsFlipped := zeros length in
    match readPixels P ctx 0 0 width height with
    | Throw e => Throw e
    | Normal data =>
        let pixels := written pixels data in
        let row := width * 4 in
        let end_ := (height - 1) * row in
        match flip_loop (S (Z.to_nat length)) pixels pixelsFlipped
                row end_ length 0 with
        | Some c => c
        | None => Throw "the loop does not terminate"
        end
    end.

Definition getFrame (method : option string) : M Frame :=
  r <- this ;;
  if is_method method "bitmap" then
    lift (map_completion ImageBitmap
            (createImageBitmap P (canvas (context r))))
  else if is_method method "videoFrame" then
    let timestamp :=
      match timing r with
      | Some t => num_mul (time t) (num_of_Z 1000000)
      | None => NaN
      end in
    lift (map_completion (fun h => VideoFrame h timestamp)
            (new_VideoFrame P (canvas (context r)) timestamp))
  else if is_method method "requestFrame" then ret NoFrame
  else if is_method method "imageData" then
    match drawingBuffer (context r) with
    | Some (width, height) =>
        if negb (width =? 0) then
          lift (map_completion Pixels (flipped_pixels (context r) width height))
        else
          lift (map_completion Pixels
                  (getImageData P (context r) 0 0
                     (nextMultiple P (get_width r) 2)
                     (nextMultiple P (get_height r) 2)))
    | None =>
        lift (map_completion Pixels
                (getImageData P (context r) 0 0
                   (nextMultiple P (get_width r) 2)
                   (nextMultiple P (get_height r) 2)))
    end
  else
    lift (map_completion Screenshot
            (canvasScreenshot P (canvas (context r))
               ("output." ++ show_opt (enc_extension (encoder r)))%string)).

(** [this.frame < this.frameTotal]; both are [undefined] before [init], and
    [undefined < undefined] is false. *)
Definition frame_lt_frameTotal (r : Rec) : bool :=
  match timing r with
  | Some t => num_lt (num_of_Z (frame t)) (frameTotal t)
  | None => false
  end.

Definition stop : M (option Artifact) :=
  r <- this ;;
  if negb (status_eqb (status r) Recording) then ret None
  else
    updateStatus Stopping ;;
    buffer <- call_encoder EncoderStop (encoder_stop P) ;;
    r <- this ;;
    (match buffer with
     | Some a =>
         if download r then
           assign (fun r =>
             emit r (DownloadBlob (filename r) (blobParts a)
                       (enc_mimeType (encoder r))))
         else ret tt
     | None => ret tt
     end) ;;
    updateStatus Stopped ;;
    ret buffer.

Definition step : M unit :=
  r <- this ;;
  if status_eqb (status r) Recording && frame_lt_frameTotal r then
    f <- getFrame (frameMethod (encoder r)) ;;
    r <- this ;;
    call_encoder
      (EncoderEncode f (match timing r with Some t => frame t | None => 0 end))
      (encoder_encode P f
         (match timing r with Some t => frame t | None => 0 end)) ;;
    assign (fun r => with_timing r (option_map advance (timing r)))
  else
    stop ;; ret tt.

Definition falsy_string (s : option string) : bool :=
  match s with
  | Some x => String.eqb x EmptyString
  | None => true
  end.

Definition start : M unit :=
  init ;;
  r <- this ;;
  if negb (status_eqb (status r) Initialized) then
    assign (fun r =>
      emit r (ConsoleDebug "canvas-record: recorder not initialized."))
  else
    assign (fun r => with_startTime r (Some (now P))) ;;
    r <- this ;;
    (if falsy_string (filename r) then
       file <- lift (getDefaultFileName r (enc_extension (encoder r))) ;;
       assign (fun r => with_filename r (Some file))
     else ret tt) ;;
    updateStatus Recording ;;
    step.

Definition dispose : M unit :=
  call_encoder EncoderDispose (encoder_dispose P).

(** ** Executions: what a caller does with one instance *)

Inductive Call : Type :=
| CallInit
| CallStart
| CallStep
| CallStop
| CallDispose
| SetWidth (value : Z)
| SetHeight (value : Z).

(** The object after one call, whether its promise resolved or rejected. *)
Definition perform (c : Call) (r : Rec) : Rec :=
  match c with
  | CallInit => fst (init r)
  | CallStart => fst (start r)
  | CallStep => fst (step r)
  | CallStop => fst (stop r)
  | CallDispose => fst (dispose r)
  | SetWidth v => set_width v r
  | SetHeight v => set_height v r
  end.

Definition execute (calls : list Call) (r : Rec) : Rec :=
  fold_left (fun r c => perform c r) calls r.

(** The status values the [onStatusChange] observer has received. *)
Fixpoint statuses (tr : list Ev) : list Status :=
  match tr with
  | [] => []
  | StatusChange s :: rest => s :: statuses rest
  | _ :: rest => statuses rest
  end.

Definition observed (r : Rec) : list Status := statuses (trace r).

(** The frame indices handed to [encoder.encode], in order. *)
Fixpoint encoded (tr : list Ev) : list Z :=
  match tr with
  | [] => []
  | EncoderEncode _ i :: rest => i :: encoded rest
  | _ :: rest => encoded rest
  end.

Fixpoint warnings (tr : list Ev) : list string :=
  match tr with
  | [] => []
  | ConsoleWarn m :: rest => m :: warnings rest
  | _ :: rest => warnings rest
  end.

(** The calls that run [init]. *)
Definition runs_init (c : Call) : bool :=
  match c with
  | CallInit | CallStart => true
  | _ => false
  end.

Definition init_calls (calls : list Call) : nat :=
  List.length (filter runs_init calls).

(** How the promise of a call settles. *)
Definition outcome (c : Call) (r : Rec) : Completion unit :=
  match c with
  | CallInit => snd (init r)
  | CallStart => snd (start r)
  | CallStep => snd (step r)
  | CallStop => map_completion (fun _ => tt) (snd (stop r))
  | CallDispose => snd (dispose r)
  | SetWidth _ | SetHeight _ => Normal tt
  end.

(** Every call of the sequence resolves: nothing throws. *)
Fixpoint resolves (calls : list Call) (r : Rec) : Prop :=
  match calls with
  | [] => True
  | c :: rest => outcome c r = Normal tt /\ resolves rest (perform c r)
  end.

(** A session that has no last frame and has not begun to stop. *)
Definition open_ended (r : Rec) : Prop :=
  match timing r with
  | Some t => frameTotal t = PosInf
  | None => status r <> Recording
  end
  /\ ~ In Stopping (observed r)
  /\ status r <> Stopping /\ status r <> Stopped.

(** The timing members agree with the settings, [frame] counts the encoded
    frames and has not passed [frameTotal] by a whole frame, and [time] is
    [deltaTime] added once per counted frame. *)
Definition timing_consistent (r : Rec) (t : Timing) : Prop :=
  frameTotal t = num_mul (duration r) (frameRate r)
  /\ deltaTime t = num_div (num_of_Z 1) (frameRate r)
  /\ (0 <= frame t)%Z
  /\ num_lt (num_of_Z (frame t - 1)) (frameTotal t) = true
  /\ time t = accumulate (deltaTime t) (Z.to_nat (frame t)).

(** The frames counted and the time accumulated since [init]. *)
Definition counted (r : Rec) (t : Timing) : Prop :=
  deltaTime t = num_div (num_of_Z 1) (frameRate r)
  /\ (0 <= frame t)%Z
  /\ time t = accumulate (deltaTime t) (Z.to_nat (frame t)).

(** The members no method assigns after construction. *)
Definition same_settings (r r' : Rec) : Prop :=
  duration r' = duration r /\ frameRate r' = frameRate r
  /\ context r' = context r /\ extension r' = extension r.

(** The session has delivered the first [k] statuses of the lifecycle and is
    in the last of them. *)
Definition in_phase (k : nat) (r : Rec) : Prop :=
  observed r = firstn k lifecycle /\ status r = nth (k - 1) lifecycle None.

End Methods.

(** [l] is a subsequence of [m]: [l] is [m] with some elements left out. *)
Fixpoint subsequence (l m : list Status) : bool :=
  match l, m with
  | [], _ => true
  | _ :: _, [] => false
  | x :: l', y :: m' =>
      if status_eqb x y then subsequence l' m' else subsequence l m'
  end.

(** ** A concrete platform

    An encoder that accepts everything and returns one empty buffer, in a
    browser where every call succeeds.  Used to run the class on concrete
    inputs. *)

Definition plain_encoder (nm : string) (exts : list string)
  (method : option string) : Encoder unit :=
  {| enc_name := nm; supportedExtensions := exts; frameMethod := method;
     enc_extension := None; enc_mimeType := None;
     enc_width := None; enc_height := None; enc_data := tt |}.

Definition plain_platform (pixels : list byte) : Platform unit unit :=
  {| isWebCodecsSupported := true;
     nextMultiple := fun x m => ((x + m - 1) / m) * m;
     formatDate := fun _ => "2024-01-01-00-00-00"%string;
     formatDate_undefined := Throw "TypeError: date is undefined";
     number_toString := fun _ => "n"%string;
     now := 0;
     new_GIFEncoder := fun _ =>
       plain_encoder "GIFEncoder" ["gif"%string] (Some "imageData"%string);
     new_FrameEncoder := fun _ =>
       plain_encoder "FrameEncoder" ["png"; "jpg"]%string None;
     new_WebCodecsEncoder := fun _ =>
       plain_encoder "WebCodecsEncoder" ["mp4"; "webm"; "mkv"]%string
         (Some "videoFrame"%string);
     new_H264MP4Encoder := fun _ =>
       plain_encoder "H264MP4Encoder" ["mp4"%string]
         (Some "imageData"%string);
     encoder_init := fun _ e => (e, Normal tt);
     encoder_encode := fun _ _ e => (e, Normal tt);
     encoder_stop := fun e => (e, Normal (Some (Buffer [])));
     encoder_dispose := fun e => (e, Normal tt);
     createImageBitmap := fun _ => Normal 0;
     new_VideoFrame := fun _ _ => Normal 0;
     readPixels := fun _ _ _ _ _ => Normal pixels;
     getImageData := fun _ _ _ _ _ => Normal pixels;
     canvasScreenshot := fun _ _ => Normal 0 |}.

Definition no_options : RecorderOptions unit unit :=
  {| opt_name := None; opt_filename := None; opt_duration := None;
     opt_frameRate := None; opt_download := None; opt_extension := None;
     opt_encoder := None; opt_encoderOptions := None; opt_debug := None |}.

Definition timed_options (d fr : number) : RecorderOptions unit unit :=
  {| opt_name := None; opt_filename := None; opt_duration := Some d;
     opt_frameRate := Some fr; opt_download := None; opt_extension := None;
     opt_encoder := None; opt_encoderOptions := None; opt_debug := None |}.

Definition canvas2d (w h : Z) : Context :=
  {| canvas := {| canvas_width := w; canvas_height := h |};
     drawingBuffer := None |}.

Definition webgl (w h : Z) : Context :=
  {| canvas := {| canvas_width := w; canvas_height := h |};
     drawingBuffer := Some (w, h) |}.

Definition browser : Platform unit unit := plain_platform [].

(** A recorder with the default options on a 2D canvas of 300 by 150. *)
Definition default_recorder : Recorder unit unit :=
  new_Recorder browser (canvas2d 300 150) no_options.

(** Half a second at 3 frames per second: one frame and a half. *)
Definition short_recorder : Recorder unit unit :=
  new_Recorder browser (canvas2d 300 150)
    (timed_options (Fin (1 # 2)) (num_of_Z 3)).

(** A tenth of a second at 25 frames per second: two frames and a half. *)
Definition tenth_recorder : Recorder unit unit :=
  new_Recorder browser (canvas2d 300 150)
    (timed_options (literal (1 # 10)) (num_of_Z 25)).

(** 0.28 seconds at 25 frames per second: the product of the two doubles
    is 7.000000000000001. *)
Definition clip_recorder : Recorder unit unit :=
  new_Recorder browser (canvas2d 300 150)
    (timed_options (literal (28 # 100)) (num_of_Z 25)).

(** Ten seconds at 10 frames per second. *)
Definition ten_second_recorder : Recorder unit unit :=
  new_Recorder browser (canvas2d 300 150)
    (timed_options (num_of_Z 10) (num_of_Z 10)).

(** One second at 10 frames per second. *)
Definition second_recorder : Recorder unit unit :=
  new_Recorder browser (canvas2d 300 150)
    (timed_options (num_of_Z 1) (num_of_Z 10)).

Definition endless_recorder : Recorder unit unit :=
  new_Recorder browser (canvas2d 300 150)
    (timed_options PosInf (num_of_Z 30)).

(** No end and a frame rate of 0: the frame total is [Infinity * 0]. *)
Definition still_recorder : Recorder unit unit :=
  new_Recorder browser (canvas2d 300 150)
    (timed_options PosInf (num_of_Z 0)).

(** The example of the specification: [mov] requested from an encoder that
    supports [mp4] and [webm]. *)
Definition mov_options : RecorderOptions unit unit :=
  {| opt_name := None; opt_filename := None; opt_duration := None;
     opt_frameRate := None; opt_download := None;
     opt_extension := Some "mov"%string;
     opt_encoder :=
       Some (plain_encoder "Muxer" ["mp4"; "webm"]%string None);
     opt_encoderOptions := None; opt_debug := None |}.

Definition mov_recorder : Recorder unit unit :=
  new_Recorder browser (canvas2d 300 150) mov_options.

Definition gif_options : RecorderOptions unit unit :=
  {| opt_name := None; opt_filename := None; opt_duration := None;
     opt_frameRate := None; opt_download := None;
     opt_extension := Some "gif"%string;
     opt_encoder := None; opt_encoderOptions := None; opt_debug := None |}.

(** A drawing buffer one pixel wide and two pixels high, bottom row first. *)
Definition two_rows : list byte :=
  [x01; x02; x03; x04; x05; x06; x07; x08].

Definition gl_recorder : Recorder unit unit :=
  fst (start (plain_platform two_rows)
         (new_Recorder (plain_platform two_rows) (webgl 1 2) gif_options)).

(** ** Reading a trace *)

Section Traces.

Context {EncoderData EncoderOptions : Type}.
Variable P : Platform EncoderData EncoderOptions.

Local Abbreviation Rec := (Recorder EncoderData EncoderOptions).
Local Abbreviation Ev := (Event EncoderOptions).

Definition is_encoder_init (e : Ev) : bool :=
  match e with EncoderInit _ => true | _ => false end.

Definition is_encoder_encode (e : Ev) : bool :=
  match e with EncoderEncode _ _ => true | _ => false end.

Definition is_encoder_stop (e : Ev) : bool :=
  match e with EncoderStop => true | _ => false end.

Definition is_download (e : Ev) : bool :=
  match e with DownloadBlob _ _ _ => true | _ => false end.

(** How many events of a kind a trace holds. *)
Definition tally (kind : Ev -> bool) (tr : list Ev) : nat :=
  List.length (filter kind tr).

(** The frames handed to [encoder.encode], in order. *)
Fixpoint frames (tr : list Ev) : list Frame :=
  match tr with
  | [] => []
  | EncoderEncode f _ :: rest => f :: frames rest
  | _ :: rest => frames rest
  end.

(** The extension [getSupportedExtension] returns. *)
Definition resolved_extension (r : Rec) : option string :=
  if includes (supportedExtensions (encoder r)) (extension r)
  then Some (extension r)
  else nth_error (supportedExtensions (encoder r)) 0.

(** What [getSupportedExtension] writes to the console. *)
Definition extension_warning (r : Rec) : list Ev :=
  if includes (supportedExtensions (encoder r)) (extension r) then []
  else
    [ConsoleWarn
       ("canvas-record: unsupported extension for encoder " ++ quote
        ++ enc_name (encoder r) ++ quote ++ ". Defaulting to " ++ quote
        ++ show_opt (resolved_extension r) ++ quote ++ ".")%string].

(** The object [init] passes to [encoder.init]. *)
Definition init_config (r : Rec) : EncoderConfig EncoderOptions :=
  {| cfg_encoderOptions := encoderOptions r;
     cfg_canvas := canvas (context r);
     cfg_width := get_width r;
     cfg_height := get_height r;
     cfg_frameRate := frameRate r;
     cfg_extension := resolved_extension r;
     cfg_mimeType := get_property mimeTypes (show_opt (resolved_extension r));
     cfg_paramString := getParamString P r;
     cfg_debug := debug r |}.

(** The download [stop] triggers for what the encoder returned. *)
Definition download_of (r : Rec) (mime : option string)
  (buffer : option Artifact) : list Ev :=
  match buffer with
  | Some a =>
      if download r then [DownloadBlob (filename r) (blobParts a) mime]
      else []
  | None => []
  end.

(** The indices [first], [first + 1], ... of [count] frames. *)
Definition indices (first : Z) (count : nat) : list Z :=
  map (fun i => first + Z.of_nat i) (seq 0 count).

Definition is_encoder_dispose (e : Ev) : bool :=
  match e with EncoderDispose => true | _ => false end.

Definition is_status (s : Status) (e : Ev) : bool :=
  match e with StatusChange x => status_eqb x s | _ => false end.

(** The events one call can append to the trace, by method.  [dl] is the
    object's [download] member. *)
Inductive stop_events (dl : bool) : list Ev -> Prop :=
| stop_failed :
    stop_events dl [StatusChange Stopping; EncoderStop]
| stop_done (name : option string) (mime : option string)
    (buffer : option Artifact) :
    stop_events dl
      (StatusChange Stopping :: EncoderStop
       :: match buffer with
          | Some a =>
              if dl then [DownloadBlob name (blobParts a) mime] else []
          | None => []
          end
       ++ [StatusChange Stopped]).

Inductive step_events (dl : bool) : list Ev -> Prop :=
| step_nothing : step_events dl []
| step_encoded (f : Frame) (i : Z) : step_events dl [EncoderEncode f i]
| step_stopped (d : list Ev) : stop_events dl d -> step_events dl d.

Inductive init_events (r : Rec) : list Ev -> Prop :=
| init_failed :
    init_events r
      (StatusChange Initializing :: extension_warning r
       ++ [EncoderInit (init_config r)])
| init_done :
    init_events r
      (StatusChange Initializing :: extension_warning r
       ++ [EncoderInit (init_config r); StatusChange Initialized]).

Inductive call_events (r : Rec) : Call -> list Ev -> Prop :=
| events_init (d : list Ev) :
    init_events r d -> call_events r CallInit d
| events_start_failed :
    call_events r CallStart
      (StatusChange Initializing :: extension_warning r
       ++ [EncoderInit (init_config r)])
| events_start (d : list Ev) :
    step_events (download r) d ->
    call_events r CallStart
      ((StatusChange Initializing :: extension_warning r
        ++ [EncoderInit (init_config r); StatusChange Initialized])
       ++ StatusChange Recording :: d)
| events_step (d : list Ev) :
    step_events (download r) d -> call_events r CallStep d
| events_stop_nothing : call_events r CallStop []
| events_stop (d : list Ev) :
    stop_events (download r) d -> call_events r CallStop d
| events_dispose : call_events r CallDispose [EncoderDispose]
| events_set_width (v : Z) : call_events r (SetWidth v) []
| events_set_height (v : Z) : call_events r (SetHeight v) [].

(** ** [get stats()] *)

Definition num_sub (a b : number) : number := num_add a (num_neg b).

Definition newline : string := String "010"%char EmptyString.

(** What [stats] takes from outside the class: the clock, [toFixed] and
    [formatSeconds] of [utils.js]. *)
Record StatsEnv : Type := {
  date_now : Z;
  toFixed : number -> Z -> string;
  formatSeconds : number -> string
}.

Record Stats : Type := {
  renderTime : number;
  secondsPerFrame : number;
  detail : string
}.

(** [secondsPerFrame * this.frameTotal - renderTime] *)
Definition remaining_time (render perFrame total : number) : number :=
  num_sub (num_mul perFrame total) render.

(** Reading [startTime.getTime()] or [time.toFixed] on [undefined] is a
    TypeError. *)
Definition get_stats (env : StatsEnv) (r : Rec) : Completion Stats :=
  match startTime r with
  | None => Throw "TypeError: this.startTime is undefined"
  | Some started =>
      let render :=
        num_div (num_of_Z (date_now env - started)) (num_of_Z 1000) in
      match timing r with
      | None => Throw "TypeError: this.time is undefined"
      | Some t =>
          let perFrame := num_div render (num_of_Z (frame t)) in
          Normal
            {| renderTime := render;
               secondsPerFrame := perFrame;
               detail :=
                 ("Time: " ++ toFixed env (time t) 2 ++ " / "
                  ++ toFixed env (duration r) 2 ++ newline
                  ++ "Frame: " ++ number_toString P (num_of_Z (frame t))
                  ++ " / " ++ number_toString P (frameTotal t) ++ newline
                  ++ "Elapsed Time: " ++ formatSeconds env render ++ newline
                  ++ "Remaining Time: "
                  ++ formatSeconds env
                       (remaining_time render perFrame (frameTotal t))
                  ++ newline
                  ++ "Speedup: x"
                  ++ toFixed env (num_div (time t) render) 1)%string |}
      end
  end.

(** ** [Recorder.downloadBlob] and the shared link element *)

Record Anchor : Type := {
  anchor_download : option string;
  anchor_href : option nat
}.

(** What the page sees; an object URL is known by the number of the blob
    it was created for. *)
Inductive PageEvent : Type :=
| CreateElement (tag : string)
| CreateObjectURL (parts : list (list byte)) (mimeType : option string)
    (url : nat)
| Click (download : option string) (href : option nat)
| RevokeLater (url : nat) (delay : Z).

(** The module variable [link] and the page. *)
Record Page : Type := {
  link : option Anchor;
  urls : nat;
  page_events : list PageEvent
}.

Definition fresh_page : Page :=
  {| link := None; urls := O; page_events := [] |}.

Definition downloadBlob (name : option string) (blobPart : list (list byte))
  (mimeType : option string) (pg : Page) : Page :=
  (* link ||= document.createElement("a") *)
  let created :=
    match link pg with
    | Some _ => []
    | None => [CreateElement "a"]
    end in
  let url := urls pg in
  (* link.download = filename; link.href = url *)
  let anchor := {| anchor_download := name; anchor_href := Some url |} in
  {| link := Some anchor;
     urls := S (urls pg);
     page_events :=
       page_events pg ++ created
       ++ [CreateObjectURL blobPart mimeType url;
           Click (anchor_download anchor) (anchor_href anchor);
           RevokeLater url 1] |}.

(** The page after the downloads of a trace. *)
Definition page_after (tr : list Ev) (pg : Page) : Page :=
  fold_left
    (fun pg e =>
       match e with
       | DownloadBlob name parts mime => downloadBlob name parts mime pg
       | _ => pg
       end)
    tr pg.

(** The first call into the encoder, [dispose] apart, is [init]. *)
Fixpoint starts_with_init (tr : list Ev) : bool :=
  match tr with
  | [] => true
  | EncoderInit _ :: _ => true
  | EncoderEncode _ _ :: _ => false
  | EncoderStop :: _ => false
  | _ :: rest => starts_with_init rest
  end.

Definition is_create_element (e : PageEvent) : bool :=
  match e with CreateElement _ => true | _ => false end.

Definition is_click (e : PageEvent) : bool :=
  match e with Click _ _ => true | _ => false end.

Fixpoint created_urls (es : list PageEvent) : list nat :=
  match es with
  | [] => []
  | CreateObjectURL _ _ u :: rest => u :: created_urls rest
  | _ :: rest => created_urls rest
  end.

Fixpoint revoked_urls (es : list PageEvent) : list nat :=
  match es with
  | [] => []
  | RevokeLater u _ :: rest => u :: revoked_urls rest
  | _ :: rest => revoked_urls rest
  end.

Definition count_page (kind : PageEvent -> bool) (es : list PageEvent)
  : nat :=
  List.length (filter kind es).

End Traces.

(** ** More concrete inputs *)

(** An encoder whose [init], [encode] or [stop] throws. *)
Definition faulty_platform (init_fails encode_fails stop_fails : bool)
  : Platform unit unit :=
  {| isWebCodecsSupported := true;
     nextMultiple := fun x m => ((x + m - 1) / m) * m;
     formatDate := fun _ => "2024-01-01-00-00-00"%string;
     formatDate_undefined := Throw "TypeError: date is undefined";
     number_toString := fun _ => "n"%string;
     now := 0;
     new_GIFEncoder := fun _ =>
       plain_encoder "GIFEncoder" ["gif"%string] (Some "imageData"%string);
     new_FrameEncoder := fun _ =>
       plain_encoder "FrameEncoder" ["png"; "jpg"]%string None;
     new_WebCodecsEncoder := fun _ =>
       plain_encoder "WebCodecsEncoder" ["mp4"; "webm"; "mkv"]%string
         (Some "videoFrame"%string);
     new_H264MP4Encoder := fun _ =>
       plain_encoder "H264MP4Encoder" ["mp4"%string]
         (Some "imageData"%string);
     encoder_init := fun _ e =>
       (e, if init_fails then Throw "EncoderInitError" else Normal tt);
     encoder_encode := fun _ _ e =>
       (e, if encode_fails then Throw "EncodeError" else Normal tt);
     encoder_stop := fun e =>
       (e, if stop_fails then Throw "flush failed"
           else Normal (Some (Buffer [])));
     encoder_dispose := fun e => (e, Normal tt);
     createImageBitmap := fun _ => Normal 0;
     new_VideoFrame := fun _ _ => Normal 0;
     readPixels := fun _ _ _ _ _ => Normal [];
     getImageData := fun _ _ _ _ _ => Normal [];
     canvasScreenshot := fun _ _ => Normal 0 |}.

Definition encode_faulty : Platform unit unit :=
  faulty_platform false true false.

(** A session whose first frame was rejected by the encoder. *)
Definition encode_faulty_recorder : Recorder unit unit :=
  fst (start encode_faulty
         (new_Recorder encode_faulty (canvas2d 300 150) no_options)).

Definition init_faulty : Platform unit unit :=
  faulty_platform true false false.

Definition init_faulty_recorder : Recorder unit unit :=
  new_Recorder init_faulty (canvas2d 300 150) no_options.

Definition stop_faulty : Platform unit unit :=
  faulty_platform false false true.

Definition stop_faulty_recorder : Recorder unit unit :=
  fst (start stop_faulty
         (new_Recorder stop_faulty (canvas2d 300 150) no_options)).

(** The default recorder after [start()]: one frame encoded. *)
Definition started_recorder : Recorder unit unit :=
  fst (start browser default_recorder).

Definition quiet_options : RecorderOptions unit unit :=
  {| opt_name := None; opt_filename := None; opt_duration := None;
     opt_frameRate := None; opt_download := Some false;
     opt_extension := None; opt_encoder := None;
     opt_encoderOptions := None; opt_debug := None |}.

Definition named_options : RecorderOptions unit unit :=
  {| opt_name := Some "clip"%string; opt_filename := None;
     opt_duration := None; opt_frameRate := None; opt_download := None;
     opt_extension := None; opt_encoder := None;
     opt_encoderOptions := None; opt_debug := None |}.

Definition titled_options : RecorderOptions unit unit :=
  {| opt_name := None; opt_filename := Some "take-1.mp4"%string;
     opt_duration := None; opt_frameRate := None; opt_download := None;
     opt_extension := None; opt_encoder := None;
     opt_encoderOptions := None; opt_debug := None |}.

Definition two_rows_flipped_bytes : list byte :=
  [x05; x06; x07; x08; x01; x02; x03; x04].

(** An encoder that lists a member of [Object.prototype] as its
    extension. *)
Definition odd_options : RecorderOptions unit unit :=
  {| opt_name := None; opt_filename := None; opt_duration := None;
     opt_frameRate := None; opt_download := None;
     opt_extension := Some "constructor"%string;
     opt_encoder :=
       Some (plain_encoder "Odd" ["constructor"%string] None);
     opt_encoderOptions := None; opt_debug := None |}.

Definition odd_recorder : Recorder unit unit :=
  new_Recorder browser (canvas2d 300 150) odd_options.

Definition named_recorder : Recorder unit unit :=
  fst (start browser
         (new_Recorder browser (canvas2d 300 150) named_options)).

Definition plain_stats : StatsEnv :=
  {| date_now := 2000;
     toFixed := fun _ _ => "n"%string;
     formatSeconds := fun _ => "s"%string |}.

(** * Properties *)

Lemma status_eqb_spec (a b : Status) : reflect (a = b) (status_eqb a b).
Proof.
  destruct a as [x|], b as [y|]; simpl; try (constructor; congruence).
  destruct (Z.eqb_spec x y); constructor; congruence.
Qed.

(** ** Numbers *)

Lemma Qlt_bool_iff (a b : Q) : Qlt_bool a b = true <-> (a < b)%Q.
Proof.
  unfold Qlt_bool. rewrite negb_true_iff.
  destruct (Qle_bool b a) eqn:E.
  - apply Qle_bool_iff in E. split; [discriminate|].
    intros H. exfalso. exact (Qlt_not_le _ _ H E).
  - split; [|reflexivity]. intros _.
    apply Qnot_le_lt. intros H. apply Qle_bool_iff in H. congruence.
Qed.

Lemma Qlt_bool_false_iff (a b : Q) : Qlt_bool a b = false <-> (b <= a)%Q.
Proof.
  unfold Qlt_bool. rewrite negb_false_iff. apply Qle_bool_iff.
Qed.

Lemma Qeq_bool_pos (x : Q) : (0 < x)%Q -> Qeq_bool x 0 = false.
Proof.
  intros H. destruct (Qeq_bool x 0) eqn:E; [|reflexivity].
  apply Qeq_bool_iff in E. rewrite E in H. now apply Qlt_irrefl in H.
Qed.

Lemma pow2_pos (e : Z) : (0 < pow2 e)%Q.
Proof.
  unfold pow2. destruct (Z.leb_spec 0 e).
  - change 0%Q with (inject_Z 0). rewrite <- Zlt_Qlt.
    now apply Z.pow_pos_nonneg.
  - apply Qinv_lt_0_compat. change 0%Q with (inject_Z 0). rewrite <- Zlt_Qlt.
    apply Z.pow_pos_nonneg; lia.
Qed.

Lemma round_half_even_nonneg (x : Q) : (0 <= x)%Q -> 0 <= round_half_even x.
Proof.
  intros H. unfold round_half_even.
  assert (Hf : 0 <= Qfloor x).
  { change 0 with (Qfloor 0). now apply Qfloor_resp_le. }
  destruct (_ ?= _)%Q; [destruct (Z.even _)| |]; lia.
Qed.

(** Rounding keeps a value that is not negative on that side of zero. *)
Lemma double_nonneg (q : Q) :
  (0 <= q)%Q ->
  double q = PosInf \/ exists v, double q = Fin v /\ (0 <= v)%Q.
Proof.
  intros H. unfold double.
  destruct (Qeq_bool q 0).
  - right. exists 0%Q. split; [reflexivity | apply Qle_refl].
  - assert (Hs : Qlt_bool q 0 = false).
    { unfold Qlt_bool. apply negb_false_iff. now apply Qle_bool_iff. }
    rewrite Hs. cbv zeta.
    destruct (Qle_bool _ _); [now left|]. right.
    eexists. split; [reflexivity|]. rewrite Qred_correct.
    apply Qmult_le_0_compat.
    + change 0%Q with (inject_Z 0). rewrite <- Zle_Qle.
      apply round_half_even_nonneg.
      apply Qle_shift_div_l; [apply pow2_pos|].
      rewrite Qmult_0_l. apply Qabs_nonneg.
    + apply Qlt_le_weak, pow2_pos.
Qed.

Lemma pow2_Qpower (e : Z) : (pow2 e == 2 ^ e)%Q.
Proof.
  unfold pow2. destruct (Z.leb_spec 0 e) as [H|H].
  - now rewrite Zpower_Qpower.
  - rewrite Zpower_Qpower by lia. rewrite Qpower_opp, Qinv_involutive.
    reflexivity.
Qed.

Lemma pow2_add (a b : Z) : (pow2 (a + b) == pow2 a * pow2 b)%Q.
Proof. rewrite !pow2_Qpower. now apply Qpower_plus. Qed.

Lemma pow2_whole (e : Z) : 0 <= e -> pow2 e = inject_Z (2 ^ e).
Proof. intros H. unfold pow2. destruct (Z.leb_spec 0 e); [reflexivity|lia]. Qed.

Lemma pow2_sub (a b : Z) : (pow2 (a - b) == pow2 a / pow2 b)%Q.
Proof.
  assert (H : (pow2 a == pow2 (a - b) * pow2 b)%Q).
  { rewrite <- pow2_add. now replace (a - b + b) with a by lia. }
  rewrite H. field. intros E. pose proof (pow2_pos b) as Hp.
  rewrite E in Hp. now apply Qlt_irrefl in Hp.
Qed.

(** [binade] is the exponent of the power of two at or below [a]. *)
Lemma binade_spec (a : Q) :
  (0 < a)%Q -> (pow2 (binade a) <= a)%Q /\ (a < pow2 (binade a + 1))%Q.
Proof.
  intros Ha. destruct a as [p d].
  assert (Hp : 0 < p).
  { unfold Qlt in Ha. cbn in Ha. lia. }
  unfold binade. cbv zeta. cbn [Qnum Qden].
  set (A := Z.log2 p). set (B := Z.log2 (Z.pos d)).
  pose proof (Z.log2_spec p Hp) as (HA1 & HA2). fold A in HA1, HA2.
  pose proof (Z.log2_spec (Z.pos d) eq_refl) as (HB1 & HB2).
  fold B in HB1, HB2.
  assert (HA0 : 0 <= A) by apply Z.log2_nonneg.
  assert (HB0 : 0 <= B) by apply Z.log2_nonneg.
  assert (Hup : (p # d < pow2 (A - B + 1))%Q).
  { replace (A - B + 1) with (Z.succ A - B) by lia.
    rewrite pow2_sub, !pow2_whole by lia.
    apply Qlt_shift_div_l.
    - change 0%Q with (inject_Z 0). rewrite <- Zlt_Qlt. lia.
    - unfold Qlt, Qmult, inject_Z. cbn [Qnum Qden].
      rewrite !Z.mul_1_r, Pos.mul_1_r. nia. }
  assert (Hlow : (pow2 (A - B - 1) <= p # d)%Q).
  { replace (A - B - 1) with (A - Z.succ B) by lia.
    rewrite pow2_sub, !pow2_whole by lia.
    apply Qle_shift_div_r.
    - change 0%Q with (inject_Z 0). rewrite <- Zlt_Qlt. lia.
    - unfold Qle, Qmult, inject_Z. cbn [Qnum Qden].
      rewrite !Z.mul_1_r, Pos.mul_1_r. nia. }
  destruct (Qle_bool (pow2 (A - B)) (p # d)) eqn:E.
  - apply Qle_bool_iff in E. split; assumption.
  - split; [exact Hlow|].
    replace (A - B - 1 + 1) with (A - B) by lia.
    apply Qnot_le_lt. intros H. apply Qle_bool_iff in H. congruence.
Qed.

(** On a tie the even neighbour is taken. *)
Lemma round_half_even_tie (x : Q) :
  (x - inject_Z (Qfloor x) == 1 # 2)%Q -> Z.even (round_half_even x) = true.
Proof.
  intros H. unfold round_half_even. apply Qeq_alt in H. rewrite H.
  destruct (Z.even (Qfloor x)) eqn:E; [exact E|].
  rewrite Z.even_add, E. reflexivity.
Qed.

Lemma round_half_even_near (x : Q) :
  (Qabs (inject_Z (round_half_even x) - x) <= 1 # 2)%Q.
Proof.
  unfold round_half_even.
  pose proof (Qfloor_le x) as Hl. pose proof (Qlt_floor x) as Hu.
  rewrite inject_Z_plus in Hu. change (inject_Z 1) with 1%Q in Hu.
  set (f := inject_Z (Qfloor x)) in *.
  assert (Hdown : (x - f <= 1 # 2)%Q -> (Qabs (f - x) <= 1 # 2)%Q).
  { intros H. apply Qabs_Qle_condition. split; lra. }
  assert (Hup : (1 # 2 <= x - f)%Q -> (Qabs (f + 1 - x) <= 1 # 2)%Q).
  { intros H. apply Qabs_Qle_condition. split; lra. }
  destruct (Qcompare_spec (x - f) (1 # 2)) as [E|E|E].
  - destruct (Z.even _).
    + apply Hdown. lra.
    + rewrite inject_Z_plus. apply Hup. lra.
  - apply Hdown. lra.
  - rewrite inject_Z_plus. apply Hup. lra.
Qed.

Lemma pow2_le (a b : Z) : a <= b -> (pow2 a <= pow2 b)%Q.
Proof.
  intros H. replace b with (a + (b - a)) by lia. rewrite pow2_add.
  rewrite (pow2_whole (b - a)) by lia.
  assert (H1 : (1 <= inject_Z (2 ^ (b - a)))%Q).
  { change 1%Q with (inject_Z 1). rewrite <- Zle_Qle.
    assert (0 < 2 ^ (b - a)) by (apply Z.pow_pos_nonneg; lia). lia. }
  pose proof (pow2_pos a) as Hp. nra.
Qed.

Lemma round_half_even_below (x : Q) (n : Z) :
  (x < inject_Z n)%Q -> round_half_even x <= n.
Proof.
  intros H. unfold round_half_even.
  assert (Hf : Qfloor x < n).
  { rewrite Zlt_Qlt.
    apply Qle_lt_trans with (y := x); [apply Qfloor_le | exact H]. }
  destruct (_ ?= _)%Q; [destruct (Z.even _)| |]; lia.
Qed.

(** The magnitude of the rounded value: a whole multiple [m * 2^e] of the
    unit in the last place, with [m] of at most 53 bits (or [2^53], the next
    power of two), within half a unit of the magnitude rounded. *)
Lemma rounded_magnitude (a : Q) :
  (0 < a)%Q ->
  let e := Z.max (binade a - 52) (-1074) in
  let m := round_half_even (a / pow2 e) in
  0 <= m <= 2 ^ 53
  /\ (Qabs (inject_Z m * pow2 e - a) <= pow2 e * (1 # 2))%Q.
Proof.
  intros Ha e m.
  pose proof (pow2_pos e) as He.
  assert (Hne : ~ (pow2 e == 0)%Q) by lra.
  split; [split|].
  - apply round_half_even_nonneg. apply Qle_shift_div_l; [exact He|]. lra.
  - apply round_half_even_below. apply Qlt_shift_div_r; [exact He|].
    destruct (binade_spec a Ha) as (_ & Hu).
    apply Qlt_le_trans with (y := pow2 (binade a + 1)); [exact Hu|].
    apply Qle_trans with (y := pow2 (53 + e)).
    + apply pow2_le. unfold e. lia.
    + rewrite pow2_add. rewrite (pow2_whole 53) by lia. apply Qle_refl.
  - pose proof (round_half_even_near (a / pow2 e)) as Hn. fold m in Hn.
    apply Qabs_Qle_condition in Hn. destruct Hn as (H1 & H2).
    assert (Hx : (a == a / pow2 e * pow2 e)%Q) by (field; exact Hne).
    set (x := (a / pow2 e)%Q) in *.
    apply Qabs_Qle_condition. rewrite Hx. split; nra.
Qed.

(** [double q] is [q] rounded to a nearest double: a whole multiple of the
    unit in the last place with a significand of at most 53 bits, within
    half a unit of [q]; it is an infinity only when [q] is within half a
    unit of [2^1024] or beyond. *)
Lemma double_near (q : Q) :
  ~ (q == 0)%Q ->
  let e := Z.max (binade (Qabs q) - 52) (-1074) in
  match double q with
  | Fin v =>
      (Qabs (v - q) <= pow2 e * (1 # 2))%Q
      /\ exists m : Z, (v == inject_Z m * pow2 e)%Q /\ Z.abs m <= 2 ^ 53
  | PosInf => (0 < q)%Q /\ (pow2 1024 <= q + pow2 e * (1 # 2))%Q
  | NegInf => (q < 0)%Q /\ (pow2 1024 <= - q + pow2 e * (1 # 2))%Q
  | NaN => False
  end.
Proof.
  intros Hq e. unfold double.
  assert (Hz : Qeq_bool q 0 = false).
  { destruct (Qeq_bool q 0) eqn:E; [|reflexivity].
    apply Qeq_bool_iff in E. contradiction. }
  rewrite Hz. cbv zeta. fold e.
  assert (Ha : (0 < Qabs q)%Q).
  { pose proof (Qabs_nonneg q) as H0.
    destruct (Qlt_le_dec 0 (Qabs q)) as [H|H]; [exact H|].
    exfalso. apply Hq.
    apply Qabs_Qle_condition in H. lra. }
  destruct (rounded_magnitude (Qabs q) Ha) as ((Hm0 & Hm1) & Hnear).
  fold e in Hm0, Hm1, Hnear.
  set (m := round_half_even (Qabs q / pow2 e)) in *.
  apply Qabs_Qle_condition in Hnear. destruct Hnear as (Hn1 & Hn2).
  destruct (Qlt_bool q 0) eqn:Hs.
  - apply Qlt_bool_iff in Hs.
    assert (Eabs : (Qabs q == - q)%Q) by (apply Qabs_neg; lra).
    destruct (Qle_bool (pow2 1024) _) eqn:Ho.
    + apply Qle_bool_iff in Ho. split; [exact Hs|]. lra.
    + split.
      * rewrite Qred_correct. apply Qabs_Qle_condition. split; lra.
      * exists (- m). split; [|lia].
        rewrite Qred_correct, inject_Z_opp. ring.
  - apply Qlt_bool_false_iff in Hs.
    assert (Eabs : (Qabs q == q)%Q) by (apply Qabs_pos; exact Hs).
    destruct (Qle_bool (pow2 1024) _) eqn:Ho.
    + apply Qle_bool_iff in Ho. split; [|lra].
      destruct (Qlt_le_dec 0 q); [assumption|]. exfalso. apply Hq. lra.
    + split.
      * rewrite Qred_correct. apply Qabs_Qle_condition. split; lra.
      * exists m. split; [|lia]. now rewrite Qred_correct.
Qed.

(** Above the subnormal range a positive value stays positive. *)
Lemma double_pos (q : Q) :
  (pow2 (-1022) <= q)%Q ->
  double q = PosInf \/ exists v, double q = Fin v /\ (0 < v)%Q.
Proof.
  intros Hq. pose proof (pow2_pos (-1022)) as H0.
  assert (Hpos : (0 < q)%Q) by lra.
  assert (Hne : ~ (q == 0)%Q) by lra.
  assert (Ha : Qabs q = q).
  { destruct q as [p d]. unfold Qabs. f_equal. apply Z.abs_eq.
    unfold Qlt in Hpos. cbn in Hpos. lia. }
  pose proof (double_near q Hne) as H. cbv zeta in H. rewrite Ha in H.
  destruct (binade_spec q Hpos) as (Hb1 & Hb2).
  assert (Hb : -1022 <= binade q).
  { destruct (Z_le_gt_dec (-1022) (binade q)) as [L|L]; [exact L|].
    exfalso. pose proof (pow2_le (binade q + 1) (-1022) ltac:(lia)). lra. }
  rewrite Z.max_l in H by lia.
  assert (He : (pow2 (binade q) == pow2 (binade q - 52) * inject_Z (2 ^ 52))%Q).
  { rewrite <- (pow2_whole 52) by lia. rewrite <- pow2_add.
    now replace (binade q - 52 + 52) with (binade q) by lia. }
  pose proof (pow2_pos (binade q - 52)) as Hu.
  assert (H52 : (2 <= inject_Z (2 ^ 52))%Q).
  { change 2%Q with (inject_Z 2). rewrite <- Zle_Qle.
    change 2 with (2 ^ 1) at 1. apply Z.pow_le_mono_r; lia. }
  destruct (double q) as [v| | |].
  - right. exists v. split; [reflexivity|].
    destruct H as (Hn & _). apply Qabs_Qle_condition in Hn.
    set (u := pow2 (binade q - 52)) in *.
    set (k := inject_Z (2 ^ 52)) in *. nra.
  - now left.
  - destruct H as (H & _). lra.
  - contradiction.
Qed.

Lemma Qred_whole (n : Z) : Qred (inject_Z n) = inject_Z n.
Proof.
  unfold Qred, inject_Z.
  pose proof (Z.ggcd_gcd n 1) as Hg.
  pose proof (Z.ggcd_correct_divisors n 1) as Hd.
  destruct (Z.ggcd n 1) as (g, (aa, bb)). cbn [fst snd] in *.
  rewrite Z.gcd_1_r in Hg. subst g. destruct Hd as (Ha & Hb).
  rewrite Z.mul_1_l in Ha, Hb. subst aa bb. reflexivity.
Qed.

Lemma round_half_even_whole (x : Q) (m : Z) :
  (x == inject_Z m)%Q -> round_half_even x = m.
Proof.
  intros E. unfold round_half_even.
  rewrite (Qfloor_comp _ _ E), Qfloor_Z.
  assert (H : ((x - inject_Z m)%Q ?= 1 # 2)%Q = Lt).
  { rewrite (Qcompare_comp (x - inject_Z m)%Q 0%Q
               ltac:(rewrite E; ring) (1 # 2) (1 # 2) (Qeq_refl _)).
    reflexivity. }
  now rewrite H.
Qed.

Lemma pow2_nonpos (e : Z) : e <= 0 -> (pow2 e == / inject_Z (2 ^ (- e)))%Q.
Proof.
  intros H. unfold pow2. destruct (Z.leb_spec 0 e); [|reflexivity].
  assert (e = 0) by lia. subst e. reflexivity.
Qed.

(** Whole numbers up to 2^53 are doubles. *)
Lemma double_whole (n : Z) :
  0 <= n <= 2 ^ 53 -> double (inject_Z n) = Fin (inject_Z n).
Proof.
  intros (H0 & Hn).
  destruct (Z.eq_dec n 0) as [->|Hz]; [reflexivity|].
  destruct (Z.eq_dec n (2 ^ 53)) as [->|Hm]; [vm_compute; reflexivity|].
  assert (Hpos : 0 < n) by lia.
  assert (Hb : 0 <= Z.log2 n <= 52).
  { split; [apply Z.log2_nonneg|].
    assert (Z.log2 n < 53); [|lia].
    apply Z.log2_lt_pow2; lia. }
  unfold double.
  assert (Hq : Qeq_bool (inject_Z n) 0 = false).
  { destruct (Qeq_bool _ _) eqn:E; [|reflexivity].
    apply Qeq_bool_iff in E. unfold Qeq in E. cbn in E. lia. }
  rewrite Hq.
  assert (Ha : Qabs (inject_Z n) = inject_Z n).
  { unfold inject_Z, Qabs. now rewrite Z.abs_eq by lia. }
  rewrite Ha.
  assert (Hbin : binade (inject_Z n) = Z.log2 n).
  { unfold binade. cbv zeta. cbn [Qnum Qden inject_Z].
    change (Z.log2 1) with 0. rewrite Z.sub_0_r.
    assert (Hle : Qle_bool (pow2 (Z.log2 n)) (inject_Z n) = true).
    { apply Qle_bool_iff. unfold pow2.
      destruct (Z.leb_spec 0 (Z.log2 n)); [|lia].
      rewrite <- Zle_Qle.
      apply Z.log2_spec. exact Hpos. }
    now rewrite Hle. }
  rewrite Hbin. rewrite Z.max_l by lia.
  set (e := Z.log2 n - 52).
  assert (Hs : Qlt_bool (inject_Z n) 0 = false).
  { unfold Qlt_bool. apply negb_false_iff. apply Qle_bool_iff.
    change 0%Q with (inject_Z 0). rewrite <- Zle_Qle. lia. }
  rewrite Hs.
  assert (Hx : (inject_Z n / pow2 e == inject_Z (n * 2 ^ (- e)))%Q).
  { rewrite (pow2_nonpos e) by (unfold e; lia).
    unfold Qdiv. rewrite Qinv_involutive. now rewrite inject_Z_mult. }
  rewrite (round_half_even_whole _ _ Hx).
  assert (Hv : (inject_Z (n * 2 ^ (- e)) * pow2 e == inject_Z n)%Q).
  { rewrite (pow2_nonpos e) by (unfold e; lia).
    rewrite inject_Z_mult. field.
    change 0%Q with (inject_Z 0). rewrite inject_Z_injective.
    apply Z.pow_nonzero; unfold e; lia. }
  assert (Ho : Qle_bool (pow2 1024) (inject_Z (n * 2 ^ (- e)) * pow2 e)
               = false).
  { destruct (Qle_bool _ _) eqn:E; [|reflexivity].
    apply Qle_bool_iff in E. rewrite Hv in E.
    unfold pow2 in E. change (0 <=? 1024) with true in E. cbv iota in E.
    rewrite <- Zle_Qle in E.
    assert (2 ^ 53 < 2 ^ 1024) by (apply Z.pow_lt_mono_r; lia). lia. }
  rewrite Ho. f_equal.
  rewrite (Qred_complete _ _ Hv). apply Qred_whole.
Qed.

(** [this.frame++] is exact below 2^53, and stalls there. *)
Lemma frame_increment_exact (f : Z) :
  0 <= f < 2 ^ 53 ->
  num_add (num_of_Z f) (num_of_Z 1) = num_of_Z (f + 1).
Proof.
  intros H. unfold num_of_Z. cbn [num_add].
  replace (inject_Z f + inject_Z 1)%Q with (inject_Z (f + 1)).
  - apply double_whole. lia.
  - unfold inject_Z, Qplus. cbn [Qnum Qden]. f_equal; lia.
Qed.

Lemma frame_increment_stalls :
  num_add (num_of_Z (2 ^ 53)) (num_of_Z 1) = num_of_Z (2 ^ 53).
Proof. vm_compute. reflexivity. Qed.

Lemma num_mul_inf_pos (fr : Q) :
  (0 < fr)%Q -> num_mul PosInf (Fin fr) = PosInf.
Proof.
  intros H. cbn [num_mul]. unfold scale_inf.
  rewrite (Qeq_bool_pos _ H).
  apply Qlt_bool_iff in H. now rewrite H.
Qed.

(** ** Typed arrays *)

Lemma len_nonneg (a : list byte) : 0 <= len a.
Proof. unfold len. lia. Qed.

Lemma len_zeros (n : Z) : 0 <= n -> len (zeros n) = n.
Proof. intros H. unfold len, zeros. rewrite repeat_length. lia. Qed.

Lemma len_written (a data : list byte) : len (written a data) = len a.
Proof.
  unfold len, written. f_equal.
  rewrite length_firstn, length_app, length_skipn. lia.
Qed.

Lemma clamp_index_inside (a : list byte) (i : Z) :
  0 <= i <= len a -> clamp_index a i = i.
Proof.
  intros H. unfold clamp_index.
  destruct (Z.ltb_spec i 0); lia.
Qed.

Lemma nth_error_subarray (a : list byte) (b e : Z) (i : nat) :
  0 <= b <= e -> e <= len a ->
  nth_error (subarray a b e) i =
  if Z.of_nat i <? e - b then nth_error a (Z.to_nat b + i) else None.
Proof.
  intros Hb He. unfold subarray.
  rewrite !clamp_index_inside by lia.
  rewrite nth_error_firstn, nth_error_skipn.
  destruct (Nat.ltb_spec i (Z.to_nat (e - b))), (Z.ltb_spec (Z.of_nat i) (e - b));
    try reflexivity; lia.
Qed.

Lemma len_subarray (a : list byte) (b e : Z) :
  0 <= b <= e -> e <= len a -> len (subarray a b e) = e - b.
Proof.
  intros Hb He. unfold subarray.
  rewrite !clamp_index_inside by lia.
  unfold len in *. rewrite length_firstn, length_skipn. lia.
Qed.

Lemma typed_set_fits (dst src : list byte) (offset : Z) :
  0 <= offset -> offset + len src <= len dst ->
  typed_set dst src offset =
  Some (firstn (Z.to_nat offset) dst ++ src
        ++ skipn (Z.to_nat (offset + len src)) dst).
Proof.
  intros H0 H1. unfold typed_set.
  destruct (Z.ltb_spec offset 0); [lia|].
  destruct (Z.ltb_spec (len dst) (offset + len src)); [lia|]. reflexivity.
Qed.

Lemma typed_set_inv (dst src dst' : list byte) (offset : Z) :
  typed_set dst src offset = Some dst' ->
  0 <= offset /\ offset + len src <= len dst
  /\ dst' = firstn (Z.to_nat offset) dst ++ src
            ++ skipn (Z.to_nat (offset + len src)) dst.
Proof.
  unfold typed_set.
  destruct (Z.ltb_spec offset 0); [discriminate|].
  destruct (Z.ltb_spec (len dst) (offset + len src)); [discriminate|].
  cbn [orb]. intros [= <-]. repeat split; lia.
Qed.

Lemma nth_error_typed_set (dst src dst' : list byte) (offset : Z) (i : nat) :
  typed_set dst src offset = Some dst' ->
  nth_error dst' i =
  if (Z.of_nat i <? offset) then nth_error dst i
  else if (Z.of_nat i <? offset + len src)
       then nth_error src (i - Z.to_nat offset)
       else nth_error dst i.
Proof.
  intros H. apply typed_set_inv in H as (H0 & H1 & ->).
  unfold len in *.
  rewrite nth_error_app, length_firstn.
  destruct (Nat.ltb_spec i (Nat.min (Z.to_nat offset) (List.length dst))),
    (Z.ltb_spec (Z.of_nat i) offset); try lia.
  - rewrite nth_error_firstn.
    destruct (Nat.ltb_spec i (Z.to_nat offset)); [reflexivity | lia].
  - rewrite nth_error_app.
    replace (Nat.min (Z.to_nat offset) (List.length dst))
      with (Z.to_nat offset) by lia.
    destruct (Nat.ltb_spec (i - Z.to_nat offset) (List.length src)),
      (Z.ltb_spec (Z.of_nat i) (offset + Z.of_nat (List.length src)));
      try lia; [reflexivity|].
    rewrite nth_error_skipn. f_equal. lia.
Qed.

Lemma len_typed_set (dst src dst' : list byte) (offset : Z) :
  typed_set dst src offset = Some dst' -> len dst' = len dst.
Proof.
  intros H. apply typed_set_inv in H as (H0 & H1 & ->).
  unfold len in *.
  rewrite !length_app, length_firstn, length_skipn. lia.
Qed.

Lemma subarray_set_same (dst src dst' : list byte) (offset : Z) :
  typed_set dst src offset = Some dst' ->
  subarray dst' offset (offset + len src) = src.
Proof.
  intros H. pose proof (len_typed_set _ _ _ _ H) as Hl.
  pose proof (typed_set_inv _ _ _ _ H) as (H0 & H1 & _).
  pose proof (len_nonneg src).
  apply nth_error_ext. intros i.
  rewrite nth_error_subarray by lia.
  rewrite (nth_error_typed_set _ _ _ _ _ H).
  destruct (Z.ltb_spec (Z.of_nat i) (offset + len src - offset)).
  - destruct (Z.ltb_spec (Z.of_nat (Z.to_nat offset + i)) offset); [lia|].
    destruct (Z.ltb_spec (Z.of_nat (Z.to_nat offset + i)) (offset + len src));
      [|lia].
    f_equal. lia.
  - symmetry. apply nth_error_None. unfold len in *. lia.
Qed.

Lemma subarray_set_other (dst src dst' : list byte) (offset b e : Z) :
  typed_set dst src offset = Some dst' ->
  0 <= b <= e -> e <= len dst ->
  e <= offset \/ offset + len src <= b ->
  subarray dst' b e = subarray dst b e.
Proof.
  intros H Hb He Hd. pose proof (len_typed_set _ _ _ _ H) as Hl.
  apply nth_error_ext. intros i.
  rewrite !nth_error_subarray by lia.
  destruct (Z.ltb_spec (Z.of_nat i) (e - b)); [|reflexivity].
  rewrite (nth_error_typed_set _ _ _ _ _ H).
  destruct (Z.ltb_spec (Z.of_nat (Z.to_nat b + i)) offset); [reflexivity|].
  destruct (Z.ltb_spec (Z.of_nat (Z.to_nat b + i)) (offset + len src));
    [lia | reflexivity].
Qed.

(** The loop, started after [k] rows, finishes with every row in place. *)
Lemma flip_loop_rows (pixels : list byte) (row h : Z) :
  0 < row -> 0 <= h -> len pixels = row * h ->
  forall (n : nat) (k : Z) (fuel : nat) (flipped : list byte),
    Z.of_nat n = h - k -> 0 <= k -> (n < fuel)%nat ->
    len flipped = row * h ->
    (forall j, h - k <= j < h ->
       subarray flipped (j * row) (j * row + row) =
       subarray pixels ((h - 1 - j) * row) ((h - 1 - j) * row + row)) ->
    exists out,
      flip_loop fuel pixels flipped row ((h - 1) * row) (row * h) (k * row)
      = Some (Normal out)
      /\ len out = row * h
      /\ forall j, 0 <= j < h ->
           subarray out (j * row) (j * row + row) =
           subarray pixels ((h - 1 - j) * row) ((h - 1 - j) * row + row).
Proof.
  intros Hrow Hh Hlen.
  induction n as [|n IH]; intros k fuel flipped Hn Hk Hfuel Hfl Hinv.
  - assert (k = h) by lia. subst k.
    destruct fuel as [|fuel]; [lia|]. cbn [flip_loop].
    destruct (Z.ltb_spec (h * row) (row * h)); [lia|].
    exists flipped. repeat split; [assumption|].
    intros j Hj. apply Hinv. lia.
  - destruct fuel as [|fuel]; [lia|]. cbn [flip_loop].
    assert (Hk1 : k + 1 <= h) by lia.
    assert (Ha : 0 <= k * row) by nia.
    assert (Hb : k * row + row <= row * h) by nia.
    destruct (Z.ltb_spec (k * row) (row * h)); [|lia].
    assert (Hoff : (h - 1) * row - k * row = (h - 1 - k) * row) by ring.
    rewrite Hoff.
    assert (Ho : 0 <= (h - 1 - k) * row) by nia.
    assert (Ho' : (h - 1 - k) * row + row <= row * h) by nia.
    assert (Hsrc : len (subarray pixels (k * row) (k * row + row)) = row).
    { rewrite len_subarray by lia. lia. }
    assert (Hex : exists flipped',
               typed_set flipped (subarray pixels (k * row) (k * row + row))
                 ((h - 1 - k) * row) = Some flipped').
    { rewrite typed_set_fits by (rewrite ?Hsrc; lia). eauto. }
    destruct Hex as [flipped' Hset]. rewrite Hset.
    replace (k * row + row) with ((k + 1) * row) by ring.
    replace ((k + 1) * row) with (k * row + row) in Hset by ring.
    apply IH; try lia.
    + rewrite <- Hfl. eapply len_typed_set. exact Hset.
    + intros j Hj.
      destruct (Z.eq_dec j (h - 1 - k)) as [-> | Hne].
      * replace (h - 1 - (h - 1 - k)) with k by lia.
        pose proof (subarray_set_same _ _ _ _ Hset) as Hs.
        rewrite Hsrc in Hs. exact Hs.
      * rewrite <- Hinv by lia.
        pose proof (subarray_set_other _ _ _ _ (j * row) (j * row + row) Hset)
          as Hs.
        rewrite Hsrc in Hs. apply Hs; nia.
Qed.

Section Properties.

Context {EncoderData EncoderOptions : Type}.
Variable P : Platform EncoderData EncoderOptions.

Local Abbreviation Rec := (Recorder EncoderData EncoderOptions).

(** Unfolds a method body down to the platform calls. *)
Ltac run :=
  unfold start, init, step, stop, dispose, getFrame, getSupportedExtension,
    updateStatus, call_encoder, bind, ret, this, assign, lift in *;
  cbn [fst snd status timing trace encoder emit with_status with_timing
       with_encoder with_filename with_startTime duration frameRate
       extension download filename context negb andb] in *.

Lemma status_eqb_refl (s : Status) : status_eqb s s = true.
Proof. destruct (status_eqb_spec s s); congruence. Qed.

Lemma status_eqb_neq (a b : Status) : a <> b -> status_eqb a b = false.
Proof. intros H; destruct (status_eqb_spec a b); congruence. Qed.

Lemma includes_In (l : list string) (s : string) :
  includes l s = true <-> In s l.
Proof.
  unfold includes. rewrite existsb_exists. split.
  - intros (x & Hx & E). apply String.eqb_eq in E. now subst.
  - intros H. exists s. split; [assumption | apply String.eqb_refl].
Qed.

(** ** What each method does to the lifecycle and the timing *)

Lemma statuses_app (a b : list (Event EncoderOptions)) :
  statuses (a ++ b) = statuses a ++ statuses b.
Proof.
  induction a as [|e a IH]; [reflexivity|].
  destruct e; cbn [app statuses]; rewrite ?IH; reflexivity.
Qed.

Lemma same_settings_refl (r : Rec) : same_settings r r.
Proof. repeat split. Qed.

Lemma same_settings_trans (a b c : Rec) :
  same_settings a b -> same_settings b c -> same_settings a c.
Proof. unfold same_settings. intuition congruence. Qed.

Ltac obs :=
  unfold observed; cbn [trace emit with_status with_timing with_encoder
                        with_filename with_startTime];
  rewrite ?statuses_app; cbn [statuses app]; rewrite <- ?app_assoc;
  cbn [app].

Lemma getFrame_keeps_object (method : option string) (r : Rec) :
  fst (getFrame P method r) = r.
Proof.
  unfold getFrame, bind, this, lift, ret.
  repeat match goal with
         | |- context [if ?c then _ else _] => destruct c
         | |- context [match drawingBuffer ?c with _ => _ end] =>
             destruct (drawingBuffer c) as [[? ?]|]
         end; reflexivity.
Qed.

Lemma stop_cases (r : Rec) :
  let r' := fst (stop P r) in
  same_settings r r' /\ timing r' = timing r
  /\ ((status r <> Recording /\ r' = r)
      \/ (status r = Recording /\ status r' = Stopping
          /\ observed r' = observed r ++ [Stopping]
          /\ exists e, snd (stop P r) = Throw e)
      \/ (status r = Recording /\ status r' = Stopped
          /\ observed r' = observed r ++ [Stopping; Stopped]
          /\ exists a, snd (stop P r) = Normal a)).
Proof.
  cbv zeta. destruct (status_eqb_spec (status r) Recording) as [E|E].
  - run. rewrite E. cbn [status_eqb Recording member RecorderStatus
      String.eqb Ascii.eqb Bool.eqb Z.eqb Pos.eqb negb].
    destruct (encoder_stop P _) as [e' [[a|]|err]]; cbn [fst snd].
    + destruct (download _); cbn [fst snd status timing emit with_status];
        (split; [repeat split|]); (split; [reflexivity|]);
        right; right; (repeat split; [obs; reflexivity | eauto]).
    + (split; [repeat split|]); (split; [reflexivity|]).
      right; right. repeat split; [obs; reflexivity | eauto].
    + (split; [repeat split|]); (split; [reflexivity|]).
      right; left. repeat split; [obs; reflexivity | eauto].
  - run. rewrite (status_eqb_neq _ _ E). cbn [negb fst].
    split; [repeat split|]. split; [reflexivity|]. left. split; trivial.
Qed.

Lemma step_cases (r : Rec) :
  let r' := fst (step P r) in
  same_settings r r'
  /\ ((status r = Recording /\ frame_lt_frameTotal r = true
       /\ status r' = Recording /\ observed r' = observed r
       /\ ((timing r' = timing r /\ exists e, snd (step P r) = Throw e)
           \/ (timing r' = option_map advance (timing r)
               /\ snd (step P r) = Normal tt)))
      \/ ((status r <> Recording \/ frame_lt_frameTotal r = false)
          /\ r' = fst (stop P r)
          /\ (forall e, snd (stop P r) = Throw e -> snd (step P r) = Throw e)
          /\ (forall a, snd (stop P r) = Normal a
                        -> snd (step P r) = Normal tt))).
Proof.
  cbv zeta. unfold step, bind, this. cbv beta iota.
  destruct (status_eqb_spec (status r) Recording) as [E|E];
    [destruct (frame_lt_frameTotal r) eqn:L|]; cbn [andb].
  - pose proof (getFrame_keeps_object (frameMethod (encoder r)) r) as G.
    destruct (getFrame P (frameMethod (encoder r)) r) as [r1 [f|err]];
      cbn [fst] in G; subst r1.
    + unfold call_encoder, assign.
      destruct (encoder_encode P _ _ _) as [e' [[]|err]]; cbn [fst snd];
        (split; [repeat split|]); left;
        (split; [exact E|]); (split; [reflexivity|]); (split; [exact E|]);
        (split; [obs; now rewrite app_nil_r|]).
      * right. split; reflexivity.
      * left. split; [reflexivity | eauto].
    + cbn [fst snd]. split; [repeat split|]. left.
      repeat split; try assumption. left. split; [reflexivity | eauto].
  - destruct (stop P r) as [r' [a|err]] eqn:S; cbn [fst snd];
      pose proof (stop_cases r) as (Hs & _); rewrite S in Hs; cbn [fst] in Hs;
      (split; [exact Hs|]); right; (split; [now right|]);
      unfold ret; cbn [fst snd]; repeat split; congruence.
  - destruct (stop P r) as [r' [a|err]] eqn:S; cbn [fst snd];
      pose proof (stop_cases r) as (Hs & _); rewrite S in Hs; cbn [fst] in Hs;
      (split; [exact Hs|]); right; (split; [now left|]);
      unfold ret; cbn [fst snd]; repeat split; congruence.
Qed.

Lemma init_cases (r : Rec) :
  let r' := fst (init P r) in
  same_settings r r' /\ timing r' = Some (initial_timing r)
  /\ ((status r' = Initializing
       /\ observed r' = observed r ++ [Initializing]
       /\ exists e, snd (init P r) = Throw e)
      \/ (status r' = Initialized
          /\ observed r' = observed r ++ [Initializing; Initialized]
          /\ snd (init P r) = Normal tt)).
Proof.
  cbv zeta. run.
  destruct (includes _ _); cbn [negb fst snd];
    destruct (encoder_init P _ _) as [e' [[]|err]]; cbn [fst snd];
    (split; [repeat split|]); (split; [reflexivity|]);
    [right | left | right | left];
    (split; [reflexivity|]); (split; [obs; reflexivity | eauto]).
Qed.

Lemma start_cases (r : Rec) :
  (status (fst (start P r)) = Initializing
   /\ observed (fst (start P r)) = observed r ++ [Initializing]
   /\ timing (fst (start P r)) = Some (initial_timing r)
   /\ same_settings r (fst (start P r))
   /\ exists e, snd (start P r) = Throw e)
  \/ (exists r1,
        same_settings r r1 /\ status r1 = Recording
        /\ observed r1 = observed r ++ [Initializing; Initialized; Recording]
        /\ timing r1 = Some (initial_timing r)
        /\ start P r = step P r1).
Proof.
  pose proof (init_cases r) as (Hs & Ht & Hc). cbv zeta in *.
  unfold start, bind, this, assign, updateStatus. cbv beta iota zeta.
  destruct (init P r) as [r1 [[]|err]]; cbn [fst snd] in *.
  - right. destruct Hc as [(_ & _ & e & He) | (Hst & Hobs & _)];
      [discriminate|].
    rewrite Hst. rewrite status_eqb_refl. cbn [negb].
    unfold lift, ret, getDefaultFileName, map_completion.
    cbn [startTime with_startTime filename].
    unfold observed in Hobs.
    destruct (falsy_string _);
      (eexists; split; [|split; [|split; [|split; [|reflexivity]]]]);
      [exact Hs | reflexivity | obs; rewrite Hobs, <- app_assoc; reflexivity
      | exact Ht
      | exact Hs | reflexivity | obs; rewrite Hobs, <- app_assoc; reflexivity
      | exact Ht ].
  - left. destruct Hc as [(Hst & Hobs & He) | (_ & _ & He)];
      [|discriminate].
    repeat split; try assumption; apply Hs.
Qed.

Lemma start_after_init (r : Rec) :
  snd (init P r) = Normal tt ->
  exists r1,
    start P r = step P r1 /\ status r1 = Recording
    /\ timing r1 = Some (initial_timing r).
Proof.
  pose proof (init_cases r) as (_ & Ht & Hc). cbv zeta in *. intros Hinit.
  unfold start, bind, this, assign, updateStatus. cbv beta iota zeta.
  destruct (init P r) as [r1 [[]|err]]; cbn [fst snd] in *; [|discriminate].
  destruct Hc as [(_ & _ & e & He) | (Hst & _ & _)]; [discriminate|].
  rewrite Hst, status_eqb_refl. cbn [negb].
  unfold lift, ret, getDefaultFileName, map_completion.
  cbn [startTime with_startTime filename].
  destruct (falsy_string _); (eexists; split; [reflexivity|]);
    (split; [reflexivity | exact Ht]).
Qed.

Lemma dispose_keeps (r : Rec) :
  let r' := fst (dispose P r) in
  same_settings r r' /\ timing r' = timing r /\ status r' = status r
  /\ observed r' = observed r.
Proof.
  cbv zeta. run. destruct (encoder_dispose P _) as [e' c]; cbn [fst].
  repeat split. obs. now rewrite app_nil_r.
Qed.

(** ** The order of the observed statuses *)

Lemma phase_cases (k : nat) :
  (1 <= k <= 6)%nat ->
  k = 1%nat \/ k = 2%nat \/ k = 3%nat \/ k = 4%nat \/ k = 5%nat \/ k = 6%nat.
Proof. lia. Qed.

Lemma phase_of_recording (k : nat) (r : Rec) :
  (1 <= k <= 6)%nat -> in_phase k r -> status r = Recording -> k = 4%nat.
Proof.
  intros Hk [_ Hs] Hr. rewrite Hr in Hs.
  destruct (phase_cases k Hk) as [->|[->|[->|[->|[->| ->]]]]];
    try reflexivity; discriminate.
Qed.

Lemma stop_phase (k : nat) (r : Rec) :
  (1 <= k <= 6)%nat -> in_phase k r ->
  exists k', (k <= k' <= 6)%nat /\ (k = 1%nat -> k' = 1%nat)
             /\ in_phase k' (fst (stop P r)).
Proof.
  intros Hk Hp.
  destruct (stop_cases r) as (_ & _ & [(_ & ->) | [H | H]]).
  - exists k. repeat split; try lia; apply Hp.
  - destruct H as (Hr & Hs & Ho & _).
    pose proof (phase_of_recording k r Hk Hp Hr). subst k.
    exists 5%nat. repeat split; try lia.
    + rewrite Ho. destruct Hp as [-> _]. reflexivity.
    + exact Hs.
  - destruct H as (Hr & Hs & Ho & _).
    pose proof (phase_of_recording k r Hk Hp Hr). subst k.
    exists 6%nat. repeat split; try lia.
    + rewrite Ho. destruct Hp as [-> _]. reflexivity.
    + exact Hs.
Qed.

Lemma perform_other_phase (c : Call) (k : nat) (r : Rec) :
  runs_init c = false -> (1 <= k <= 6)%nat -> in_phase k r ->
  exists k', (k <= k' <= 6)%nat /\ (k = 1%nat -> k' = 1%nat)
             /\ in_phase k' (perform P c r).
Proof.
  intros Hc Hk Hp. destruct c; try discriminate; cbn [perform].
  - destruct (step_cases r) as (_ & [H | (_ & -> & _)]).
    + destruct H as (Hr & _ & Hs & Ho & _).
      exists k. repeat split; try lia.
      * rewrite Ho. apply Hp.
      * rewrite Hs, <- Hr. apply Hp.
    + now apply stop_phase.
  - now apply stop_phase.
  - destruct (dispose_keeps r) as (_ & _ & Hs & Ho).
    exists k. repeat split; try lia.
    + rewrite Ho. apply Hp.
    + rewrite Hs. apply Hp.
  - exists k. repeat split; try lia; apply Hp.
  - exists k. repeat split; try lia; apply Hp.
Qed.

Lemma perform_init_phase (c : Call) (r : Rec) :
  runs_init c = true -> in_phase 1 r ->
  exists k', (2 <= k' <= 6)%nat /\ in_phase k' (perform P c r).
Proof.
  intros Hc [Ho Hs]. destruct c; try discriminate; cbn [perform].
  - destruct (init_cases r) as (_ & _ & [(Hs' & Ho' & _) | (Hs' & Ho' & _)]).
    + exists 2%nat. repeat split; try lia; [now rewrite Ho', Ho | exact Hs'].
    + exists 3%nat. repeat split; try lia; [now rewrite Ho', Ho | exact Hs'].
  - destruct (start_cases r) as [(Hs' & Ho' & _) | (r1 & _ & Hs1 & Ho1 & _ & ->)].
    + exists 2%nat. repeat split; try lia; [now rewrite Ho', Ho | exact Hs'].
    + assert (Hp1 : in_phase 4 r1).
      { split; [now rewrite Ho1, Ho | exact Hs1]. }
      destruct (perform_other_phase CallStep 4 r1 eq_refl ltac:(lia) Hp1)
        as (k' & Hk' & _ & Hp').
      exists k'. split; [lia | exact Hp'].
Qed.

Lemma execute_other_phase (calls : list Call) :
  forall (k : nat) (r : Rec),
    init_calls calls = 0%nat -> (1 <= k <= 6)%nat -> in_phase k r ->
    exists k', (k <= k' <= 6)%nat /\ in_phase k' (execute P calls r).
Proof.
  induction calls as [|c calls IH]; intros k r Hn Hk Hp.
  - exists k. split; [lia | exact Hp].
  - unfold init_calls in Hn. cbn [filter] in Hn.
    destruct (runs_init c) eqn:Hc; [discriminate|].
    destruct (perform_other_phase c k r Hc Hk Hp) as (k1 & Hk1 & _ & Hp1).
    destruct (IH k1 (perform P c r) Hn ltac:(lia) Hp1) as (k' & Hk' & Hp').
    exists k'. split; [lia | exact Hp'].
Qed.

Lemma execute_phase (calls : list Call) :
  forall (r : Rec),
    (init_calls calls <= 1)%nat -> in_phase 1 r ->
    exists k', (1 <= k' <= 6)%nat /\ in_phase k' (execute P calls r).
Proof.
  induction calls as [|c calls IH]; intros r Hn Hp.
  - exists 1%nat. split; [lia | exact Hp].
  - unfold init_calls in Hn. cbn [filter] in Hn.
    destruct (runs_init c) eqn:Hc.
    + destruct (perform_init_phase c r Hc Hp) as (k1 & Hk1 & Hp1).
      destruct (execute_other_phase calls k1 (perform P c r)) as (k' & Hk' & Hp');
        [cbn [List.length] in Hn; unfold init_calls; lia | lia | exact Hp1 |].
      exists k'. split; [lia | exact Hp'].
    + destruct (perform_other_phase c 1 r Hc ltac:(lia) Hp)
        as (k1 & Hk1 & Hone & Hp1).
      rewrite (Hone eq_refl) in Hp1.
      exact (IH (perform P c r) Hn Hp1).
Qed.

Lemma new_Recorder_phase (ctx : Context)
  (options : RecorderOptions EncoderData EncoderOptions) :
  in_phase 1 (new_Recorder P ctx options).
Proof. split; reflexivity. Qed.

(** C2, as the class has it.  On one instance on which [init] runs at most
    once (at most one call of [start()] or [init()]), whatever else is
    called and whatever the encoder does, the statuses delivered to
    [onStatusChange] are a subsequence of Ready, Initializing, Initialized,
    Recording, Stopping, Stopped, and none is delivered twice.
    [Initialized] is the value of [RecorderStatus.Initialized]. *)
Theorem observed_statuses_follow_lifecycle (ctx : Context)
  (options : RecorderOptions EncoderData EncoderOptions)
  (calls : list Call) :
  (init_calls calls <= 1)%nat ->
  let r := execute P calls (new_Recorder P ctx options) in
  subsequence (observed r) lifecycle = true /\ NoDup (observed r).
Proof.
  intros Hn r.
  destruct (execute_phase calls _ Hn (new_Recorder_phase ctx options))
    as (k & Hk & Ho & _).
  fold r in Ho. rewrite Ho.
  destruct (phase_cases k Hk) as [->|[->|[->|[->|[->| ->]]]]];
    (split; [reflexivity|]);
    repeat (constructor; [cbn; intuition discriminate|]); constructor.
Qed.

(** ** The timing members *)

Lemma frameTotal_above_minus_one (d fr : number) :
  valid_duration d -> valid_frameRate fr ->
  num_lt (num_of_Z (-1)) (num_mul d fr) = true.
Proof.
  intros Hd Hf. destruct fr as [fr| | |]; try contradiction.
  cbn [valid_frameRate] in Hf.
  destruct d as [d| | |]; try contradiction.
  - cbn [valid_duration] in Hd. cbn [num_mul].
    destruct (double_nonneg (d * fr)) as [-> | (v & -> & Hv)].
    + apply Qmult_le_0_compat; [exact Hd | now apply Qlt_le_weak].
    + reflexivity.
    + cbn [num_lt num_of_Z]. apply Qlt_bool_iff.
      apply Qlt_le_trans with (y := 0%Q); [reflexivity | exact Hv].
  - rewrite (num_mul_inf_pos _ Hf). reflexivity.
Qed.

Lemma frameTotal_nonneg (d fr : number) (total : Q) :
  valid_duration d -> valid_frameRate fr ->
  num_mul d fr = Fin total -> (0 <= total)%Q.
Proof.
  intros Hd Hf. destruct fr as [fr| | |]; try contradiction.
  cbn [valid_frameRate] in Hf.
  destruct d as [d| | |]; try contradiction.
  - cbn [valid_duration] in Hd. cbn [num_mul].
    destruct (double_nonneg (d * fr)) as [-> | (v & -> & Hv)].
    + apply Qmult_le_0_compat; [exact Hd | now apply Qlt_le_weak].
    + discriminate.
    + intros E. injection E as <-. exact Hv.
  - rewrite (num_mul_inf_pos _ Hf). discriminate.
Qed.

Lemma initial_timing_consistent (r : Rec) :
  valid_duration (duration r) -> valid_frameRate (frameRate r) ->
  timing_consistent r (initial_timing r).
Proof.
  intros Hd Hf. unfold timing_consistent, initial_timing.
  cbn [frameTotal deltaTime frame time].
  refine (conj eq_refl (conj eq_refl (conj _ (conj _ eq_refl)))).
  - lia.
  - now apply frameTotal_above_minus_one.
Qed.

Lemma advance_consistent (r : Rec) (t : Timing) :
  timing_consistent r t ->
  num_lt (num_of_Z (frame t)) (frameTotal t) = true ->
  timing_consistent r (advance t).
Proof.
  intros (Htot & Hdelta & Hpos & _ & Htime) Hlt.
  unfold timing_consistent, advance.
  cbn [frameTotal deltaTime frame time].
  refine (conj Htot (conj Hdelta (conj _ (conj _ _)))).
  - lia.
  - replace (frame t + 1 - 1)%Z with (frame t) by lia. exact Hlt.
  - replace (Z.to_nat (frame t + 1)) with (S (Z.to_nat (frame t))) by lia.
    cbn [accumulate]. now rewrite <- Htime.
Qed.

Lemma consistent_settings (r r' : Rec) (t : Timing) :
  same_settings r r' -> timing_consistent r t -> timing_consistent r' t.
Proof.
  intros (Hd & Hf & _). unfold timing_consistent. now rewrite Hd, Hf.
Qed.

(** The state after a call on a recorder whose timing members are in
    order, or after a call that runs [init]. *)
Lemma perform_consistent (c : Call) (r : Rec) :
  valid_duration (duration r) -> valid_frameRate (frameRate r) ->
  (exists t, timing r = Some t /\ timing_consistent r t)
  \/ runs_init c = true ->
  same_settings r (perform P c r)
  /\ exists t', timing (perform P c r) = Some t'
                /\ timing_consistent (perform P c r) t'.
Proof.
  intros Hd Hf Hc.
  assert (Hstep : forall r1 t1,
             timing r1 = Some t1 -> timing_consistent r1 t1 ->
             same_settings r1 (fst (step P r1))
             /\ exists t', timing (fst (step P r1)) = Some t'
                           /\ timing_consistent (fst (step P r1)) t').
  { intros r1 t1 Ht1 Hc1.
    destruct (step_cases r1) as (Hs & [H | (_ & Heq & _)]).
    - split; [exact Hs|].
      destruct H as (_ & Hlt & _ & _ & [(Ht & _) | (Ht & _)]).
      + exists t1. split; [congruence|].
        now apply (consistent_settings r1).
      + exists (advance t1). rewrite Ht, Ht1. split; [reflexivity|].
        apply (consistent_settings r1); [exact Hs|].
        apply advance_consistent; try assumption.
        unfold frame_lt_frameTotal in Hlt. now rewrite Ht1 in Hlt.
    - split; [exact Hs|]. rewrite Heq in *.
      destruct (stop_cases r1) as (_ & Ht & _).
      exists t1. split; [congruence|].
      now apply (consistent_settings r1). }
  destruct c; cbn [perform runs_init] in *.
  - destruct (init_cases r) as (Hs & Ht & _). split; [exact Hs|].
    exists (initial_timing r). split; [exact Ht|].
    apply (consistent_settings r); [exact Hs|].
    now apply initial_timing_consistent.
  - destruct (start_cases r)
      as [(_ & _ & Ht & Hs & _) | (r1 & Hs1 & _ & _ & Ht1 & ->)].
    + split; [exact Hs|].
      exists (initial_timing r). split; [exact Ht|].
      apply (consistent_settings r); [exact Hs|].
      now apply initial_timing_consistent.
    + destruct (Hstep r1 (initial_timing r)) as (Hs' & Hex).
      * exact Ht1.
      * apply (consistent_settings r); [exact Hs1|].
        now apply initial_timing_consistent.
      * split; [exact (same_settings_trans _ _ _ Hs1 Hs') | exact Hex].
  - destruct Hc as [(t & Ht & Hcons) | ?]; [|discriminate].
    now apply (Hstep r t).
  - destruct Hc as [(t & Ht & Hcons) | ?]; [|discriminate].
    destruct (stop_cases r) as (Hs & Ht' & _). split; [exact Hs|].
    exists t. split; [congruence|]. now apply (consistent_settings r).
  - destruct Hc as [(t & Ht & Hcons) | ?]; [|discriminate].
    destruct (dispose_keeps r) as (Hs & Ht' & _). split; [exact Hs|].
    exists t. split; [congruence|]. now apply (consistent_settings r).
  - destruct Hc as [(t & Ht & Hcons) | ?]; [|discriminate].
    split; [repeat split|]. exists t. split; assumption.
  - destruct Hc as [(t & Ht & Hcons) | ?]; [|discriminate].
    split; [repeat split|]. exists t. split; assumption.
Qed.

Lemma execute_consistent (calls : list Call) :
  forall r : Rec,
    valid_duration (duration r) -> valid_frameRate (frameRate r) ->
    (exists t, timing r = Some t /\ timing_consistent r t) ->
    same_settings r (execute P calls r)
    /\ exists t', timing (execute P calls r) = Some t'
                  /\ timing_consistent (execute P calls r) t'.
Proof.
  induction calls as [|c calls IH]; intros r Hd Hf Hex.
  - split; [apply same_settings_refl | exact Hex].
  - destruct (perform_consistent c r Hd Hf (or_introl Hex)) as (Hs & Hex').
    pose proof Hs as (Hd' & Hf' & _).
    destruct (IH (perform P c r)) as (Hs2 & Hex2);
      [now rewrite Hd' | now rewrite Hf' | exact Hex' |].
    split; [exact (same_settings_trans _ _ _ Hs Hs2) | exact Hex2].
Qed.

Lemma whole_bound (f : Z) (total : number) :
  num_lt (num_of_Z (f - 1)) total = true ->
  whole total -> num_le (num_of_Z f) total = true.
Proof.
  intros Hlt [-> | (n & Hn)]; [reflexivity|].
  destruct total as [q| | |]; try contradiction.
  unfold num_of_Z in *. cbn [num_eqv num_lt num_le] in *.
  apply Qlt_bool_iff in Hlt. apply Qle_bool_iff.
  rewrite Hn in *.
  rewrite <- Zlt_Qlt in Hlt. rewrite <- Zle_Qle. lia.
Qed.

(** C3, as the class has it.  For a duration from 0 to Infinity and a
    positive frame rate, both doubles, after [init()] (or [start()]) and
    after every further call of a run of fewer than 2^53 calls: [frame] is
    at least 0 and [frame - 1] is less than [frameTotal], so [frame] is at
    most [frameTotal] whenever [frameTotal] is a whole number or infinite;
    [deltaTime] is the double [1 / frameRate], and [time] is [deltaTime]
    added [frame] times to 0, each sum rounded to a double. *)
Theorem timing_invariant (r : Rec) (c : Call) (calls : list Call) :
  valid_duration (duration r) -> valid_frameRate (frameRate r) ->
  is_double (duration r) -> is_double (frameRate r) ->
  runs_init c = true ->
  (Z.of_nat (List.length calls) < 2 ^ 53)%Z ->
  let r' := execute P (c :: calls) r in
  exists t,
    timing r' = Some t
    /\ (0 <= frame t)%Z
    /\ num_lt (num_of_Z (frame t - 1)) (frameTotal t) = true
    /\ (whole (frameTotal t) ->
        num_le (num_of_Z (frame t)) (frameTotal t) = true)
    /\ deltaTime t = num_div (num_of_Z 1) (frameRate r')
    /\ time t = accumulate (deltaTime t) (Z.to_nat (frame t))
    /\ frameTotal t = num_mul (duration r) (frameRate r).
Proof.
  intros Hd Hf _ _ Hc _. cbv zeta.
  change (execute P (c :: calls) r) with (execute P calls (perform P c r)).
  destruct (perform_consistent c r Hd Hf (or_intror Hc)) as (Hs & Hex).
  pose proof Hs as (Hd' & Hf' & _).
  destruct (execute_consistent calls (perform P c r)) as (Hs2 & t & Ht & Hcons);
    [now rewrite Hd' | now rewrite Hf' | exact Hex |].
  pose proof (same_settings_trans _ _ _ Hs Hs2) as (Hd2 & Hf2 & _).
  exists t. destruct Hcons as (Htot & Hdelta & Hpos & Hlt & Htime).
  split; [exact Ht|]. split; [exact Hpos|]. split; [exact Hlt|].
  split; [now apply whole_bound|]. split; [exact Hdelta|].
  split; [exact Htime|].
  rewrite Htot. now rewrite Hd2, Hf2.
Qed.

(** ** A full recording *)

Lemma frame_lt_below_ceiling (t : Timing) (r : Rec) (q : Q) :
  timing r = Some t -> frameTotal t = Fin q ->
  (frame t < Qceiling q)%Z -> frame_lt_frameTotal r = true.
Proof.
  intros Ht Hq Hlt. unfold frame_lt_frameTotal. rewrite Ht, Hq.
  cbn [num_lt num_of_Z]. apply Qlt_bool_iff.
  apply Qle_lt_trans with (y := inject_Z (Qceiling q - 1)).
  - rewrite <- Zle_Qle. lia.
  - apply Qceiling_lt.
Qed.

Lemma frame_lt_at_ceiling (t : Timing) (r : Rec) (q : Q) :
  timing r = Some t -> frameTotal t = Fin q ->
  frame t = Qceiling q -> frame_lt_frameTotal r = false.
Proof.
  intros Ht Hq He. unfold frame_lt_frameTotal. rewrite Ht, Hq, He.
  cbn [num_lt num_of_Z]. apply Qlt_bool_false_iff. apply Qle_ceiling.
Qed.

Lemma advance_counted (r : Rec) (t : Timing) :
  counted r t -> counted r (advance t).
Proof.
  intros (Hdelta & Hpos & Htime). unfold counted, advance.
  cbn [deltaTime frame time].
  refine (conj Hdelta (conj _ _)); [lia|].
  replace (Z.to_nat (frame t + 1)) with (S (Z.to_nat (frame t))) by lia.
  cbn [accumulate]. now rewrite <- Htime.
Qed.

Lemma counted_settings (r r' : Rec) (t : Timing) :
  same_settings r r' -> counted r t -> counted r' t.
Proof. intros (_ & Hf & _). unfold counted. now rewrite Hf. Qed.

Lemma initial_counted (r : Rec) : counted r (initial_timing r).
Proof.
  unfold counted, initial_timing. cbn [deltaTime frame time].
  refine (conj eq_refl (conj _ eq_refl)). lia.
Qed.

Lemma perform_counted (c : Call) (r : Rec) :
  (exists t, timing r = Some t /\ counted r t) \/ runs_init c = true ->
  same_settings r (perform P c r)
  /\ exists t', timing (perform P c r) = Some t'
                /\ counted (perform P c r) t'.
Proof.
  intros Hc.
  assert (Hstep : forall r1 t1,
             timing r1 = Some t1 -> counted r1 t1 ->
             same_settings r1 (fst (step P r1))
             /\ exists t', timing (fst (step P r1)) = Some t'
                           /\ counted (fst (step P r1)) t').
  { intros r1 t1 Ht1 Hc1.
    destruct (step_cases r1) as (Hs & [H | (_ & Heq & _)]).
    - split; [exact Hs|].
      destruct H as (_ & _ & _ & _ & [(Ht & _) | (Ht & _)]).
      + exists t1. split; [congruence|]. now apply (counted_settings r1).
      + exists (advance t1). rewrite Ht, Ht1. split; [reflexivity|].
        apply (counted_settings r1); [exact Hs|]. now apply advance_counted.
    - split; [exact Hs|]. rewrite Heq in *.
      destruct (stop_cases r1) as (_ & Ht & _).
      exists t1. split; [congruence|]. now apply (counted_settings r1). }
  destruct c; cbn [perform runs_init] in *.
  - destruct (init_cases r) as (Hs & Ht & _). split; [exact Hs|].
    exists (initial_timing r). split; [exact Ht|].
    apply (counted_settings r); [exact Hs | apply initial_counted].
  - destruct (start_cases r)
      as [(_ & _ & Ht & Hs & _) | (r1 & Hs1 & _ & _ & Ht1 & ->)].
    + split; [exact Hs|].
      exists (initial_timing r). split; [exact Ht|].
      apply (counted_settings r); [exact Hs | apply initial_counted].
    + destruct (Hstep r1 (initial_timing r)) as (Hs' & Hex).
      * exact Ht1.
      * apply (counted_settings r); [exact Hs1 | apply initial_counted].
      * split; [exact (same_settings_trans _ _ _ Hs1 Hs') | exact Hex].
  - destruct Hc as [(t & Ht & Hcons) | ?]; [|discriminate].
    now apply (Hstep r t).
  - destruct Hc as [(t & Ht & Hcons) | ?]; [|discriminate].
    destruct (stop_cases r) as (Hs & Ht' & _). split; [exact Hs|].
    exists t. split; [congruence|]. now apply (counted_settings r).
  - destruct Hc as [(t & Ht & Hcons) | ?]; [|discriminate].
    destruct (dispose_keeps r) as (Hs & Ht' & _). split; [exact Hs|].
    exists t. split; [congruence|]. now apply (counted_settings r).
  - destruct Hc as [(t & Ht & Hcons) | ?]; [|discriminate].
    split; [repeat split|]. exists t. split; assumption.
  - destruct Hc as [(t & Ht & Hcons) | ?]; [|discriminate].
    split; [repeat split|]. exists t. split; assumption.
Qed.

Lemma execute_counted (calls : list Call) :
  forall r : Rec,
    (exists t, timing r = Some t /\ counted r t) ->
    same_settings r (execute P calls r)
    /\ exists t', timing (execute P calls r) = Some t'
                  /\ counted (execute P calls r) t'.
Proof.
  induction calls as [|c calls IH]; intros r Hex.
  - split; [apply same_settings_refl | exact Hex].
  - destruct (perform_counted c r (or_introl Hex)) as (Hs & Hex').
    destruct (IH (perform P c r) Hex') as (Hs2 & Hex2).
    split; [exact (same_settings_trans _ _ _ Hs Hs2) | exact Hex2].
Qed.



(** ** Infinite duration *)

Lemma not_in_app_statuses (l extra : list Status) :
  ~ In Stopping l -> ~ In Stopping extra -> ~ In Stopping (l ++ extra).
Proof. intros H1 H2 H. apply in_app_or in H. tauto. Qed.

Lemma step_open_ended (r : Rec) :
  open_ended r -> open_ended (fst (step P r)).
Proof.
  intros (Hu & Hobs & Hs1 & Hs2).
  destruct (step_cases r) as (_ & [H | (Hor & Heq & _)]).
  - destruct H as (Hr & Hlt & Hs' & Ho' & Ht').
    unfold open_ended. rewrite Ho', Hs'.
    split; [|repeat split; try assumption; discriminate].
    unfold frame_lt_frameTotal in Hlt.
    destruct (timing r) as [t|] eqn:Ht; [|discriminate].
    destruct Ht' as [(-> & _) | (-> & _)]; [exact Hu|].
    cbn [option_map advance frameTotal]. exact Hu.
  - assert (Hn : status r <> Recording).
    { destruct Hor as [Hn | Hlt]; [exact Hn|]. intros Hr.
      unfold frame_lt_frameTotal in Hlt.
      destruct (timing r) as [t|]; [|contradiction].
      rewrite Hu in Hlt. discriminate. }
    rewrite Heq.
    destruct (stop_cases r) as (_ & _ & [(_ & ->) | [H | H]]).
    + repeat split; assumption.
    + destruct H as (Hr & _). contradiction.
    + destruct H as (Hr & _). contradiction.
Qed.

Lemma perform_open_ended (c : Call) (r : Rec) (fr : Q) :
  duration r = PosInf -> frameRate r = Fin fr -> (0 < fr)%Q ->
  c <> CallStop -> open_ended r ->
  same_settings r (perform P c r) /\ open_ended (perform P c r).
Proof.
  intros Hd Hf Hfr Hc Hopen.
  assert (Hinit : frameTotal (initial_timing r) = PosInf).
  { unfold initial_timing. cbn [frameTotal]. rewrite Hd, Hf.
    now apply num_mul_inf_pos. }
  pose proof Hopen as (Hu & Hobs & Hs1 & Hs2).
  destruct c; cbn [perform]; try congruence.
  - destruct (init_cases r) as (Hs & Ht & Hcase). split; [exact Hs|].
    unfold open_ended. rewrite Ht.
    destruct Hcase as [(-> & -> & _) | (-> & -> & _)];
      (split; [exact Hinit|]);
      (split; [apply not_in_app_statuses;
               [exact Hobs | cbn; intuition discriminate]|]);
      split; discriminate.
  - destruct (start_cases r)
      as [(Hst & Ho & Ht & Hs & _) | (r1 & Hs1' & Hst1 & Ho1 & Ht1 & ->)].
    + split; [exact Hs|]. unfold open_ended. rewrite Ht, Ho, Hst.
      split; [exact Hinit|].
      split; [apply not_in_app_statuses;
              [exact Hobs | cbn; intuition discriminate]|].
      split; discriminate.
    + destruct (step_cases r1) as (Hs' & _).
      split; [exact (same_settings_trans _ _ _ Hs1' Hs')|].
      apply step_open_ended. unfold open_ended. rewrite Ht1, Ho1, Hst1.
      split; [exact Hinit|].
      split; [apply not_in_app_statuses;
              [exact Hobs | cbn; intuition discriminate]|].
      split; discriminate.
  - destruct (step_cases r) as (Hs & _). split; [exact Hs|].
    now apply step_open_ended.
  - destruct (dispose_keeps r) as (Hs & Ht & Hst & Ho). split; [exact Hs|].
    unfold open_ended. now rewrite Ht, Hst, Ho.
  - split; [repeat split | exact Hopen].
  - split; [repeat split | exact Hopen].
Qed.

Lemma execute_open_ended (calls : list Call) (fr : Q) :
  (0 < fr)%Q -> ~ In CallStop calls ->
  forall r : Rec,
    duration r = PosInf -> frameRate r = Fin fr -> open_ended r ->
    open_ended (execute P calls r).
Proof.
  intros Hfr. induction calls as [|c calls IH]; intros Hin r Hd Hf Hopen.
  - exact Hopen.
  - cbn [execute fold_left].
    destruct (perform_open_ended c r fr Hd Hf Hfr) as ((Hd' & Hf' & _) & Ho');
      [intros ->; apply Hin; now left | exact Hopen |].
    apply IH.
    + intros H. apply Hin. now right.
    + now rewrite Hd'.
    + now rewrite Hf'.
    + exact Ho'.
Qed.

(** While [Recording] with no last frame, [step()] keeps the session
    [Recording], whether the frame is encoded or the call rejects. *)
Lemma step_stays_recording (r : Rec) (t : Timing) :
  status r = Recording -> timing r = Some t -> frameTotal t = PosInf ->
  status (fst (step P r)) = Recording
  /\ exists t', timing (fst (step P r)) = Some t' /\ frameTotal t' = PosInf.
Proof.
  intros Hr Et Hu.
  assert (Hlt : frame_lt_frameTotal r = true).
  { unfold frame_lt_frameTotal. rewrite Et, Hu. reflexivity. }
  destruct (step_cases r) as (_ & [H | ([Hn | Hn] & _)]);
    [| contradiction | congruence].
  destruct H as (_ & _ & Hs' & _ & [(Ht' & _) | (Ht' & _)]);
    (split; [exact Hs'|]); rewrite Ht', Et.
  - exists t. split; [reflexivity | exact Hu].
  - exists (advance t). split; [reflexivity | exact Hu].
Qed.

(** C5, as the class has it.  With [duration = Infinity] and a positive
    frame rate, whatever is called on the recorder other than [stop()] and
    whatever the encoder does, the session never reports [Stopping] and is
    never in [Stopping] or [Stopped].  When the encoder's [init] resolves,
    [start()] followed by any number of [step()] calls leaves the session
    [Recording], and the [stop()] called then is what reports [Stopping]
    and takes the session to [Stopping] or [Stopped]. *)
Theorem infinite_duration_never_stops_itself (ctx : Context)
  (options : RecorderOptions EncoderData EncoderOptions)
  (fr : Q) (calls : list Call) (n : nat) :
  let r0 := new_Recorder P ctx options in
  duration r0 = PosInf -> frameRate r0 = Fin fr -> (0 < fr)%Q ->
  ~ In CallStop calls ->
  (let r := execute P calls r0 in
   ~ In Stopping (observed r)
   /\ status r <> Stopping /\ status r <> Stopped)
  /\ (snd (init P r0) = Normal tt ->
      let r := execute P (CallStart :: repeat CallStep n) r0 in
      status r = Recording
      /\ ~ In Stopping (observed r)
      /\ exists rest,
           observed (fst (stop P r)) = observed r ++ Stopping :: rest
           /\ (status (fst (stop P r)) = Stopping
               \/ status (fst (stop P r)) = Stopped)).
Proof.
  intros r0 Hd Hf Hfr Hin.
  assert (H0 : open_ended r0).
  { unfold open_ended, r0. cbn. repeat split; try discriminate.
    intuition discriminate. }
  split.
  { intros r.
    destruct (execute_open_ended calls fr Hfr Hin r0 Hd Hf H0)
      as (_ & Hobs & Hs1 & Hs2).
    repeat split; assumption. }
  intros Hinit r.
  assert (Hsteps : ~ In CallStop (CallStart :: repeat CallStep n)).
  { cbn [In]. intros [E | E]; [discriminate|].
    apply repeat_spec in E. discriminate. }
  pose proof (execute_open_ended _ fr Hfr Hsteps r0 Hd Hf H0) as Hopen.
  fold r in Hopen.
  assert (Hrec : status r = Recording
                 /\ exists t, timing r = Some t /\ frameTotal t = PosInf).
  { unfold r. clear r Hopen Hsteps.
    induction n as [|n IH].
    - cbn [repeat execute fold_left perform].
      destruct (start_after_init r0 Hinit) as (r1 & Heq & Hs1 & Ht1).
      rewrite Heq.
      apply (step_stays_recording r1 (initial_timing r0)); try assumption.
      unfold initial_timing. cbn [frameTotal]. rewrite Hd, Hf.
      now apply num_mul_inf_pos.
    - replace (CallStart :: repeat CallStep (S n))
        with ((CallStart :: repeat CallStep n) ++ [CallStep]).
      2:{ cbn [app]. f_equal. now rewrite <- repeat_cons. }
      unfold execute. rewrite fold_left_app. cbn [fold_left perform].
      fold (execute P (CallStart :: repeat CallStep n) r0).
      destruct IH as (IHs & t & IHt & IHu).
      now apply (step_stays_recording _ t). }
  destruct Hrec as (Hr & _).
  destruct Hopen as (_ & Hobs & _).
  split; [exact Hr|]. split; [exact Hobs|].
  destruct (stop_cases r) as (_ & _ & [(Hn & _) | [H | H]]).
  - contradiction.
  - destruct H as (_ & Hst & -> & _). exists []. split; [reflexivity|].
    now left.
  - destruct H as (_ & Hst & -> & _). exists [Stopped].
    split; [reflexivity|]. now right.
Qed.

(** ** Stopping and stepping outside [Recording] *)

(** C4. In every status other than [Recording], [stop()] resolves at once
    with [undefined]: the object is left exactly as it was, so nothing was
    reported to the observer, the encoder's [stop] was not called and nothing
    was downloaded. *)
Theorem stop_not_recording_is_noop (r : Rec) :
  status r <> Recording ->
  stop P r = (r, Normal None).
Proof.
  intros H. run. rewrite (status_eqb_neq _ _ H). reflexivity.
Qed.

(** C10. In every status other than [Recording], [step()] resolves without
    calling the encoder and leaves the object, hence [frame], [time] and
    [status], exactly as it was. *)
Theorem step_not_recording_is_noop (r : Rec) :
  status r <> Recording ->
  step P r = (r, Normal tt).
Proof.
  intros H. run. rewrite (status_eqb_neq _ _ H).
  cbn [andb]. cbv beta. rewrite (status_eqb_neq _ _ H). reflexivity.
Qed.

(** ** Extension resolution *)

(** C6. [getSupportedExtension] keeps the requested extension when the
    encoder supports it, reporting nothing; otherwise it returns the first
    entry of the encoder's [supportedExtensions] and writes exactly one
    warning to the console. *)
Theorem getSupportedExtension_resolves (r : Rec) :
  let exts := supportedExtensions (encoder r) in
  (In (extension r) exts ->
   getSupportedExtension r = (r, Normal (Some (extension r))))
  /\
  (~ In (extension r) exts ->
   exists r',
     getSupportedExtension r = (r', Normal (nth_error exts 0))
     /\ exists msg, trace r' = trace r ++ [ConsoleWarn msg]).
Proof.
  intros exts. split; intros H.
  - apply includes_In in H. run. subst exts. now rewrite H.
  - assert (E : includes exts (extension r) = false).
    { destruct (includes exts (extension r)) eqn:E; [|reflexivity].
      apply includes_In in E. contradiction. }
    run. subst exts. rewrite E. cbn [negb]. eexists. split; [reflexivity|].
    cbn [trace emit]. eexists. reflexivity.
Qed.

(** ** Encoder selection *)


(** ** The width and height accessors *)

Lemma get_width_set_width (v : Z) (r : Rec) :
  get_width (set_width v r) = get_width r.
Proof. reflexivity. Qed.

Lemma get_height_set_height (v : Z) (r : Rec) :
  get_height (set_height v r) = get_height r.
Proof. reflexivity. Qed.

(** ** The pixel path *)

Lemma flipped_pixels_rows (ctx : Context) (width height : Z)
  (data : list byte) :
  0 < width -> 0 <= height ->
  readPixels P ctx 0 0 width height = Normal data ->
  let row := width * 4 in
  let pixels := written (zeros (width * height * 4)) data in
  exists flipped,
    flipped_pixels P ctx width height = Normal flipped
    /\ len flipped = len pixels
    /\ forall j, 0 <= j < height ->
         subarray flipped (j * row) (j * row + row) =
         subarray pixels ((height - 1 - j) * row)
           ((height - 1 - j) * row + row).
Proof.
  intros Hw Hh Hread row pixels.
  assert (HL : width * height * 4 = row * height) by (unfold row; ring).
  assert (H0 : 0 <= width * height * 4) by nia.
  assert (Hp : len pixels = row * height).
  { unfold pixels. rewrite len_written, len_zeros; lia. }
  unfold flipped_pixels.
  destruct (Z.ltb_spec (width * height * 4) 0); [lia|].
  rewrite Hread. fold pixels. fold row. rewrite HL.
  destruct (flip_loop_rows pixels row height ltac:(lia) Hh Hp
              (Z.to_nat height) 0 (S (Z.to_nat (row * height)))
              (zeros (row * height)))
    as (out & Hout & Hlen & Hrows).
  - lia.
  - lia.
  - nia.
  - apply len_zeros. lia.
  - intros j Hj. lia.
  - exists out. cbn [Z.mul] in Hout. rewrite Hout.
    repeat split; [congruence | exact Hrows].
Qed.

(** C8. On a context with a drawing buffer (bottom-up rows), the
    [imageData] frame is the buffer read back with its rows in reverse
    order: row [j] of the frame is row [height - 1 - j] of what [readPixels]
    delivered, for every [j] below [height]; and that frame is what [step]
    hands to [encoder.encode]. *)
Theorem getFrame_imageData_flips_rows (r : Rec) (width height : Z)
  (data : list byte) :
  drawingBuffer (context r) = Some (width, height) ->
  0 < width -> 0 <= height ->
  readPixels P (context r) 0 0 width height = Normal data ->
  let row := width * 4 in
  let pixels := written (zeros (width * height * 4)) data in
  exists flipped,
    getFrame P (Some "imageData"%string) r = (r, Normal (Pixels flipped))
    /\ len flipped = len pixels
    /\ (forall j, 0 <= j < height ->
          subarray flipped (j * row) (j * row + row) =
          subarray pixels ((height - 1 - j) * row)
            ((height - 1 - j) * row + row))
    /\ (status r = Recording -> frame_lt_frameTotal r = true ->
        frameMethod (encoder r) = Some "imageData"%string ->
        exists index,
          trace (fst (step P r))
          = trace r ++ [EncoderEncode (Pixels flipped) index]).
Proof.
  intros Hctx Hw Hh Hread row pixels.
  destruct (flipped_pixels_rows (context r) width height data Hw Hh Hread)
    as (flipped & Hfl & Hlen & Hrows).
  assert (Hget : getFrame P (Some "imageData"%string) r
                 = (r, Normal (Pixels flipped))).
  { run. cbn [is_method String.eqb Ascii.eqb Bool.eqb].
    rewrite Hctx. destruct (Z.eqb_spec width 0); [lia|].
    cbn [negb]. unfold lift. rewrite Hfl. reflexivity. }
  exists flipped. repeat split; try assumption.
  intros Hs Hlt Hm.
  unfold step, bind, this. cbv beta iota. rewrite Hs, Hlt, Hm.
  rewrite status_eqb_refl. cbn [andb]. rewrite Hget.
  unfold call_encoder, assign. cbn [fst snd].
  destruct (encoder_encode P _ _ _) as [e' [[]|err]]; eexists; reflexivity.
Qed.

(** ** The events of each method *)

Lemma tally_app (kind : Event EncoderOptions -> bool)
  (a b : list (Event EncoderOptions)) :
  tally kind (a ++ b) = (tally kind a + tally kind b)%nat.
Proof. unfold tally. now rewrite filter_app, length_app. Qed.

Lemma encoded_app (a b : list (Event EncoderOptions)) :
  encoded (a ++ b) = encoded a ++ encoded b.
Proof.
  induction a as [|e a IH]; [reflexivity|].
  destruct e; cbn [app encoded]; rewrite ?IH; reflexivity.
Qed.

Lemma frames_app (a b : list (Event EncoderOptions)) :
  frames (a ++ b) = frames a ++ frames b.
Proof.
  induction a as [|e a IH]; [reflexivity|].
  destruct e; cbn [app frames]; rewrite ?IH; reflexivity.
Qed.

(** [init]: the status report, the warning if any, the call of
    [encoder.init], and [Initialized] when that call resolved.  The promise
    settles as the encoder's did. *)
Lemma init_trace (r : Rec) :
  let r' := fst (init P r) in
  let result := encoder_init P (init_config P r) (encoder r) in
  snd (init P r) = snd result
  /\ encoder r' = fst result
  /\ filename r' = filename r /\ download r' = download r
  /\ trace r'
     = trace r ++ StatusChange Initializing :: extension_warning r
         ++ EncoderInit (init_config P r)
         :: match snd result with
            | Normal _ => [StatusChange Initialized]
            | Throw _ => []
            end.
Proof.
  cbv zeta. unfold init_config, extension_warning, resolved_extension. run.
  destruct (includes _ _) eqn:Hinc; cbn [negb fst snd];
    destruct (encoder_init P _ _) as [e' [[]|err]]; cbn [fst snd];
    (split; [reflexivity|]); (split; [reflexivity|]);
    (split; [reflexivity|]); (split; [reflexivity|]);
    cbn [trace emit with_status with_timing with_encoder];
    rewrite <- ?app_assoc; reflexivity.
Qed.

(** [stop] while [Recording]: [Stopping] is reported, [encoder.stop] is
    called, then either its error is passed on, or the download (if any) is
    triggered, [Stopped] is reported and the encoder's result returned. *)
Lemma stop_trace (r : Rec) :
  status r = Recording ->
  let r' := fst (stop P r) in
  let result := encoder_stop P (encoder r) in
  encoder r' = fst result
  /\ filename r' = filename r /\ download r' = download r
  /\ match snd result with
     | Normal buffer =>
         snd (stop P r) = Normal buffer /\ status r' = Stopped
         /\ trace r'
            = trace r ++ StatusChange Stopping :: EncoderStop
                :: download_of r (enc_mimeType (fst result)) buffer
                ++ [StatusChange Stopped]
     | Throw err =>
         snd (stop P r) = Throw err /\ status r' = Stopping
         /\ trace r' = trace r ++ [StatusChange Stopping; EncoderStop]
     end.
Proof.
  intros E. cbv zeta. unfold download_of. run. rewrite E.
  cbn [status_eqb Recording member RecorderStatus
       String.eqb Ascii.eqb Bool.eqb Z.eqb Pos.eqb negb].
  destruct (encoder_stop P _) as [e' [[a|]|err]];
    cbn [fst snd download with_encoder emit with_status];
    try destruct (download r) eqn:D; cbn [fst snd];
    repeat (split; [first [reflexivity | exact D]|]);
    cbn [trace emit with_status with_timing with_encoder encoder filename];
    rewrite <- ?app_assoc; reflexivity.
Qed.

(** [step] while [Recording] below [frameTotal]: a frame that cannot be
    acquired rejects the call with nothing done; otherwise the frame goes to
    [encoder.encode] with the current index, and the playhead advances only
    when that call resolved. *)
Lemma step_trace (r : Rec) (t : Timing) :
  status r = Recording -> timing r = Some t ->
  frame_lt_frameTotal r = true ->
  let r' := fst (step P r) in
  match snd (getFrame P (frameMethod (encoder r)) r) with
  | Throw err => step P r = (r, Throw err)
  | Normal f =>
      let result := encoder_encode P f (frame t) (encoder r) in
      snd (step P r) = snd result
      /\ encoder r' = fst result
      /\ status r' = Recording
      /\ filename r' = filename r /\ download r' = download r
      /\ trace r' = trace r ++ [EncoderEncode f (frame t)]
      /\ timing r' = match snd result with
                     | Normal _ => Some (advance t)
                     | Throw _ => Some t
                     end
  end.
Proof.
  intros E Ht Hlt. cbv zeta. unfold step, bind, this. cbv beta iota.
  rewrite E, Hlt, status_eqb_refl. cbn [andb].
  pose proof (getFrame_keeps_object (frameMethod (encoder r)) r) as G.
  destruct (getFrame P (frameMethod (encoder r)) r) as [r1 [f|err]];
    cbn [fst snd] in *; subst r1; [|reflexivity].
  rewrite Ht. unfold call_encoder, assign.
  cbn [encoder emit].
  destruct (encoder_encode P _ _ _) as [e' [[]|err]]; cbn [fst snd];
    repeat (split; [first [reflexivity | exact E]|]);
    cbn [timing with_timing with_encoder emit]; rewrite ?Ht; reflexivity.
Qed.

(** [step] anywhere else is [stop]. *)
Lemma step_is_stop (r : Rec) :
  status r <> Recording \/ frame_lt_frameTotal r = false ->
  step P r = (fst (stop P r), map_completion (fun _ => tt) (snd (stop P r))).
Proof.
  intros H. unfold step, bind at 1, this. cbv beta iota.
  assert (E : status_eqb (status r) Recording && frame_lt_frameTotal r
              = false).
  { destruct H as [H | ->]; [|apply andb_false_r].
    now rewrite (status_eqb_neq _ _ H). }
  rewrite E. unfold bind, ret.
  destruct (stop P r) as [r' [a|err]]; reflexivity.
Qed.

(** [start]: [init], and when it resolved, the start time and the file
    name are set, [Recording] is reported and the first [step] is taken. *)
Lemma start_trace (r : Rec) :
  match snd (init P r) with
  | Throw err => start P r = (fst (init P r), Throw err)
  | Normal _ =>
      exists r1,
        start P r = step P r1
        /\ status r1 = Recording
        /\ timing r1 = Some (initial_timing r)
        /\ same_settings r r1
        /\ encoder r1 = encoder (fst (init P r))
        /\ download r1 = download r
        /\ startTime r1 = Some (now P)
        /\ (exists file,
              getDefaultFileName P
                (with_startTime (fst (init P r)) (Some (now P)))
                (enc_extension (encoder (fst (init P r))))
              = Normal file
              /\ filename r1
                 = (if falsy_string (filename r) then Some file
                    else filename r))
        /\ trace r1 = trace (fst (init P r)) ++ [StatusChange Recording]
  end.
Proof.
  pose proof (init_cases r) as (Hs & Ht & Hc).
  pose proof (init_trace r) as (_ & _ & Hfile & Hdl & _).
  cbv zeta in *.
  unfold start, bind, this, assign, updateStatus. cbv beta iota zeta.
  destruct (init P r) as [r0 [[]|err]]; cbn [fst snd] in *; [|reflexivity].
  destruct Hc as [(_ & _ & e & He) | (Hst & _ & _)]; [discriminate|].
  rewrite Hst, status_eqb_refl. cbn [negb].
  unfold lift, ret, getDefaultFileName, map_completion.
  cbn [startTime filename with_startTime]. rewrite Hfile.
  destruct (falsy_string (filename r));
    (eexists; split; [reflexivity|]); cbn;
    repeat (split; [first [reflexivity | assumption | apply Hs]|]);
    (split; [eexists; split; [reflexivity | first [reflexivity | exact Hfile]]
            | reflexivity]).
Qed.

Lemma dispose_trace (r : Rec) :
  let r' := fst (dispose P r) in
  let result := encoder_dispose P (encoder r) in
  snd (dispose P r) = snd result
  /\ encoder r' = fst result
  /\ trace r' = trace r ++ [EncoderDispose].
Proof.
  cbv zeta. run. cbn [encoder emit].
  destruct (encoder_dispose P _) as [e' c]; cbn [fst snd].
  repeat split.
Qed.

Lemma stop_delta (r : Rec) :
  status r = Recording ->
  download (fst (stop P r)) = download r
  /\ exists d, trace (fst (stop P r)) = trace r ++ d
               /\ stop_events (download r) d.
Proof.
  intros E. destruct (stop_trace r E) as (_ & _ & Hdl & H). cbv zeta in H.
  split; [exact Hdl|].
  destruct (snd (encoder_stop P (encoder r))) as [buffer|err].
  - destruct H as (_ & _ & ->). eexists. split; [reflexivity|].
    unfold download_of. destruct buffer as [a|].
    + apply (stop_done (download r) (filename r) _ (Some a)).
    + apply (stop_done (download r) None None None).
  - destruct H as (_ & _ & ->). eexists. split; [reflexivity|].
    apply stop_failed.
Qed.

Lemma step_delta (r : Rec) :
  download (fst (step P r)) = download r
  /\ exists d, trace (fst (step P r)) = trace r ++ d
               /\ step_events (download r) d.
Proof.
  destruct (status_eqb_spec (status r) Recording) as [E|E];
    [destruct (frame_lt_frameTotal r) eqn:L|].
  - unfold frame_lt_frameTotal in L.
    destruct (timing r) as [t|] eqn:Ht; [|discriminate].
    assert (L' : frame_lt_frameTotal r = true).
    { unfold frame_lt_frameTotal. now rewrite Ht. }
    pose proof (step_trace r t E Ht L') as H. cbv zeta in H.
    destruct (snd (getFrame P (frameMethod (encoder r)) r)) as [f|err].
    + destruct H as (_ & _ & _ & _ & Hdl & -> & _). split; [exact Hdl|].
      eexists. split; [reflexivity | apply step_encoded].
    + rewrite H. cbn [fst]. split; [reflexivity|].
      exists []. split; [now rewrite app_nil_r | apply step_nothing].
  - rewrite (step_is_stop r (or_intror L)). cbn [fst].
    destruct (stop_delta r E) as (Hdl & d & Hd & Hev). split; [exact Hdl|].
    exists d. split; [exact Hd | now apply step_stopped].
  - rewrite (step_is_stop r (or_introl E)). cbn [fst].
    destruct (stop_cases r) as (_ & _ & [(_ & ->) | [(H & _) | (H & _)]]);
      try contradiction.
    split; [reflexivity|].
    exists []. split; [now rewrite app_nil_r | apply step_nothing].
Qed.

(** Every call appends to the trace, and what it appends has one of the
    shapes of its method; no call changes [download]. *)
Lemma perform_events (c : Call) (r : Rec) :
  download (perform P c r) = download r
  /\ exists d, trace (perform P c r) = trace r ++ d /\ call_events P r c d.
Proof.
  destruct c; cbn [perform].
  - destruct (init_trace r) as (_ & _ & _ & Hdl & Ht). cbv zeta in *.
    split; [exact Hdl|]. eexists. split; [exact Ht|].
    apply events_init.
    destruct (snd (encoder_init P _ _)); [apply init_done | apply init_failed].
  - pose proof (start_trace r) as Hs.
    destruct (init_trace r) as (Hsnd & _ & _ & Hdl & Ht). cbv zeta in *.
    rewrite Hsnd in Hs.
    destruct (snd (encoder_init P _ _)) as [[]|err].
    + destruct Hs as (r1 & -> & _ & _ & _ & _ & Hdl1 & _ & _ & Ht1).
      destruct (step_delta r1) as (Hdl' & d & Hd & Hev).
      split; [congruence|].
      rewrite Hdl1 in Hev.
      eexists. split; [|exact (events_start P r d Hev)].
      rewrite Hd, Ht1, Ht.
      repeat (progress (rewrite <- ?app_assoc; cbn [app])). reflexivity.
    + rewrite Hs. cbn [fst]. split; [exact Hdl|].
      eexists. split; [exact Ht | apply events_start_failed].
  - destruct (step_delta r) as (Hdl & d & Hd & Hev). split; [exact Hdl|].
    exists d. split; [exact Hd | now apply events_step].
  - destruct (status_eqb_spec (status r) Recording) as [E|E].
    + destruct (stop_delta r E) as (Hdl & d & Hd & Hev). split; [exact Hdl|].
      exists d. split; [exact Hd | now apply events_stop].
    + destruct (stop_cases r) as (_ & _ & [(_ & ->) | [(H & _) | (H & _)]]);
        try contradiction.
      split; [reflexivity|].
      exists []. split; [now rewrite app_nil_r | apply events_stop_nothing].
  - destruct (dispose_trace r) as (_ & _ & Ht). split.
    + unfold dispose, call_encoder.
      destruct (encoder_dispose P _); reflexivity.
    + eexists. split; [exact Ht | apply events_dispose].
  - split; [reflexivity|]. exists []. split;
      [now cbn; rewrite app_nil_r | apply events_set_width].
  - split; [reflexivity|]. exists []. split;
      [now cbn; rewrite app_nil_r | apply events_set_height].
Qed.

(** ** Counting encoder calls *)

Lemma tally_extension_warning (kind : Event EncoderOptions -> bool)
  (r : Rec) :
  (forall msg, kind (ConsoleWarn msg) = false) ->
  tally kind (extension_warning r) = 0%nat.
Proof.
  intros H. unfold extension_warning, tally.
  destruct (includes _ _); [reflexivity|]. cbn [filter]. now rewrite H.
Qed.

Lemma tally_cons (kind : Event EncoderOptions -> bool)
  (e : Event EncoderOptions) (tr : list (Event EncoderOptions)) :
  tally kind (e :: tr) = ((if kind e then 1 else 0) + tally kind tr)%nat.
Proof. unfold tally. cbn [filter]. now destruct (kind e). Qed.

Lemma tally_nil (kind : Event EncoderOptions -> bool) : tally kind [] = 0%nat.
Proof. reflexivity. Qed.

Ltac count_events :=
  repeat match goal with
         | |- context [match ?b with Some _ => _ | None => _ end] =>
             destruct b
         end;
  repeat match goal with
         | |- context [if download ?r then _ else _] =>
             destruct (download r) eqn:?
         end;
  repeat (rewrite ?tally_app, ?tally_cons, ?tally_nil,
            ?tally_extension_warning by reflexivity);
  cbn [is_encoder_init is_encoder_stop is_download
       is_encoder_encode is_encoder_dispose is_status
       status_eqb Stopping Stopped Initializing
       Initialized Recording member RecorderStatus
       String.eqb Ascii.eqb Bool.eqb Z.eqb Pos.eqb Nat.add].

Ltac shapes :=
  repeat match goal with
         | H : call_events _ _ _ _ |- _ => destruct H
         | H : init_events _ _ _ |- _ => destruct H
         | H : step_events _ _ |- _ => destruct H
         | H : stop_events _ _ |- _ => destruct H
         end.

Lemma call_events_inits (r : Rec) (c : Call) (d : list (Event EncoderOptions)) :
  call_events P r c d ->
  tally is_encoder_init d = if runs_init c then 1%nat else 0%nat.
Proof.
  intros H. shapes; cbn [runs_init]; count_events; reflexivity.
Qed.

Lemma call_events_stops (r : Rec) (c : Call) (d : list (Event EncoderOptions)) :
  call_events P r c d ->
  tally is_encoder_stop d = tally (is_status Stopping) d.
Proof.
  intros H. shapes; count_events; reflexivity.
Qed.

Lemma call_events_downloads (r : Rec) (c : Call)
  (d : list (Event EncoderOptions)) :
  call_events P r c d ->
  (tally is_download d <= tally (is_status Stopped) d)%nat
  /\ (download r = false -> tally is_download d = 0%nat).
Proof.
  intros H. shapes; count_events;
    (split; [lia | first [reflexivity | congruence]]).
Qed.

Lemma tally_statuses (s : Status) (tr : list (Event EncoderOptions)) :
  tally (is_status s) tr
  = List.length (filter (fun x => status_eqb x s) (statuses tr)).
Proof.
  unfold tally. induction tr as [|e tr IH]; [reflexivity|].
  destruct e; cbn [filter is_status statuses]; try exact IH.
  destruct (status_eqb s0 s); cbn [List.length]; now rewrite IH.
Qed.

(** X1. Whatever the state and whatever is called, [encoder.init] is
    called exactly once per call of [start()] or [init()], and by nothing
    else. *)
Theorem encoder_init_once_per_init (calls : list Call) :
  forall r : Rec,
    tally is_encoder_init (trace (execute P calls r))
    = (tally is_encoder_init (trace r) + init_calls calls)%nat.
Proof.
  induction calls as [|c calls IH]; intros r.
  - unfold init_calls. cbn. lia.
  - cbn [execute fold_left]. fold (execute P calls (perform P c r)).
    rewrite IH.
    destruct (perform_events c r) as (_ & d & -> & Hev).
    rewrite tally_app, (call_events_inits r c d Hev).
    unfold init_calls. cbn [filter].
    destruct (runs_init c); cbn [List.length]; lia.
Qed.

Lemma execute_stops_reported (calls : list Call) :
  forall r : Rec,
    (tally is_encoder_stop (trace (execute P calls r))
     + tally (is_status Stopping) (trace r)
     = tally (is_status Stopping) (trace (execute P calls r))
       + tally is_encoder_stop (trace r))%nat.
Proof.
  induction calls as [|c calls IH]; intros r; [cbn; lia|].
  cbn [execute fold_left]. fold (execute P calls (perform P c r)).
  specialize (IH (perform P c r)).
  destruct (perform_events c r) as (_ & d & Hd & Hev).
  rewrite Hd in IH. rewrite !tally_app in IH.
  rewrite (call_events_stops r c d Hev) in IH. lia.
Qed.

Lemma execute_downloads_reported (calls : list Call) :
  forall r : Rec,
    (tally is_download (trace (execute P calls r))
     + tally (is_status Stopped) (trace r)
     <= tally (is_status Stopped) (trace (execute P calls r))
        + tally is_download (trace r))%nat.
Proof.
  induction calls as [|c calls IH]; intros r; [cbn; lia|].
  cbn [execute fold_left]. fold (execute P calls (perform P c r)).
  specialize (IH (perform P c r)).
  destruct (perform_events c r) as (_ & d & Hd & Hev).
  rewrite Hd in IH. rewrite !tally_app in IH.
  pose proof (proj1 (call_events_downloads r c d Hev)). lia.
Qed.

Lemma tally_status_phase (k : nat) (r : Rec) :
  (1 <= k <= 6)%nat -> in_phase k r ->
  (tally (is_status Stopping) (trace r) <= 1)%nat
  /\ (tally (is_status Stopped) (trace r)
      <= tally (is_status Stopping) (trace r))%nat.
Proof.
  intros Hk [Ho _]. rewrite !tally_statuses. fold (observed r). rewrite Ho.
  destruct (phase_cases k Hk) as [->|[->|[->|[->|[->| ->]]]]]; cbn; lia.
Qed.

(** X2. On one instance on which [init] runs at most once, whatever else
    is called and whatever the encoder does, [encoder.stop] is called at
    most once and at most one download is triggered. *)
Theorem encoder_stop_at_most_once (ctx : Context)
  (options : RecorderOptions EncoderData EncoderOptions)
  (calls : list Call) :
  (init_calls calls <= 1)%nat ->
  let r := execute P calls (new_Recorder P ctx options) in
  (tally is_encoder_stop (trace r) <= 1)%nat
  /\ (tally is_download (trace r) <= tally is_encoder_stop (trace r))%nat.
Proof.
  intros Hn r.
  destruct (execute_phase calls _ Hn (new_Recorder_phase ctx options))
    as (k & Hk & Hp).
  fold r in Hp.
  pose proof (tally_status_phase k r Hk Hp) as (H1 & H2).
  pose proof (execute_stops_reported calls (new_Recorder P ctx options)) as Hs.
  pose proof (execute_downloads_reported calls (new_Recorder P ctx options))
    as Hd.
  fold r in Hs, Hd.
  change (tally (is_status Stopping) (trace (new_Recorder P ctx options)))
    with 0%nat in Hs.
  change (tally is_encoder_stop (trace (new_Recorder P ctx options)))
    with 0%nat in Hs.
  change (tally (is_status Stopped) (trace (new_Recorder P ctx options)))
    with 0%nat in Hd.
  change (tally is_download (trace (new_Recorder P ctx options)))
    with 0%nat in Hd.
  split; lia.
Qed.

(** X3. With [download] off, no call ever triggers a download, whatever
    the encoder returns and however often the recorder is restarted. *)
Theorem download_off_never_downloads (calls : list Call) :
  forall r : Rec,
    download r = false ->
    tally is_download (trace (execute P calls r))
    = tally is_download (trace r)
    /\ download (execute P calls r) = false.
Proof.
  induction calls as [|c calls IH]; intros r Hdl; [split; trivial|].
  cbn [execute fold_left]. fold (execute P calls (perform P c r)).
  destruct (perform_events c r) as (Hdl' & d & Hd & Hev).
  destruct (IH (perform P c r)) as (-> & ->); [congruence|].
  split; [|reflexivity].
  rewrite Hd, tally_app.
  rewrite (proj2 (call_events_downloads r c d Hev) Hdl). lia.
Qed.

(** X4. Outside [Recording] only [start()] and [init()] move the session:
    after any other calls the status, the timing members and everything
    observed are as before, except that each [dispose()] has reached the
    encoder. *)
Theorem idle_session_is_inert (calls : list Call) :
  forall r : Rec,
    status r <> Recording -> init_calls calls = 0%nat ->
    let r' := execute P calls r in
    status r' = status r /\ timing r' = timing r
    /\ filter (fun e => negb (is_encoder_dispose e)) (trace r')
       = filter (fun e => negb (is_encoder_dispose e)) (trace r).
Proof.
  induction calls as [|c calls IH]; intros r Hs Hn; [repeat split|].
  unfold init_calls in Hn. cbn [filter] in Hn.
  destruct (runs_init c) eqn:Hc; [discriminate|].
  cbn [execute fold_left]. fold (execute P calls (perform P c r)).
  assert (Hstep : status (perform P c r) = status r
                  /\ timing (perform P c r) = timing r
                  /\ filter (fun e => negb (is_encoder_dispose e))
                       (trace (perform P c r))
                     = filter (fun e => negb (is_encoder_dispose e))
                         (trace r)).
  { destruct c; try discriminate; cbn [perform].
    - rewrite (step_is_stop r (or_introl Hs)). cbn [fst].
      destruct (stop_cases r) as (_ & _ & [(_ & ->) | [(H & _) | (H & _)]]);
        try contradiction. repeat split.
    - destruct (stop_cases r) as (_ & _ & [(_ & ->) | [(H & _) | (H & _)]]);
        try contradiction. repeat split.
    - destruct (dispose_keeps r) as (_ & Ht & Hst & _).
      destruct (dispose_trace r) as (_ & _ & Htr).
      repeat split; try assumption.
      rewrite Htr, filter_app. cbn. apply app_nil_r.
    - repeat split.
    - repeat split. }
  destruct Hstep as (Hst & Ht & Htr).
  destruct (IH (perform P c r)) as (-> & -> & ->);
    [congruence | exact Hn |].
  repeat split; assumption.
Qed.

(** ** The frames of a recording *)

Lemma indices_S (first : Z) (count : nat) :
  indices first (S count) = first :: indices (first + 1) count.
Proof.
  unfold indices. cbn [seq map]. f_equal; [lia|].
  rewrite <- seq_shift, map_map. apply map_ext. intros i. lia.
Qed.

Lemma encoded_download_of (r : Rec) (mime : option string)
  (buffer : option Artifact) :
  encoded (download_of r mime buffer) = [].
Proof.
  unfold download_of. destruct buffer; [destruct (download r)|]; reflexivity.
Qed.

Lemma recording_run_indices (q : Q) :
  forall (m : nat) (r : Rec) (t : Timing),
    status r = Recording -> timing r = Some t -> frameTotal t = Fin q ->
    (frame t + Z.of_nat m = Qceiling q)%Z ->
    resolves P (repeat CallStep (S m)) r ->
    encoded (trace (execute P (repeat CallStep (S m)) r))
    = encoded (trace r) ++ indices (frame t) m.
Proof.
  induction m as [|m IH]; intros r t Hs Ht Hq Hm Hres.
  - cbn [repeat execute fold_left perform resolves outcome] in *.
    assert (Hlt : frame_lt_frameTotal r = false).
    { apply (frame_lt_at_ceiling t r q); try assumption. lia. }
    rewrite (step_is_stop r (or_intror Hlt)). cbn [fst].
    destruct (stop_trace r Hs) as (_ & _ & _ & H). cbv zeta in H.
    destruct (snd (encoder_stop P (encoder r))).
    + destruct H as (_ & _ & ->).
      rewrite encoded_app. cbn [encoded].
      rewrite encoded_app, encoded_download_of. cbn.
      reflexivity.
    + destruct H as (_ & _ & ->). rewrite encoded_app. reflexivity.
  - change (repeat CallStep (S (S m))) with (CallStep :: repeat CallStep (S m))
      in *.
    cbn [execute fold_left perform resolves outcome] in *.
    destruct Hres as (Hres & Hrest).
    assert (Hlt : frame_lt_frameTotal r = true).
    { apply (frame_lt_below_ceiling t r q); try assumption. lia. }
    pose proof (step_trace r t Hs Ht Hlt) as H. cbv zeta in H.
    destruct (snd (getFrame P (frameMethod (encoder r)) r)) as [f|err].
    + destruct H as (Hsnd & _ & Hs' & _ & _ & Htr & Ht').
      rewrite Hres in Hsnd. rewrite <- Hsnd in Ht'.
      fold (execute P (repeat CallStep (S m)) (fst (step P r))).
      rewrite (IH (fst (step P r)) (advance t)); try assumption.
      * rewrite Htr, encoded_app, indices_S, <- app_assoc. reflexivity.
      * cbn [advance frame]. lia.
    + rewrite H in Hres. discriminate.
Qed.

(** X5. For a duration from 0 and a positive frame rate, both doubles,
    whose double product is a finite number up to 2^53, a recording in which
    every call resolves hands to [encoder.encode] the frame indices 0, 1,
    ... up to the frame count (the least whole number that is at least that
    product), each once and in this order, and nothing else. *)
Theorem full_recording_frame_indices (r : Rec) (total : Q) :
  valid_duration (duration r) -> valid_frameRate (frameRate r) ->
  is_double (duration r) -> is_double (frameRate r) ->
  num_mul (duration r) (frameRate r) = Fin total ->
  (total <= inject_Z (2 ^ 53))%Q ->
  let n := Z.to_nat (Qceiling total) in
  resolves P (CallStart :: repeat CallStep n) r ->
  encoded (trace (execute P (CallStart :: repeat CallStep n) r))
  = encoded (trace r) ++ indices 0 n.
Proof.
  intros Hvd Hvf _ _ Htotal _ n Hres.
  pose proof (frameTotal_nonneg _ _ _ Hvd Hvf Htotal) as Hq.
  assert (Hq0 : (0 <= Qceiling total)%Z).
  { change 0%Z with (Qceiling 0). now apply Qceiling_resp_le. }
  cbn [resolves outcome] in Hres. destruct Hres as (Hstart & Hrest).
  cbn [execute fold_left perform] in *.
  pose proof (start_trace r) as Hst.
  destruct (init_trace r) as (Hsnd & _ & _ & _ & Htr). cbv zeta in *.
  destruct (snd (init P r)) as [[]|err] eqn:Hinit.
  - destruct Hst as (r1 & Heq & Hs1 & Ht1 & _ & _ & _ & _ & _ & Htr1).
    assert (Htot : frameTotal (initial_timing r) = Fin total).
    { unfold initial_timing. cbn [frameTotal]. exact Htotal. }
    pose proof (recording_run_indices total n r1 (initial_timing r)
                  Hs1 Ht1 Htot) as Hrun.
    cbn [repeat execute fold_left perform resolves outcome] in Hrun.
    rewrite <- Heq in Hrun.
    rewrite Hrun.
    + rewrite Htr1, Htr, <- Hsnd.
      repeat (rewrite encoded_app; cbn [encoded]).
      unfold extension_warning.
      destruct (includes _ _); cbn [encoded app]; now rewrite !app_nil_r.
    + cbn [initial_timing frame]. unfold n. lia.
    + split; assumption.
  - rewrite Hst in Hstart. discriminate.
Qed.

Lemma app_one_not_self {A} (l : list A) (x : A) : l <> l ++ [x].
Proof.
  intros H. apply (f_equal (@List.length A)) in H.
  rewrite length_app in H. cbn in H. lia.
Qed.

Lemma getFrame_videoFrame (r : Rec) (t : Timing) :
  timing r = Some t ->
  snd (getFrame P (Some "videoFrame"%string) r)
  = map_completion
      (fun h => VideoFrame h (num_mul (time t) (num_of_Z 1000000)))
      (new_VideoFrame P (canvas (context r))
         (num_mul (time t) (num_of_Z 1000000))).
Proof.
  intros Ht. unfold getFrame, bind, this, lift. cbv beta iota.
  cbn [is_method String.eqb Ascii.eqb Bool.eqb]. now rewrite Ht.
Qed.

(** X6. After [init()], in a run of fewer than 2^53 calls, whenever
    [step()] hands a frame to an encoder whose frame method is [videoFrame],
    the frame is a video frame stamped with the time of its index in
    microseconds: the double [1 / frameRate] added index times to 0, each
    sum rounded to a double, and the result multiplied by 1000000. *)
Theorem videoFrame_timestamps (r0 : Rec) (c : Call) (calls : list Call)
  (f : Frame) (i : Z) :
  is_double (frameRate r0) ->
  runs_init c = true ->
  (Z.of_nat (List.length calls) < 2 ^ 53)%Z ->
  let r := execute P (c :: calls) r0 in
  frameMethod (encoder r) = Some "videoFrame"%string ->
  trace (fst (step P r)) = trace r ++ [EncoderEncode f i] ->
  (0 <= i)%Z
  /\ exists handle,
       f = VideoFrame handle
             (num_mul
                (accumulate (num_div (num_of_Z 1) (frameRate r0))
                   (Z.to_nat i))
                (num_of_Z 1000000)).
Proof.
  intros _ Hc _. cbv zeta.
  change (execute P (c :: calls) r0) with (execute P calls (perform P c r0)).
  destruct (perform_counted c r0 (or_intror Hc)) as (Hs & Hex).
  destruct (execute_counted calls (perform P c r0) Hex)
    as (Hs2 & t & Ht & Hcons).
  set (r := execute P calls (perform P c r0)) in *.
  assert (Hfr' : frameRate r = frameRate r0).
  { destruct Hs2 as (_ & -> & _). now destruct Hs as (_ & -> & _). }
  intros Hm Htr.
  destruct (status_eqb_spec (status r) Recording) as [E|E];
    [destruct (frame_lt_frameTotal r) eqn:L|].
  - pose proof (step_trace r t E Ht L) as H. cbv zeta in H.
    rewrite Hm, (getFrame_videoFrame r t Ht) in H.
    destruct (new_VideoFrame P _ _) as [h|err]; cbn [map_completion] in H.
    + destruct H as (_ & _ & _ & _ & _ & Htr' & _).
      rewrite Htr' in Htr. apply app_inv_head in Htr.
      injection Htr as <- <-.
      destruct Hcons as (Hdelta & Hpos & Htime).
      split; [exact Hpos|]. exists h.
      now rewrite Htime, Hdelta, Hfr'.
    + rewrite H in Htr. cbn [fst] in Htr.
      now apply app_one_not_self in Htr.
  - rewrite (step_is_stop r (or_intror L)) in Htr. cbn [fst] in Htr.
    destruct (stop_trace r E) as (_ & _ & _ & H). cbv zeta in H.
    destruct (snd (encoder_stop P (encoder r)));
      destruct H as (_ & _ & H); rewrite H in Htr;
      apply app_inv_head in Htr; discriminate.
  - rewrite (step_is_stop r (or_introl E)) in Htr. cbn [fst] in Htr.
    destruct (stop_cases r) as (_ & _ & [(_ & H) | [(H & _) | (H & _)]]);
      try contradiction.
    rewrite H in Htr. now apply app_one_not_self in Htr.
Qed.

(** X7. A [step()] that should encode a frame and rejects, because the
    frame could not be acquired or because [encoder.encode] threw, leaves
    the session [Recording] with [frame] and [time] where they were, so the
    next [step()] is for the same frame index; when the frame could not be
    acquired the encoder is not called at all. *)
Theorem rejected_step_keeps_playhead (r : Rec) (t : Timing) (err : string) :
  status r = Recording -> timing r = Some t ->
  frame_lt_frameTotal r = true ->
  snd (step P r) = Throw err ->
  let r' := fst (step P r) in
  status r' = Recording /\ timing r' = Some t
  /\ frame_lt_frameTotal r' = true
  /\ observed r' = observed r
  /\ (forall e, snd (getFrame P (frameMethod (encoder r)) r) = Throw e ->
              r' = r /\ e = err).
Proof.
  intros E Ht L Hthrow. cbv zeta.
  pose proof (step_trace r t E Ht L) as H. cbv zeta in H.
  destruct (snd (getFrame P (frameMethod (encoder r)) r)) as [f|e].
  - destruct H as (Hsnd & _ & Hs & _ & _ & Htr & Ht').
    rewrite Hthrow in Hsnd. rewrite <- Hsnd in Ht'.
    repeat split; try assumption.
    + unfold frame_lt_frameTotal in *. rewrite Ht'. now rewrite Ht in L.
    + unfold observed. rewrite Htr, statuses_app. cbn. apply app_nil_r.
    + discriminate.
    + discriminate.
  - rewrite H in *. cbn [fst snd] in *.
    split; [exact E|]. split; [exact Ht|]. split; [exact L|].
    split; [reflexivity|].
    intros e' He. split; [reflexivity | congruence].
Qed.

(** X8. When [encoder.init] throws, [start()] rejects with the same error;
    the session has reported [Initializing] and nothing more, no frame has
    been encoded, and it stays there: [step()] and [stop()] do nothing. *)
Theorem failed_init_fails_start (r : Rec) (err : string) :
  snd (encoder_init P (init_config P r) (encoder r)) = Throw err ->
  let r' := fst (start P r) in
  snd (start P r) = Throw err
  /\ status r' = Initializing
  /\ observed r' = observed r ++ [Initializing]
  /\ encoded (trace r') = encoded (trace r)
  /\ step P r' = (r', Normal tt)
  /\ stop P r' = (r', Normal None).
Proof.
  intros Herr. cbv zeta.
  pose proof (start_trace r) as Hst.
  destruct (init_trace r) as (Hsnd & _ & _ & _ & Htr). cbv zeta in *.
  destruct (init_cases r) as (_ & _ & Hc). cbv zeta in Hc.
  rewrite Herr in Hsnd, Htr. rewrite Hsnd in Hst, Hc. rewrite Hst.
  cbn [fst snd].
  destruct Hc as [(Hs & Ho & _) | (_ & _ & ?)]; [|discriminate].
  assert (Hn : status (fst (init P r)) <> Recording).
  { rewrite Hs. discriminate. }
  assert (Hstop : stop P (fst (init P r)) = (fst (init P r), Normal None)).
  { unfold stop, bind, this, ret. cbv beta iota.
    now rewrite (status_eqb_neq _ _ Hn). }
  repeat split; try assumption.
  - rewrite Htr, encoded_app. cbn [encoded].
    rewrite encoded_app. unfold extension_warning.
    destruct (includes _ _); cbn; now rewrite !app_nil_r.
  - rewrite (step_is_stop _ (or_introl Hn)), Hstop. reflexivity.
Qed.

(** X9. When [encoder.stop] throws, [stop()] rejects with the same error
    after reporting [Stopping]; [Stopped] is not reported, nothing is
    downloaded, and the session stays in [Stopping]: a further [stop()]
    returns [undefined] without calling the encoder again, and [step()]
    does nothing. *)
Theorem failed_stop_is_final (r : Rec) (err : string) :
  status r = Recording ->
  snd (encoder_stop P (encoder r)) = Throw err ->
  let r' := fst (stop P r) in
  snd (stop P r) = Throw err
  /\ status r' = Stopping
  /\ trace r' = trace r ++ [StatusChange Stopping; EncoderStop]
  /\ stop P r' = (r', Normal None)
  /\ step P r' = (r', Normal tt).
Proof.
  intros E Herr. cbv zeta.
  destruct (stop_trace r E) as (_ & _ & _ & H). cbv zeta in H.
  rewrite Herr in H. destruct H as (Hsnd & Hs & Htr).
  assert (Hn : status (fst (stop P r)) <> Recording).
  { rewrite Hs. discriminate. }
  assert (Hstop : stop P (fst (stop P r)) = (fst (stop P r), Normal None)).
  { unfold stop at 1, bind, this, ret. cbv beta iota.
    now rewrite (status_eqb_neq _ _ Hn). }
  repeat split; try assumption.
  rewrite (step_is_stop _ (or_introl Hn)), Hstop. reflexivity.
Qed.

(** X10. Whenever the encoder supports at least one extension, the
    extension [init()] passes to [encoder.init] is one the encoder
    supports, and what is passed as the MIME type is the member of the table
    of that name: the MIME type of [mkv], [webm], [mp4] or [gif], the
    inherited member when the extension names one of [Object.prototype],
    and [undefined] for every other extension. *)
Theorem init_passes_supported_extension (r : Rec) :
  supportedExtensions (encoder r) <> [] ->
  exists ext,
    cfg_extension (init_config P r) = Some ext
    /\ In ext (supportedExtensions (encoder r))
    /\ (forall mime, In (ext, mime) mimeTypes ->
          cfg_mimeType (init_config P r) = Own mime)
    /\ (In ext object_prototype ->
        cfg_mimeType (init_config P r) = Inherited ext)
    /\ ((forall mime, ~ In (ext, mime) mimeTypes) ->
        ~ In ext object_prototype ->
        cfg_mimeType (init_config P r) = Undefined)
    /\ In (EncoderInit (init_config P r)) (trace (fst (init P r)))
    /\ tally is_encoder_init (trace (fst (init P r)))
       = S (tally is_encoder_init (trace r)).
Proof.
  intros Hne.
  assert (Hex : exists ext, resolved_extension r = Some ext
                            /\ In ext (supportedExtensions (encoder r))).
  { unfold resolved_extension.
    destruct (includes _ _) eqn:Hinc.
    - exists (extension r). split; [reflexivity|].
      now apply includes_In.
    - destruct (supportedExtensions (encoder r)) as [|e rest];
        [contradiction|].
      exists e. split; [reflexivity | now left]. }
  destruct Hex as (ext & Hres & Hin).
  exists ext. cbn [init_config cfg_extension cfg_mimeType].
  rewrite Hres. cbn [show_opt].
  destruct (init_trace r) as (_ & _ & _ & _ & Htr). cbv zeta in Htr.
  split; [reflexivity|]. split; [exact Hin|].
  split; [|split; [|split; [|split]]].
  - intros mime Hm. cbn [mimeTypes In] in Hm.
    destruct Hm as [Hm | [Hm | [Hm | [Hm | []]]]];
      injection Hm as <- <-; reflexivity.
  - intros Hp. cbn [object_prototype In] in Hp.
    repeat (destruct Hp as [<- | Hp]; [reflexivity|]). contradiction.
  - intros Hown Hp. unfold get_property.
    destruct (lookup mimeTypes ext) as [mime|] eqn:Hl.
    + exfalso. apply (Hown mime). clear - Hl.
      cbn [mimeTypes lookup] in Hl.
      repeat match type of Hl with
             | context [String.eqb ?k ext] =>
                 let E := fresh "E" in
                 destruct (String.eqb k ext) eqn:E; try rewrite E in Hl;
                   cbv iota in Hl;
                   [apply String.eqb_eq in E; subst ext;
                    injection Hl as <-; cbn [In mimeTypes];
                    repeat (first [left; reflexivity | right])|]
             end.
      discriminate.
    + destruct (includes object_prototype ext) eqn:Hi; [|reflexivity].
      apply includes_In in Hi. contradiction.
  - rewrite Htr. apply in_or_app. right. right.
    apply in_or_app. right. now left.
  - rewrite Htr. count_events;
      destruct (snd (encoder_init P _ _)); count_events; lia.
Qed.

(** ** More on the pixel path *)

Lemma written_full (a data : list byte) :
  List.length data = List.length a -> written a data = data.
Proof.
  intros H. unfold written. rewrite H, skipn_all, app_nil_r.
  rewrite <- H. apply firstn_all.
Qed.

Lemma rows_bytewise (a b : list byte) (row h : Z) :
  0 < row -> 0 <= h -> len a = row * h -> len b = row * h ->
  (forall j, 0 <= j < h ->
     subarray a (j * row) (j * row + row)
     = subarray b ((h - 1 - j) * row) ((h - 1 - j) * row + row)) ->
  forall j c, 0 <= j < h -> 0 <= c < row ->
    nth_error a (Z.to_nat (j * row + c))
    = nth_error b (Z.to_nat ((h - 1 - j) * row + c)).
Proof.
  intros Hrow Hh Ha Hb Hrows j c Hj Hc.
  pose proof (f_equal (fun l => nth_error l (Z.to_nat c)) (Hrows j Hj)) as H.
  cbv beta in H.
  rewrite !nth_error_subarray in H by nia.
  destruct (Z.ltb_spec (Z.of_nat (Z.to_nat c)) (j * row + row - j * row));
    [|lia].
  destruct (Z.ltb_spec (Z.of_nat (Z.to_nat c))
              ((h - 1 - j) * row + row - (h - 1 - j) * row)); [|lia].
  rewrite <- !Z2Nat.inj_add in H by nia. exact H.
Qed.

Lemma bytewise_ext (a b : list byte) (row h : Z) :
  0 < row -> 0 <= h -> len a = row * h -> len b = row * h ->
  (forall j c, 0 <= j < h -> 0 <= c < row ->
     nth_error a (Z.to_nat (j * row + c))
     = nth_error b (Z.to_nat (j * row + c))) ->
  a = b.
Proof.
  intros Hrow Hh Ha Hb H. apply nth_error_ext. intros n.
  destruct (Nat.lt_ge_cases n (List.length a)) as [Hn | Hn].
  - assert (Hi : 0 <= Z.of_nat n < row * h) by (unfold len in Ha; lia).
    pose proof (Z.div_mod (Z.of_nat n) row ltac:(lia)) as Hdm.
    pose proof (Z.mod_pos_bound (Z.of_nat n) row Hrow) as Hmod.
    assert (Hq : 0 <= Z.of_nat n / row < h).
    { split; [apply Z.div_pos; lia|].
      apply Z.div_lt_upper_bound; lia. }
    specialize (H (Z.of_nat n / row) (Z.of_nat n mod row) Hq Hmod).
    replace (Z.of_nat n / row * row + Z.of_nat n mod row) with (Z.of_nat n)
      in H by lia.
    now rewrite Nat2Z.id in H.
  - assert (Hn' : (List.length b <= n)%nat) by (unfold len in *; lia).
    apply nth_error_None in Hn, Hn'. congruence.
Qed.

(** X11. Flipping is its own inverse: when the frame produced from one
    drawing buffer is what a second drawing buffer of the same size reads
    back, the frame produced from the second one is the first buffer's
    data. *)
Theorem flipping_twice_restores
  (P' : Platform EncoderData EncoderOptions) (ctx ctx' : Context)
  (width height : Z) (data flipped : list byte) :
  0 < width -> 0 <= height -> len data = width * height * 4 ->
  readPixels P ctx 0 0 width height = Normal data ->
  flipped_pixels P ctx width height = Normal flipped ->
  readPixels P' ctx' 0 0 width height = Normal flipped ->
  flipped_pixels P' ctx' width height = Normal data.
Proof.
  intros Hw Hh Hlen Hread Hflip Hread'.
  assert (HL : width * height * 4 = width * 4 * height) by ring.
  assert (H0 : 0 <= width * height * 4) by nia.
  destruct (flipped_pixels_rows ctx width height data Hw Hh Hread)
    as (f1 & Hf1 & Hl1 & Hr1).
  rewrite Hflip in Hf1. injection Hf1 as <-.
  assert (Hwd : written (zeros (width * height * 4)) data = data).
  { apply written_full. unfold len, zeros in *. rewrite repeat_length. lia. }
  rewrite Hwd in Hl1, Hr1.
  assert (Hwf : written (zeros (width * height * 4)) flipped = flipped).
  { apply written_full. unfold len, zeros in *. rewrite repeat_length. lia. }
  unfold flipped_pixels in *.
  destruct (Z.ltb_spec (width * height * 4) 0); [lia|].
  rewrite Hread'. rewrite Hwf.
  destruct (flip_loop_rows flipped (width * 4) height ltac:(lia) Hh
              ltac:(lia) (Z.to_nat height) 0
              (S (Z.to_nat (width * height * 4)))
              (zeros (width * height * 4)))
    as (out & Hout & Hlo & Hro).
  - lia.
  - lia.
  - nia.
  - rewrite len_zeros; lia.
  - intros j Hj. lia.
  - cbn [Z.mul] in Hout. rewrite <- HL in Hout. rewrite Hout.
    f_equal.
    apply (bytewise_ext out data (width * 4) height); try lia.
    intros j c Hj Hc.
    rewrite (rows_bytewise out flipped (width * 4) height) by
      (try lia; assumption).
    rewrite (rows_bytewise flipped data (width * 4) height) by
      (try lia; assumption).
    repeat f_equal. lia.
Qed.

(** X12. The edges of the pixel path: a drawing buffer of height 0 gives
    an empty frame, and one of height 1 gives its single row unchanged. *)
Theorem flipped_pixels_edges (ctx : Context) (width : Z) (data : list byte) :
  0 < width ->
  (readPixels P ctx 0 0 width 0 = Normal data ->
   flipped_pixels P ctx width 0 = Normal [])
  /\ (readPixels P ctx 0 0 width 1 = Normal data ->
      len data = width * 4 ->
      flipped_pixels P ctx width 1 = Normal data).
Proof.
  intros Hw. split.
  - intros Hread.
    destruct (flipped_pixels_rows ctx width 0 data Hw ltac:(lia) Hread)
      as (f & -> & Hl & _).
    rewrite len_written in Hl. replace (width * 0 * 4) with 0 in Hl by lia.
    cbn in Hl. destruct f; [reflexivity | cbn in Hl; lia].
  - intros Hread Hlen.
    destruct (flipped_pixels_rows ctx width 1 data Hw ltac:(lia) Hread)
      as (f & -> & Hl & Hr).
    assert (Hwd : written (zeros (width * 1 * 4)) data = data).
    { apply written_full. unfold len, zeros in *. rewrite repeat_length. lia. }
    rewrite Hwd in Hl, Hr. f_equal.
    apply (bytewise_ext f data (width * 4) 1); try lia.
    intros j c Hj Hc. assert (j = 0) by lia. subst j.
    rewrite (rows_bytewise f data (width * 4) 1) by (try lia; assumption).
    reflexivity.
Qed.

(** ** File names *)

Lemma string_append_assoc (a b c : string) :
  ((a ++ b) ++ c = a ++ (b ++ c))%string.
Proof. induction a as [|x a IH]; cbn; [reflexivity | now rewrite IH]. Qed.

Lemma truthy_append (a b : string) (c : ascii) :
  truthy_string (a ++ String c b) = true.
Proof. destruct a; reflexivity. Qed.

Lemma truthy_getParamString (r : Rec) :
  truthy_string (getParamString P r) = true.
Proof. unfold getParamString. apply truthy_append. Qed.

(** X13. The default file name is the recorder's name, the formatted
    start time and the parameter string joined by dashes, then a dot and
    the extension; an empty name is left out together with its dash, so the
    file name never starts with a dash. *)
Theorem default_file_name_shape (r : Rec) (d : Z) (ext : option string) :
  startTime r = Some d -> formatDate P d <> EmptyString ->
  getDefaultFileName P r ext
  = Normal
      ((if String.eqb (name r) EmptyString then EmptyString
        else name r ++ "-")
       ++ formatDate P d ++ "-" ++ getParamString P r
       ++ "." ++ show_opt ext)%string.
Proof.
  intros Hd Hf. unfold getDefaultFileName. rewrite Hd.
  cbn [map_completion]. f_equal.
  cbn [filter]. rewrite truthy_getParamString.
  assert (Ht : truthy_string (formatDate P d) = true).
  { unfold truthy_string. apply String.eqb_neq in Hf. now rewrite Hf. }
  rewrite Ht. unfold truthy_string.
  destruct (String.eqb (name r) EmptyString) eqn:E; cbn [negb join];
    rewrite !string_append_assoc; reflexivity.
Qed.

Lemma step_keeps_filename (r : Rec) :
  filename (fst (step P r)) = filename r.
Proof.
  destruct (status_eqb_spec (status r) Recording) as [E|E];
    [destruct (frame_lt_frameTotal r) eqn:L|].
  - unfold frame_lt_frameTotal in L.
    destruct (timing r) as [t|] eqn:Ht; [|discriminate].
    assert (L' : frame_lt_frameTotal r = true).
    { unfold frame_lt_frameTotal. now rewrite Ht. }
    pose proof (step_trace r t E Ht L') as H. cbv zeta in H.
    destruct (snd (getFrame P (frameMethod (encoder r)) r)).
    + apply H.
    + now rewrite H.
  - rewrite (step_is_stop r (or_intror L)). cbn [fst].
    apply (stop_trace r E).
  - rewrite (step_is_stop r (or_introl E)). cbn [fst].
    destruct (stop_cases r) as (_ & _ & [(_ & ->) | [(H & _) | (H & _)]]);
      try contradiction. reflexivity.
Qed.

Lemma init_keeps_name (r : Rec) :
  name (fst (init P r)) = name r.
Proof.
  run. destruct (includes _ _); cbn [negb fst snd];
    destruct (encoder_init P _ _) as [e' [[]|err]]; reflexivity.
Qed.

(** X14. [start()] never replaces a file name the caller gave; when none
    was given (or an empty one) and [init] resolved, it sets the default
    file name, built from the recorder's name, the start time read from the
    clock and the extension the encoder holds after its [init]. *)
Theorem start_sets_file_name_once (r : Rec) :
  (forall f, filename r = Some f -> f <> EmptyString ->
             filename (fst (start P r)) = Some f)
  /\ (falsy_string (filename r) = true -> snd (init P r) = Normal tt ->
      exists named file,
        filename (fst (start P r)) = Some file
        /\ getDefaultFileName P named
             (enc_extension (encoder (fst (init P r))))
           = Normal file
        /\ name named = name r /\ startTime named = Some (now P)
        /\ getParamString P named = getParamString P r).
Proof.
  pose proof (start_trace r) as Hst.
  destruct (init_trace r) as (_ & _ & Hfile & _). cbv zeta in Hfile.
  destruct (init_cases r) as ((_ & Hfr & Hctx & _) & _). cbv zeta in *.
  split.
  - intros f Hf Hne.
    assert (Hfalsy : falsy_string (filename r) = false).
    { rewrite Hf. cbn. now apply String.eqb_neq. }
    destruct (snd (init P r)) as [[]|err].
    + destruct Hst
        as (r1 & -> & _ & _ & _ & _ & _ & _ & (file & _ & Hname) & _).
      rewrite step_keeps_filename, Hname, Hfalsy. exact Hf.
    + rewrite Hst. cbn [fst]. congruence.
  - intros Hfalsy Hinit. rewrite Hinit in Hst.
    destruct Hst
      as (r1 & -> & _ & _ & _ & _ & _ & _ & (file & Hdef & Hname) & _).
    rewrite step_keeps_filename, Hname, Hfalsy.
    eexists. exists file. split; [reflexivity|]. split; [exact Hdef|].
    split; [apply init_keeps_name|]. split; [reflexivity|].
    unfold getParamString, get_width, get_height.
    cbn [context frameRate with_startTime]. now rewrite Hfr, Hctx.
Qed.

(** ** Statistics *)

Lemma perform_keeps_startTime (c : Call) (r : Rec) :
  c <> CallStart -> startTime (perform P c r) = startTime r.
Proof.
  intros Hc.
  assert (Hstop : startTime (fst (stop P r)) = startTime r).
  { run. destruct (status_eqb _ _); cbn [negb fst]; [|reflexivity].
    destruct (encoder_stop P _) as [e' [[a|]|err]]; cbn [fst snd];
      try destruct (download _); reflexivity. }
  destruct c; cbn [perform]; try congruence; try reflexivity.
  - run. destruct (includes _ _); cbn [negb fst snd];
      destruct (encoder_init P _ _) as [e' [[]|err]]; reflexivity.
  - destruct (status_eqb_spec (status r) Recording) as [E|E];
      [destruct (frame_lt_frameTotal r) eqn:L|].
    + unfold step, bind, this. cbv beta iota.
      rewrite E, L, status_eqb_refl. cbn [andb].
      pose proof (getFrame_keeps_object (frameMethod (encoder r)) r) as G.
      destruct (getFrame P (frameMethod (encoder r)) r) as [r1 [f|err]];
        cbn [fst snd] in *; subst r1; [|reflexivity].
      unfold call_encoder, assign.
      destruct (encoder_encode P _ _ _) as [e' [[]|err]]; reflexivity.
    + now rewrite (step_is_stop r (or_intror L)).
    + now rewrite (step_is_stop r (or_introl E)).
  - run. destruct (encoder_dispose P _) as [e' c]. reflexivity.
Qed.

(** X15. Until [start()] is called, reading [stats] throws: the start time
    it subtracts from the clock is not set by the constructor nor by any
    other method. *)
Theorem stats_before_start_throws (env : StatsEnv) (ctx : Context)
  (options : RecorderOptions EncoderData EncoderOptions)
  (calls : list Call) :
  ~ In CallStart calls ->
  exists err,
    get_stats P env (execute P calls (new_Recorder P ctx options))
    = Throw err.
Proof.
  intros Hin.
  assert (H : forall r : Rec,
             startTime r = None -> startTime (execute P calls r) = None).
  { induction calls as [|c calls IH]; intros r Hr; [exact Hr|].
    cbn [execute fold_left]. apply IH.
    - intros Hc. apply Hin. now right.
    - rewrite perform_keeps_startTime; [exact Hr|].
      intros ->. apply Hin. now left. }
  unfold get_stats.
  rewrite (H (new_Recorder P ctx options) eq_refl). eexists. reflexivity.
Qed.

(** X16. Reading [stats] on a started session that has counted no frame
    yet does not throw and divides the render time by a [frame] of 0:
    [secondsPerFrame] is never a finite number; it is [Infinity] when the
    clock has moved on since the start and [NaN] when it still shows the
    start time. *)
Theorem stats_before_first_frame (env : StatsEnv) (r : Rec) (t : Timing)
  (started : Z) :
  startTime r = Some started -> timing r = Some t -> frame t = 0%Z ->
  exists st,
    get_stats P env r = Normal st
    /\ (forall q, secondsPerFrame st <> Fin q)
    /\ (started < date_now env -> secondsPerFrame st = PosInf)
    /\ (date_now env = started -> secondsPerFrame st = NaN).
Proof.
  intros Hs Ht Hz. unfold get_stats. rewrite Hs, Ht, Hz.
  eexists. split; [reflexivity|].
  cbn [renderTime secondsPerFrame]. split; [|split].
  - intros q.
    destruct (num_div (num_of_Z (date_now env - started)) (num_of_Z 1000))
      as [x| | |]; cbn [num_div num_of_Z]; try discriminate.
    change (Qeq_bool (inject_Z 0) 0) with true. cbv beta iota.
    destruct (Qeq_bool x 0); [discriminate|].
    destruct (Qlt_bool 0 x); discriminate.
  - intros Hlt. unfold num_of_Z at 1 2. cbn [num_div].
    change (Qeq_bool (inject_Z 1000) 0) with false. cbv iota.
    destruct (double_pos (inject_Z (date_now env - started) / inject_Z 1000))
      as [-> | (v & -> & Hv)].
    + apply Qle_shift_div_l; [reflexivity|].
      apply Qle_trans with (y := 1%Q).
      * unfold pow2. cbn. unfold Qle. cbn. lia.
      * change 1%Q with (inject_Z 1). rewrite <- Zle_Qle. lia.
    + reflexivity.
    + unfold num_of_Z. cbn [num_div].
      change (Qeq_bool (inject_Z 0) 0) with true. cbv iota.
      rewrite (Qeq_bool_pos _ Hv).
      apply Qlt_bool_iff in Hv. now rewrite Hv.
  - intros ->. rewrite Z.sub_diag. reflexivity.
Qed.

(** ** Downloads and the shared link *)

Lemma created_urls_app (a b : list PageEvent) :
  created_urls (a ++ b) = created_urls a ++ created_urls b.
Proof.
  induction a as [|e a IH]; [reflexivity|].
  destruct e; cbn [app created_urls]; rewrite ?IH; reflexivity.
Qed.

Lemma revoked_urls_app (a b : list PageEvent) :
  revoked_urls (a ++ b) = revoked_urls a ++ revoked_urls b.
Proof.
  induction a as [|e a IH]; [reflexivity|].
  destruct e; cbn [app revoked_urls]; rewrite ?IH; reflexivity.
Qed.

Lemma count_page_app (kind : PageEvent -> bool) (a b : list PageEvent) :
  count_page kind (a ++ b) = (count_page kind a + count_page kind b)%nat.
Proof. unfold count_page. now rewrite filter_app, length_app. Qed.

Lemma page_after_downloads (tr : list (Event EncoderOptions)) :
  forall pg : Page,
    let n := tally is_download tr in
    let pg' := page_after tr pg in
    urls pg' = (urls pg + n)%nat
    /\ created_urls (page_events pg')
       = created_urls (page_events pg) ++ seq (urls pg) n
    /\ revoked_urls (page_events pg')
       = revoked_urls (page_events pg) ++ seq (urls pg) n
    /\ count_page is_click (page_events pg')
       = (count_page is_click (page_events pg) + n)%nat
    /\ count_page is_create_element (page_events pg')
       = (count_page is_create_element (page_events pg)
          + match link pg, n with
            | None, S _ => 1
            | _, _ => 0
            end)%nat
    /\ (link pg <> None -> link pg' <> None).
Proof.
  induction tr as [|e tr IH]; intros pg; cbv zeta.
  - cbn. rewrite !app_nil_r. destruct (link pg); repeat split; auto; lia.
  - destruct e;
      try (cbn [page_after fold_left]; rewrite tally_cons;
           cbn [is_download Nat.add]; exact (IH pg)).
    cbn [page_after fold_left]. rewrite tally_cons. cbn [is_download Nat.add].
    set (pg1 := downloadBlob filename0 parts mimeType pg).
    fold (page_after tr pg1).
    assert (F1 : urls pg1 = S (urls pg)) by reflexivity.
    assert (F2 : created_urls (page_events pg1)
                 = created_urls (page_events pg) ++ [urls pg]).
    { unfold pg1, downloadBlob. cbn [page_events].
      rewrite !created_urls_app. now destruct (link pg). }
    assert (F3 : revoked_urls (page_events pg1)
                 = revoked_urls (page_events pg) ++ [urls pg]).
    { unfold pg1, downloadBlob. cbn [page_events].
      rewrite !revoked_urls_app. now destruct (link pg). }
    assert (F4 : count_page is_click (page_events pg1)
                 = S (count_page is_click (page_events pg))).
    { unfold pg1, downloadBlob. cbn [page_events].
      rewrite !count_page_app. destruct (link pg); cbn; lia. }
    assert (F5 : count_page is_create_element (page_events pg1)
                 = (count_page is_create_element (page_events pg)
                    + match link pg with None => 1 | Some _ => 0 end)%nat).
    { unfold pg1, downloadBlob. cbn [page_events].
      rewrite !count_page_app. destruct (link pg); cbn; lia. }
    assert (F6 : link pg1 <> None) by discriminate.
    destruct (IH pg1) as (Hu & Hc & Hr & Hk & He & Hl).
    cbv zeta in *. rewrite Hu, Hc, Hr, Hk, He, F1, F2, F3, F4, F5.
    cbn [seq]. rewrite <- !app_assoc. cbn [app].
    assert (F7 : link pg1 = Some {| anchor_download := filename0;
                                    anchor_href := Some (urls pg) |})
      by reflexivity.
    rewrite F7.
    repeat split; try lia;
      first [destruct (link pg); lia | intros _; now apply Hl].
Qed.

(** X17. However many downloads the recorders of a page trigger, the link
    element is created once, by the first of them, and reused; each
    download clicks it once, and every object URL created is scheduled to
    be revoked: the URLs created and the URLs revoked are the same, each
    once. *)
Theorem downloads_share_one_link (tr : list (Event EncoderOptions)) :
  let n := tally is_download tr in
  let pg := page_after tr fresh_page in
  count_page is_create_element (page_events pg)
  = (if Nat.eqb n 0 then 0 else 1)%nat
  /\ count_page is_click (page_events pg) = n
  /\ List.length (created_urls (page_events pg)) = n
  /\ revoked_urls (page_events pg) = created_urls (page_events pg).
Proof.
  cbv zeta.
  destruct (page_after_downloads tr fresh_page) as (_ & Hc & Hr & Hk & He & _).
  cbv zeta in *. cbn in Hc, Hr, Hk, He.
  rewrite He, Hk, Hc, Hr.
  repeat split; try reflexivity.
  - now destruct (tally is_download tr).
  - apply length_seq.
Qed.

(** ** The order of encoder calls *)

Lemma starts_with_init_app (a d : list (Event EncoderOptions)) :
  starts_with_init a = true ->
  (tally is_encoder_init a = 0%nat -> starts_with_init d = true) ->
  starts_with_init (a ++ d) = true.
Proof.
  induction a as [|e a IH]; intros Ha Hd; [now apply Hd|].
  destruct e; cbn [app starts_with_init] in *; try reflexivity;
    try discriminate; apply IH; try assumption;
    intros H; apply Hd; rewrite tally_cons; cbn; exact H.
Qed.

Lemma idle_call_events (c : Call) (r : Rec) :
  status r <> Recording -> runs_init c = false ->
  status (perform P c r) = status r
  /\ (trace (perform P c r) = trace r
      \/ trace (perform P c r) = trace r ++ [EncoderDispose]).
Proof.
  intros Hs Hc. destruct c; try discriminate; cbn [perform].
  - rewrite (step_is_stop r (or_introl Hs)). cbn [fst].
    destruct (stop_cases r) as (_ & _ & [(_ & ->) | [(H & _) | (H & _)]]);
      try contradiction. split; [reflexivity | now left].
  - destruct (stop_cases r) as (_ & _ & [(_ & ->) | [(H & _) | (H & _)]]);
      try contradiction. split; [reflexivity | now left].
  - destruct (dispose_keeps r) as (_ & _ & Hst & _).
    destruct (dispose_trace r) as (_ & _ & Htr).
    split; [exact Hst | now right].
  - split; [reflexivity | now left].
  - split; [reflexivity | now left].
Qed.

(** X18. On every instance, whatever is called and whatever the encoder
    does, the first call into the encoder other than [dispose] is [init]:
    no frame is encoded and [encoder.stop] is not called before
    [encoder.init] has been called. *)
Theorem encoder_init_comes_first (ctx : Context)
  (options : RecorderOptions EncoderData EncoderOptions)
  (calls : list Call) :
  starts_with_init (trace (execute P calls (new_Recorder P ctx options)))
  = true.
Proof.
  assert (H : forall r : Rec,
             starts_with_init (trace r) = true ->
             (tally is_encoder_init (trace r) = 0%nat ->
              status r <> Recording) ->
             starts_with_init (trace (execute P calls r)) = true).
  { induction calls as [|c calls IH]; intros r Hst Hidle; [exact Hst|].
    cbn [execute fold_left]. fold (execute P calls (perform P c r)).
    destruct (perform_events c r) as (_ & d & Hd & Hev).
    pose proof (call_events_inits r c d Hev) as Hinits.
    apply IH.
    - rewrite Hd. apply starts_with_init_app; [exact Hst|].
      intros Hz. specialize (Hidle Hz).
      destruct (runs_init c) eqn:Hc.
      + clear Hinits. shapes; try discriminate;
          unfold extension_warning; destruct (includes _ _); reflexivity.
      + destruct (idle_call_events c r Hidle Hc) as (_ & [Ht | Ht]);
          rewrite Hd in Ht.
        * rewrite <- (app_nil_r (trace r)) in Ht at 2.
          apply app_inv_head in Ht. now subst d.
        * apply app_inv_head in Ht. now subst d.
    - rewrite Hd, tally_app, Hinits. intros Hz.
      destruct (runs_init c) eqn:Hc; [lia|].
      assert (Hz' : tally is_encoder_init (trace r) = 0%nat) by lia.
      destruct (idle_call_events c r (Hidle Hz') Hc) as (Hs & _).
      rewrite Hs. now apply Hidle. }
  apply H; [reflexivity|]. intros _. discriminate.
Qed.

End Properties.

(** * The class on concrete inputs *)

(** ** Lifecycle order *)

(** A second [start()] on the instance that has just recorded delivers
    [Initializing] again, after [Stopped]. *)
Lemma restart_repeats_statuses :
  observed (execute browser [CallStart; CallStop; CallStart] default_recorder)
  = [Ready; Initializing; Initialized; Recording; Stopping; Stopped;
     Initializing; Initialized; Recording]
  /\ subsequence
       (observed
          (execute browser [CallStart; CallStop; CallStart] default_recorder))
       lifecycle = false.
Proof. split; reflexivity. Qed.

Lemma observed_statuses_follow_lifecycle_witness :
  (init_calls [CallStart; CallStep; CallStop; CallStep; CallDispose] <= 1)%nat
  /\ subsequence
       (observed
          (execute browser
             [CallStart; CallStep; CallStop; CallStep; CallDispose]
             (new_Recorder browser (canvas2d 300 150) no_options)))
       lifecycle = true
  /\ NoDup
       (observed
          (execute browser
             [CallStart; CallStep; CallStop; CallStep; CallDispose]
             (new_Recorder browser (canvas2d 300 150) no_options))).
Proof.
  split; [cbn; lia|].
  apply (observed_statuses_follow_lifecycle browser (canvas2d 300 150)
           no_options [CallStart; CallStep; CallStop; CallStep; CallDispose]).
  cbn. lia.
Defined.

(** ** Numbers *)

(** 0.1 + 0.2 is 0.30000000000000004; (1 / 49) * 49 is 0.9999999999999999;
    0.28 * 25 is 7.000000000000001 and 0.1 * 10 is 1; 1e308 * 10 overflows;
    half of the least positive double is 0. *)
Example double_arithmetic :
  num_add (literal (1 # 10)) (literal (2 # 10))
  = Fin (1351079888211149 # 4503599627370496)
  /\ num_mul (num_div (num_of_Z 1) (num_of_Z 49)) (num_of_Z 49)
     = Fin (9007199254740991 # 9007199254740992)
  /\ num_mul (literal (28 # 100)) (num_of_Z 25)
     = Fin (7881299347898369 # 1125899906842624)
  /\ num_mul (literal (1 # 10)) (num_of_Z 10) = num_of_Z 1
  /\ num_mul (literal (inject_Z (10 ^ 308))) (num_of_Z 10) = PosInf
  /\ num_div (Fin (pow2 (-1074))) (num_of_Z 2) = Fin 0
  /\ is_double (literal (1 # 10)) /\ ~ is_double (Fin (1 # 10)).
Proof. repeat split; vm_compute; congruence. Qed.

(** ** Timing *)


(** Ten seconds at 10 frames per second: frame total and frame count are
    both 100, and the hundred sums of the double nearest to 0.1 leave [time]
    at 9.99999999999998, further from the duration than the spacing of the
    doubles there. *)
Example accumulated_time_drifts :
  let r := execute browser (CallStart :: repeat CallStep 100)
             ten_second_recorder in
  status r = Stopped
  /\ exists t,
       timing r = Some t
       /\ frame t = 100 /\ frameTotal t = Fin 100
       /\ time t = Fin (5629499534213109 # 562949953421312)
       /\ num_lt (num_add (time t) (literal (1 # 100000000000000)))
            (duration r) = true.
Proof.
  cbv zeta. split; [vm_compute; reflexivity|].
  eexists. split; [vm_compute; reflexivity|].
  repeat split; vm_compute; reflexivity.
Qed.

(** A tenth of a second at 25 frames per second: after the third frame
    [frame] is 3, above the frame total of two and a half.  One second at 10
    frames per second: after the third frame [time] is
    0.30000000000000004, and [frame / frameRate] is 0.3. *)
Lemma frame_exceeds_fractional_frameTotal :
  (let r := execute browser [CallStart; CallStep; CallStep] tenth_recorder in
   valid_duration (duration tenth_recorder)
   /\ valid_frameRate (frameRate tenth_recorder)
   /\ status r = Recording
   /\ exists t,
        timing r = Some t
        /\ frame t = 3 /\ frameTotal t = Fin (5 # 2)
        /\ num_le (num_of_Z (frame t)) (frameTotal t) = false)
  /\ (let r := execute browser [CallStart; CallStep; CallStep]
                 second_recorder in
      valid_duration (duration second_recorder)
      /\ valid_frameRate (frameRate second_recorder)
      /\ status r = Recording
      /\ exists t,
           timing r = Some t
           /\ frame t = 3
           /\ time t = Fin (1351079888211149 # 4503599627370496)
           /\ num_div (num_of_Z (frame t)) (frameRate r)
              = Fin (5404319552844595 # 18014398509481984)
           /\ ~ num_eqv (time t)
                  (num_div (num_of_Z (frame t)) (frameRate r))).
Proof.
  cbv zeta. split.
  - split; [vm_compute; discriminate|]. split; [reflexivity|].
    split; [vm_compute; reflexivity|].
    eexists. split; [vm_compute; reflexivity|].
    repeat split; vm_compute; reflexivity.
  - split; [discriminate|]. split; [reflexivity|].
    split; [vm_compute; reflexivity|].
    eexists. split; [vm_compute; reflexivity|].
    split; [reflexivity|]. split; [reflexivity|].
    split; [vm_compute; reflexivity|].
    vm_compute. discriminate.
Qed.


(** 0.28 seconds at 25 frames per second: the frame total is
    7.000000000000001, so the recording takes eight frames. *)
Example eight_frames_for_seven_and_a_bit :
  let r := execute browser (CallStart :: repeat CallStep 8) clip_recorder in
  duration clip_recorder = Fin (1261007895663739 # 4503599627370496)
  /\ status (execute browser (CallStart :: repeat CallStep 7) clip_recorder)
     = Recording
  /\ status r = Stopped
  /\ encoded (trace r) = [0; 1; 2; 3; 4; 5; 6; 7]
  /\ exists t,
       timing r = Some t
       /\ frameTotal t = Fin (7881299347898369 # 1125899906842624)
       /\ frame t = 8.
Proof.
  cbv zeta. split; [vm_compute; reflexivity|].
  split; [vm_compute; reflexivity|]. split; [vm_compute; reflexivity|].
  split; [vm_compute; reflexivity|].
  eexists. split; [vm_compute; reflexivity|]. split; reflexivity.
Qed.

(** One second at 10 frames per second: ten sums of the double nearest to
    0.1 give 0.9999999999999999. *)
Example one_second_accumulated :
  accumulate (num_div (num_of_Z 1) (frameRate second_recorder)) 10
  = Fin (9007199254740991 # 9007199254740992).
Proof. vm_compute. reflexivity. Qed.

Lemma timing_invariant_witness :
  valid_duration (duration short_recorder)
  /\ valid_frameRate (frameRate short_recorder)
  /\ is_double (duration short_recorder)
  /\ is_double (frameRate short_recorder)
  /\ runs_init CallStart = true
  /\ (Z.of_nat (List.length [CallStep; CallStep]) < 2 ^ 53)%Z
  /\ exists t,
       timing (execute browser [CallStart; CallStep; CallStep] short_recorder)
       = Some t
       /\ (0 <= frame t)%Z
       /\ num_lt (num_of_Z (frame t - 1)) (frameTotal t) = true
       /\ time t = accumulate (deltaTime t) (Z.to_nat (frame t)).
Proof.
  assert (Hd : valid_duration (duration short_recorder)) by discriminate.
  assert (Hf : valid_frameRate (frameRate short_recorder)) by reflexivity.
  assert (Hn : (Z.of_nat (List.length [CallStep; CallStep]) < 2 ^ 53)%Z)
    by reflexivity.
  assert (Hdd : is_double (duration short_recorder)).
  { vm_compute. reflexivity. }
  assert (Hdf : is_double (frameRate short_recorder)).
  { vm_compute. reflexivity. }
  destruct (timing_invariant browser short_recorder CallStart
              [CallStep; CallStep] Hd Hf Hdd Hdf eq_refl Hn)
    as (t & Ht & Hpos & Hlt & _ & _ & Htime & _).
  split; [exact Hd|]. split; [exact Hf|]. split; [exact Hdd|].
  split; [exact Hdf|]. split; [reflexivity|].
  split; [exact Hn|].
  exists t. repeat split; assumption.
Defined.

(** One second at 10 frames per second: ten frames, indices 0 to 9. *)
Example ten_frames_encoded :
  encoded (trace (execute browser (CallStart :: repeat CallStep 10)
                    second_recorder))
  = [0; 1; 2; 3; 4; 5; 6; 7; 8; 9].
Proof. vm_compute. reflexivity. Qed.

(** With no end and a frame rate of 0 the frame total is NaN, and the
    [step()] inside [start()] stops the session at once. *)
Lemma zero_frameRate_stops_itself :
  duration still_recorder = PosInf
  /\ ~ In CallStop [CallStart]
  /\ option_map frameTotal (timing (execute browser [CallStart] still_recorder))
     = Some NaN
  /\ observed (execute browser [CallStart] still_recorder)
     = [Ready; Initializing; Initialized; Recording; Stopping; Stopped]
  /\ status (execute browser [CallStart] still_recorder) = Stopped.
Proof.
  split; [reflexivity|]. split; [cbn; intuition discriminate|].
  repeat split; vm_compute; reflexivity.
Qed.

Lemma infinite_duration_never_stops_itself_witness :
  duration endless_recorder = PosInf
  /\ frameRate endless_recorder = Fin 30
  /\ (0 < 30)%Q
  /\ ~ In CallStop [CallStart; CallStep; CallDispose; CallStep]
  /\ snd (init browser endless_recorder) = Normal tt
  /\ ~ In Stopping
         (observed
            (execute browser [CallStart; CallStep; CallDispose; CallStep]
               endless_recorder))
  /\ status (execute browser (CallStart :: repeat CallStep 5) endless_recorder)
     = Recording
  /\ ~ In Stopping
         (observed (execute browser (CallStart :: repeat CallStep 5)
                      endless_recorder))
  /\ In Stopping
       (observed
          (fst (stop browser
                  (execute browser (CallStart :: repeat CallStep 5)
                     endless_recorder)))).
Proof.
  assert (Hin : ~ In CallStop [CallStart; CallStep; CallDispose; CallStep]).
  { cbn. intuition discriminate. }
  assert (Hf : (0 < 30)%Q) by reflexivity.
  assert (Hinit : snd (init browser endless_recorder) = Normal tt).
  { vm_compute. reflexivity. }
  destruct (infinite_duration_never_stops_itself browser (canvas2d 300 150)
              (timed_options PosInf (num_of_Z 30)) 30
              [CallStart; CallStep; CallDispose; CallStep] 5
              eq_refl eq_refl Hf Hin)
    as ((Hobs & _) & Hrec).
  destruct (Hrec Hinit) as (Hs & Hno & rest & Hstop & _).
  split; [reflexivity|]. split; [reflexivity|]. split; [exact Hf|].
  split; [exact Hin|]. split; [exact Hinit|]. split; [exact Hobs|].
  split; [exact Hs|]. split; [exact Hno|].
  change endless_recorder
    with (new_Recorder browser (canvas2d 300 150)
            (timed_options PosInf (num_of_Z 30))).
  rewrite Hstop. apply in_or_app. right. now left.
Defined.

(** ** Calls outside [Recording] *)

Lemma stop_not_recording_is_noop_witness :
  status default_recorder <> Recording
  /\ stop browser default_recorder = (default_recorder, Normal None).
Proof.
  assert (H : status default_recorder <> Recording) by discriminate.
  split; [exact H|].
  exact (stop_not_recording_is_noop browser default_recorder H).
Defined.

Lemma step_not_recording_is_noop_witness :
  status (execute browser [CallStart; CallStop] default_recorder) <> Recording
  /\ step browser (execute browser [CallStart; CallStop] default_recorder)
     = (execute browser [CallStart; CallStop] default_recorder, Normal tt).
Proof.
  assert (H : status (execute browser [CallStart; CallStop] default_recorder)
              <> Recording) by discriminate.
  split; [exact H|].
  exact (step_not_recording_is_noop browser _ H).
Defined.

(** ** Extension and encoder *)

Lemma getSupportedExtension_resolves_witness :
  ~ In (extension mov_recorder) (supportedExtensions (encoder mov_recorder))
  /\ exists r',
       getSupportedExtension mov_recorder = (r', Normal (Some "mp4"%string))
       /\ exists msg, trace r' = trace mov_recorder ++ [ConsoleWarn msg].
Proof.
  assert (H : ~ In (extension mov_recorder)
                (supportedExtensions (encoder mov_recorder))).
  { cbn. intuition discriminate. }
  split; [exact H|].
  exact (proj2 (getSupportedExtension_resolves mov_recorder) H).
Defined.

Example mov_resolves_to_mp4_with_one_warning :
  snd (getSupportedExtension mov_recorder) = Normal (Some "mp4"%string)
  /\ warnings (trace (fst (getSupportedExtension mov_recorder)))
     = [("canvas-record: unsupported extension for encoder " ++ quote
         ++ "Muxer" ++ quote ++ ". Defaulting to " ++ quote ++ "mp4"
         ++ quote ++ ".")%string].
Proof. split; reflexivity. Qed.


(** ** Width and height *)

(** C9 on the class: on a canvas 300 pixels wide, after [recorder.width =
    100] a read of [recorder.width] is still 300; the value went to the
    encoder, which the getter does not read. *)
Theorem width_setter_is_not_read_back :
  get_width (set_width 100 default_recorder) = 300
  /\ enc_width (encoder (set_width 100 default_recorder)) = Some 100
  /\ get_height (set_height 100 default_recorder) = 150.
Proof. repeat split. Qed.

(** ** The pixel path *)

Lemma getFrame_imageData_flips_rows_witness :
  drawingBuffer (context gl_recorder) = Some (1, 2)
  /\ 0 < 1 /\ 0 <= 2
  /\ readPixels (plain_platform two_rows) (context gl_recorder) 0 0 1 2
     = Normal two_rows
  /\ exists flipped,
       getFrame (plain_platform two_rows) (Some "imageData"%string) gl_recorder
       = (gl_recorder, Normal (Pixels flipped))
       /\ subarray flipped 0 4 = [x05; x06; x07; x08]
       /\ subarray flipped 4 8 = [x01; x02; x03; x04].
Proof.
  assert (H1 : 0 < 1) by lia. assert (H2 : 0 <= 2) by lia.
  destruct (getFrame_imageData_flips_rows (plain_platform two_rows)
              gl_recorder 1 2 two_rows eq_refl H1 H2 eq_refl)
    as (flipped & Hget & _ & Hrows & _).
  repeat (split; [first [reflexivity | assumption]|]).
  exists flipped. split; [exact Hget|]. split.
  - exact (Hrows 0 ltac:(lia)).
  - exact (Hrows 1 ltac:(lia)).
Defined.

Example two_rows_flipped :
  snd (getFrame (plain_platform two_rows) (Some "imageData"%string)
         gl_recorder)
  = Normal (Pixels [x05; x06; x07; x08; x01; x02; x03; x04]).
Proof. reflexivity. Qed.

(** ** Encoder calls on concrete runs *)

Lemma encoder_stop_at_most_once_witness :
  (init_calls [CallStart; CallStop; CallStop; CallStep] <= 1)%nat
  /\ (tally is_encoder_stop
        (trace (execute browser [CallStart; CallStop; CallStop; CallStep]
                  (new_Recorder browser (canvas2d 300 150) no_options)))
      <= 1)%nat.
Proof.
  assert (H : (init_calls [CallStart; CallStop; CallStop; CallStep] <= 1)%nat)
    by (cbn; lia).
  split; [exact H|].
  exact (proj1 (encoder_stop_at_most_once browser (canvas2d 300 150)
                  no_options [CallStart; CallStop; CallStop; CallStep] H)).
Defined.

Lemma download_off_never_downloads_witness :
  download (new_Recorder browser (canvas2d 300 150) quiet_options) = false
  /\ tally is_download
       (trace (execute browser [CallStart; CallStop; CallStart; CallStop]
                 (new_Recorder browser (canvas2d 300 150) quiet_options)))
     = tally is_download
         (trace (new_Recorder browser (canvas2d 300 150) quiet_options)).
Proof.
  split; [reflexivity|].
  exact (proj1 (download_off_never_downloads browser
                  [CallStart; CallStop; CallStart; CallStop]
                  (new_Recorder browser (canvas2d 300 150) quiet_options)
                  eq_refl)).
Defined.

Lemma idle_session_is_inert_witness :
  status (execute browser [CallStart; CallStop] default_recorder)
  <> Recording
  /\ init_calls [CallStep; CallStop; CallDispose; CallStep] = 0%nat
  /\ status (execute browser [CallStep; CallStop; CallDispose; CallStep]
               (execute browser [CallStart; CallStop] default_recorder))
     = status (execute browser [CallStart; CallStop] default_recorder).
Proof.
  assert (H : status (execute browser [CallStart; CallStop] default_recorder)
              <> Recording) by discriminate.
  split; [exact H|]. split; [reflexivity|].
  exact (proj1 (idle_session_is_inert browser
                  [CallStep; CallStop; CallDispose; CallStep]
                  (execute browser [CallStart; CallStop] default_recorder)
                  H eq_refl)).
Defined.

Lemma full_recording_frame_indices_witness :
  valid_duration (duration clip_recorder)
  /\ valid_frameRate (frameRate clip_recorder)
  /\ is_double (duration clip_recorder)
  /\ is_double (frameRate clip_recorder)
  /\ num_mul (duration clip_recorder) (frameRate clip_recorder)
     = Fin (7881299347898369 # 1125899906842624)
  /\ (7881299347898369 # 1125899906842624 <= inject_Z (2 ^ 53))%Q
  /\ resolves browser (CallStart :: repeat CallStep 8) clip_recorder
  /\ encoded (trace (execute browser (CallStart :: repeat CallStep 8)
                       clip_recorder))
     = encoded (trace clip_recorder) ++ indices 0 8.
Proof.
  assert (Htotal : num_mul (duration clip_recorder) (frameRate clip_recorder)
                   = Fin (7881299347898369 # 1125899906842624)).
  { vm_compute. reflexivity. }
  assert (Hres : resolves browser (CallStart :: repeat CallStep 8)
                   clip_recorder).
  { vm_compute. repeat split. }
  assert (Hvd : valid_duration (duration clip_recorder)).
  { vm_compute. discriminate. }
  assert (Hvf : valid_frameRate (frameRate clip_recorder)) by reflexivity.
  assert (Hdd : is_double (duration clip_recorder)).
  { vm_compute. reflexivity. }
  assert (Hdf : is_double (frameRate clip_recorder)).
  { vm_compute. reflexivity. }
  assert (Hb : (7881299347898369 # 1125899906842624 <= inject_Z (2 ^ 53))%Q)
    by discriminate.
  split; [exact Hvd|]. split; [exact Hvf|]. split; [exact Hdd|].
  split; [exact Hdf|]. split; [exact Htotal|]. split; [exact Hb|].
  split; [exact Hres|].
  exact (full_recording_frame_indices browser clip_recorder
           (7881299347898369 # 1125899906842624)
           Hvd Hvf Hdd Hdf Htotal Hb Hres).
Defined.

(** Frame 6 at 30 frames per second is stamped 199999.99999999997. *)
Lemma videoFrame_timestamps_witness :
  is_double (frameRate default_recorder)
  /\ runs_init CallStart = true
  /\ (Z.of_nat (List.length (repeat CallStep 5)) < 2 ^ 53)%Z
  /\ frameMethod
       (encoder (execute browser (CallStart :: repeat CallStep 5)
                   default_recorder))
     = Some "videoFrame"%string
  /\ trace (fst (step browser
                   (execute browser (CallStart :: repeat CallStep 5)
                      default_recorder)))
     = trace (execute browser (CallStart :: repeat CallStep 5)
                default_recorder)
       ++ [EncoderEncode
             (VideoFrame 0 (Fin (6871947673599999 # 34359738368))) 6]
  /\ (0 <= 6)%Z
  /\ exists handle,
       VideoFrame 0 (Fin (6871947673599999 # 34359738368))
       = VideoFrame handle
           (num_mul
              (accumulate (num_div (num_of_Z 1) (frameRate default_recorder))
                 (Z.to_nat 6))
              (num_of_Z 1000000)).
Proof.
  assert (Hn : (Z.of_nat (List.length (repeat CallStep 5)) < 2 ^ 53)%Z)
    by reflexivity.
  assert (Htr :
    trace (fst (step browser
                  (execute browser (CallStart :: repeat CallStep 5)
                     default_recorder)))
    = trace (execute browser (CallStart :: repeat CallStep 5)
               default_recorder)
      ++ [EncoderEncode
            (VideoFrame 0 (Fin (6871947673599999 # 34359738368))) 6]).
  { vm_compute. reflexivity. }
  assert (Hm : frameMethod
                 (encoder
                    (execute browser (CallStart :: repeat CallStep 5)
                       default_recorder))
               = Some "videoFrame"%string).
  { vm_compute. reflexivity. }
  assert (Hdf : is_double (frameRate default_recorder)).
  { vm_compute. reflexivity. }
  split; [exact Hdf|].
  split; [reflexivity|]. split; [exact Hn|]. split; [exact Hm|].
  split; [exact Htr|].
  exact (videoFrame_timestamps browser default_recorder CallStart
           (repeat CallStep 5) _ 6 Hdf eq_refl Hn Hm Htr).
Defined.

(** ** Failures on concrete runs *)

Lemma rejected_step_keeps_playhead_witness :
  status encode_faulty_recorder = Recording
  /\ timing encode_faulty_recorder
     = Some (initial_timing encode_faulty_recorder)
  /\ frame_lt_frameTotal encode_faulty_recorder = true
  /\ snd (step encode_faulty encode_faulty_recorder) = Throw "EncodeError"
  /\ status (fst (step encode_faulty encode_faulty_recorder)) = Recording
  /\ timing (fst (step encode_faulty encode_faulty_recorder))
     = Some (initial_timing encode_faulty_recorder).
Proof.
  repeat (split; [reflexivity|]).
  pose proof (rejected_step_keeps_playhead encode_faulty
                encode_faulty_recorder
                (initial_timing encode_faulty_recorder)
                "EncodeError" eq_refl eq_refl eq_refl eq_refl) as H.
  cbv zeta in H. split; apply H.
Defined.

Lemma failed_init_fails_start_witness :
  snd (encoder_init init_faulty
         (init_config init_faulty init_faulty_recorder)
         (encoder init_faulty_recorder))
  = Throw "EncoderInitError"
  /\ snd (start init_faulty init_faulty_recorder) = Throw "EncoderInitError"
  /\ status (fst (start init_faulty init_faulty_recorder)) = Initializing.
Proof.
  split; [reflexivity|].
  pose proof (failed_init_fails_start init_faulty init_faulty_recorder
                "EncoderInitError" eq_refl) as H.
  cbv zeta in H. split; apply H.
Defined.

Lemma failed_stop_is_final_witness :
  status stop_faulty_recorder = Recording
  /\ snd (encoder_stop stop_faulty (encoder stop_faulty_recorder))
     = Throw "flush failed"
  /\ snd (stop stop_faulty stop_faulty_recorder) = Throw "flush failed"
  /\ status (fst (stop stop_faulty stop_faulty_recorder)) = Stopping
  /\ stop stop_faulty (fst (stop stop_faulty stop_faulty_recorder))
     = (fst (stop stop_faulty stop_faulty_recorder), Normal None).
Proof.
  split; [reflexivity|]. split; [reflexivity|].
  pose proof (failed_stop_is_final stop_faulty stop_faulty_recorder
                "flush failed" eq_refl eq_refl) as H.
  cbv zeta in H. repeat split; apply H.
Defined.

Lemma init_passes_supported_extension_witness :
  supportedExtensions (encoder mov_recorder) <> []
  /\ exists ext,
       cfg_extension (init_config browser mov_recorder) = Some ext
       /\ In ext (supportedExtensions (encoder mov_recorder))
       /\ cfg_mimeType (init_config browser mov_recorder)
          = Own "video/mp4"%string.
Proof.
  assert (H : supportedExtensions (encoder mov_recorder) <> [])
    by discriminate.
  split; [exact H|].
  destruct (init_passes_supported_extension browser mov_recorder H)
    as (ext & He & Hin & Hown & _).
  exists ext. split; [exact He|]. split; [exact Hin|].
  apply Hown. injection He as <-. cbn. tauto.
Defined.

(** An encoder that lists [constructor] as an extension is handed the
    inherited member of the table, not a MIME type. *)
Example inherited_member_as_mimeType :
  cfg_extension (init_config browser odd_recorder)
  = Some "constructor"%string
  /\ cfg_mimeType (init_config browser odd_recorder)
     = Inherited "constructor"%string
  /\ get_property mimeTypes "webm" = Own "video/webm"%string
  /\ get_property mimeTypes "undefined" = Undefined.
Proof. repeat split. Qed.

(** ** Pixels, file names and statistics on concrete inputs *)

Lemma flipping_twice_restores_witness :
  0 < 1 /\ 0 <= 2 /\ len two_rows = 1 * 2 * 4
  /\ readPixels (plain_platform two_rows) (webgl 1 2) 0 0 1 2
     = Normal two_rows
  /\ flipped_pixels (plain_platform two_rows) (webgl 1 2) 1 2
     = Normal two_rows_flipped_bytes
  /\ readPixels (plain_platform two_rows_flipped_bytes) (webgl 1 2) 0 0 1 2
     = Normal two_rows_flipped_bytes
  /\ flipped_pixels (plain_platform two_rows_flipped_bytes) (webgl 1 2) 1 2
     = Normal two_rows.
Proof.
  assert (H1 : 0 < 1) by lia. assert (H2 : 0 <= 2) by lia.
  repeat (split; [first [reflexivity | assumption]|]).
  exact (flipping_twice_restores (plain_platform two_rows)
           (plain_platform two_rows_flipped_bytes) (webgl 1 2) (webgl 1 2)
           1 2 two_rows two_rows_flipped_bytes H1 H2 eq_refl eq_refl
           eq_refl eq_refl).
Defined.

Lemma flipped_pixels_edges_witness :
  0 < 1
  /\ readPixels (plain_platform []) (webgl 1 0) 0 0 1 0 = Normal []
  /\ flipped_pixels (plain_platform []) (webgl 1 0) 1 0 = Normal [].
Proof.
  assert (H1 : 0 < 1) by lia.
  split; [exact H1|]. split; [reflexivity|].
  exact (proj1 (flipped_pixels_edges (plain_platform []) (webgl 1 0) 1 []
                  H1) eq_refl).
Defined.

Lemma default_file_name_shape_witness :
  startTime named_recorder = Some 0
  /\ formatDate browser 0 <> EmptyString
  /\ getDefaultFileName browser named_recorder (Some "mp4"%string)
     = Normal "clip-2024-01-01-00-00-00-nxn@nfps.mp4"%string.
Proof.
  assert (H : formatDate browser 0 <> EmptyString) by discriminate.
  split; [reflexivity|]. split; [exact H|].
  exact (default_file_name_shape browser named_recorder
           0 (Some "mp4"%string) eq_refl H).
Defined.

Lemma start_sets_file_name_once_witness :
  filename (new_Recorder browser (canvas2d 300 150) titled_options)
  = Some "take-1.mp4"%string
  /\ "take-1.mp4"%string <> EmptyString
  /\ filename
       (fst (start browser
               (new_Recorder browser (canvas2d 300 150) titled_options)))
     = Some "take-1.mp4"%string.
Proof.
  assert (H : "take-1.mp4"%string <> EmptyString) by discriminate.
  split; [reflexivity|]. split; [exact H|].
  exact (proj1 (start_sets_file_name_once browser
                  (new_Recorder browser (canvas2d 300 150) titled_options))
           "take-1.mp4"%string eq_refl H).
Defined.

Lemma stats_before_start_throws_witness :
  ~ In CallStart [CallStep; CallInit; CallStop]
  /\ exists err,
       get_stats browser plain_stats
         (execute browser [CallStep; CallInit; CallStop]
            (new_Recorder browser (canvas2d 300 150) no_options))
       = Throw err.
Proof.
  assert (H : ~ In CallStart [CallStep; CallInit; CallStop]).
  { cbn. intuition discriminate. }
  split; [exact H|].
  exact (stats_before_start_throws browser plain_stats (canvas2d 300 150)
           no_options [CallStep; CallInit; CallStop] H).
Defined.

Lemma stats_before_first_frame_witness :
  startTime encode_faulty_recorder = Some 0
  /\ timing encode_faulty_recorder
     = Some (initial_timing
               (new_Recorder encode_faulty (canvas2d 300 150) no_options))
  /\ frame (initial_timing
              (new_Recorder encode_faulty (canvas2d 300 150) no_options))
     = 0
  /\ (0 < date_now plain_stats)%Z
  /\ exists st,
       get_stats encode_faulty plain_stats encode_faulty_recorder = Normal st
       /\ (forall q, secondsPerFrame st <> Fin q)
       /\ secondsPerFrame st = PosInf.
Proof.
  assert (Ht : timing encode_faulty_recorder
               = Some (initial_timing
                         (new_Recorder encode_faulty (canvas2d 300 150)
                            no_options))).
  { vm_compute. reflexivity. }
  assert (Hclock : (0 < date_now plain_stats)%Z) by reflexivity.
  split; [reflexivity|]. split; [exact Ht|]. split; [reflexivity|].
  split; [exact Hclock|].
  destruct (stats_before_first_frame encode_faulty plain_stats
              encode_faulty_recorder _ 0 eq_refl Ht eq_refl)
    as (st & Hst & Hq & Hinf & _).
  exists st. split; [exact Hst|]. split; [exact Hq | exact (Hinf Hclock)].
Defined.

(** Two seconds after a start whose first frame was rejected,
    [secondsPerFrame] is [Infinity]. *)
Example stats_with_no_frame :
  option_map secondsPerFrame
    (match get_stats encode_faulty plain_stats encode_faulty_recorder with
     | Normal st => Some st
     | Throw _ => None
     end)
  = Some PosInf.
Proof. vm_compute. reflexivity. Qed.
